(** * print-combinator: the Build / BuildCollection allocation engine

    A shallow embedding of [build_randomizer.py] (classes [Build] and
    [BuildCollection]) and of the [Test] tuple of [matrix_generator.py],
    followed by the properties of the allocation engine.

    Conventions of the embedding:
    - Python integers are [Z], and batch and machine identifiers, print
      times and material quantities are integers; [%] on integers is
      [Z.modulo] (the sign of the result follows the divisor in both) and a
      zero divisor raises.  The program itself puts no type on quantities:
      the properties that involve them follow the program's own sums and
      comparisons, and none relies on [filter_builds] ([max - used >= q])
      and [add_part] ([used + q > max]) drawing the same line, which holds
      of integers only.
    - A Python [dict] is an insertion-ordered association list; assignment to
      an existing key overwrites in place, assignment to a new key appends.
    - A method that mutates [self] returns the new [self] next to its
      outcome; a raised exception is an outcome, and the state it leaves
      behind is the state reached when it was raised.
    - A reference to a Build held by a collection is its position in
      [builds]: builds are only ever appended. *)

From Stdlib Require Import ZArith List String Bool Lia Permutation Sorted.
From Stdlib Require Import DecimalString DecimalZ DecimalPos.
Import ListNotations.
Local Open Scope string_scope.
Local Open Scope list_scope.
Local Open Scope Z_scope.

Set Implicit Arguments.

(** ** Python dictionaries *)

Module Dict.
Section Ops.
Variable V : Type.

Definition t := list (string * V).

Definition empty : t := [].

(** [d.get(k)] / [d[k]] *)
Fixpoint get (d : t) (k : string) : option V :=
  match d with
  | [] => None
  | (k', v) :: d' => if String.eqb k' k then Some v else get d' k
  end.

(** [k in d] *)
Definition mem (d : t) (k : string) : bool :=
  match get d k with Some _ => true | None => false end.

(** [d[k] = v] *)
Fixpoint set (d : t) (k : string) (v : V) : t :=
  match d with
  | [] => [(k, v)]
  | (k', v') :: d' =>
      if String.eqb k' k then (k', v) :: d' else (k', v') :: set d' k v
  end.

Definition keys (d : t) : list string := map fst d.
Definition values (d : t) : list V := map snd d.
Definition items (d : t) : list (string * V) := d.

(** [{k: v for k, v in l}] *)
Definition of_items (l : list (string * V)) : t :=
  fold_left (fun d kv => set d (fst kv) (snd kv)) l empty.

(** the keys of a dictionary are pairwise distinct *)
Definition wf (d : t) : Prop := NoDup (keys d).
End Ops.

(** [d.get(k, 0)] *)
Definition get0 (d : t Z) (k : string) : Z :=
  match get d k with Some v => v | None => 0 end.

Arguments empty {V}.
End Dict.

(** ** The [Test] tuple of [matrix_generator.py] (a "part") *)

Module Test.
Record t := mk {
  name : string;
  base_name : string;
  cnd : string;
  batch : Z;
  machine : Z;
  sample : Z;
  print_time : Z;
  print_materials : Dict.t Z;
  print_max_samples : Z
}.
End Test.

(** [matrix_generator._concat_name]: ['-'.join] of the arguments that are
    not [None] *)
Definition _concat_name (base ext : option string) : string :=
  let strs : list string := [] in
  let strs := match base with Some b => strs ++ [b] | None => strs end in
  let strs := match ext with Some e => strs ++ [e] | None => strs end in
  String.concat "-" strs.

(** the test name [matrix_to_list] hands down a branch of the matrix: at
    each key, [_concat_name(test_name, key)], starting from [None] *)
Definition name_along (path : list string) : option string :=
  fold_left (fun test_name key => Some (_concat_name test_name (Some key)))
            path None.

(** ** Exceptions and outcomes *)

Inductive exn :=
| RuntimeError (msg : string)
| ZeroDivisionError
| KeyError (key : string)
| IndexError
| ValueError
| UnboundLocalError.

(** The four failures of [Build.add_part], by their messages. *)
Definition BatchMismatch : exn := RuntimeError "Part did not match Build batch ID".
Definition MachineMismatch : exn := RuntimeError "Part did not match Build machine ID".
Definition DuplicatePart : exn := RuntimeError "Part already in build".
Definition MaterialExceeded (key : string) : exn :=
  RuntimeError (String.append "Part uses too much " key).

Inductive result (A : Type) :=
| Ok (a : A)
| Raise (e : exn).
Arguments Ok {A} a.
Arguments Raise {A} e.

Definition bind {A B} (r : result A) (k : A -> result B) : result B :=
  match r with Ok a => k a | Raise e => Raise e end.

Notation "x <- r ;; k" := (bind r (fun x => k))
  (at level 61, r at next level, right associativity).

Definition option_Z_eqb (a b : option Z) : bool :=
  match a, b with
  | Some x, Some y => Z.eqb x y
  | None, None => true
  | _, _ => false
  end.

(** ** Module constants and string formatting *)

(** the double quote and the line feed *)
Definition dquote : string := String (Ascii.ascii_of_nat 34) EmptyString.
Definition newline : string := String (Ascii.ascii_of_nat 10) EmptyString.

(** [s] between double quotes, as the formats of [to_csv] put it *)
Definition quoted (s : string) : string :=
  String.append dquote (String.append s dquote).

(** ['{}'.format(n)] for an integer and for a length *)
Definition str_int (z : Z) : string := NilZero.string_of_int (Z.to_int z).
Definition str_len (n : nat) : string := NilZero.string_of_uint (Nat.to_uint n).

Definition BATCH_MAP : list string := [quoted "A"; quoted "B"; quoted "C"].
Definition MACHINE_MAP : list string := [quoted "1"; quoted "2"].
Definition SAMPLE_MAP : list string := ["1"; "2"; "3"; "4"; "5"].

(** [t[i]] on a tuple: a negative index counts from the end, an index
    outside the tuple raises [IndexError] *)
Definition tuple_getitem (t : list string) (i : Z) : result string :=
  let n := Z.of_nat (List.length t) in
  let j := if i <? 0 then i + n else i in
  if (0 <=? j) && (j <? n) then Ok (nth (Z.to_nat j) t EmptyString)
  else Raise IndexError.

(** a loop or comprehension whose body may raise: the first exception ends
    it *)
Fixpoint traverse {A B : Type} (f : A -> result B) (l : list A)
    : result (list B) :=
  match l with
  | [] => Ok []
  | x :: l' => y <- f x ;; ys <- traverse f l' ;; Ok (y :: ys)
  end.

(** ** class Build *)

Module Build.
Record t := mk {
  name : string;
  max_material : Dict.t Z;
  _parts : Dict.t (Dict.t Test.t);
  _print_time : Z;
  _print_materials : Dict.t Z;
  _batch : option Z;
  _machine : option Z;
  _first_part : bool
}.

(** [Build.__init__] *)
Definition init (name : string) (batch machine : option Z)
    (max_material : Dict.t Z) : t :=
  {| name := name; max_material := max_material;
     _parts := Dict.empty; _print_time := 0; _print_materials := Dict.empty;
     _batch := batch; _machine := machine; _first_part := true |}.

(** the default of [max_material] in [__init__] *)
Definition default_max_material : Dict.t Z := [("CFA", 50); ("OFA", 800)].

Definition set_batch (self : t) (b : option Z) : t :=
  {| name := name self; max_material := max_material self;
     _parts := _parts self; _print_time := _print_time self;
     _print_materials := _print_materials self;
     _batch := b; _machine := _machine self; _first_part := _first_part self |}.

Definition set_machine (self : t) (m : option Z) : t :=
  {| name := name self; max_material := max_material self;
     _parts := _parts self; _print_time := _print_time self;
     _print_materials := _print_materials self;
     _batch := _batch self; _machine := m; _first_part := _first_part self |}.

Definition set_first_part (self : t) (f : bool) : t :=
  {| name := name self; max_material := max_material self;
     _parts := _parts self; _print_time := _print_time self;
     _print_materials := _print_materials self;
     _batch := _batch self; _machine := _machine self; _first_part := f |}.

Definition set_parts (self : t) (ps : Dict.t (Dict.t Test.t)) : t :=
  {| name := name self; max_material := max_material self;
     _parts := ps; _print_time := _print_time self;
     _print_materials := _print_materials self;
     _batch := _batch self; _machine := _machine self;
     _first_part := _first_part self |}.

Definition set_accounts (self : t) (time : Z) (mats : Dict.t Z) : t :=
  {| name := name self; max_material := max_material self;
     _parts := _parts self; _print_time := time;
     _print_materials := mats;
     _batch := _batch self; _machine := _machine self;
     _first_part := _first_part self |}.

(** the properties *)
Definition batch (self : t) : option Z := _batch self.
Definition machine (self : t) : option Z := _machine self.
Definition print_materials (self : t) : Dict.t Z := _print_materials self.
Definition print_time (self : t) : Z := _print_time self.

Definition base_names (self : t) : list string :=
  map fst (filter (fun kv => negb (Nat.eqb (List.length (snd kv)) 0)) (_parts self)).

Definition parts (self : t) : list Test.t :=
  flat_map (fun kv => Dict.values (snd kv)) (_parts self).

(** [self._parts[base_name]], the empty group standing for an absent key
    where the caller has seeded it before *)
Definition group (self : t) (base_name : string) : Dict.t Test.t :=
  match Dict.get (_parts self) base_name with Some g => g | None => [] end.

(** the material check of [add_part]: the first key, in the part's order,
    whose check raises *)
Definition exceeded (self : t) (part : Test.t) (ignore_checks : bool)
    : option string :=
  option_map fst
    (find (fun kv =>
             (Dict.get0 (print_materials self) (fst kv) + snd kv
                >? Dict.get0 (max_material self) (fst kv))
             && negb ignore_checks)
          (Dict.items (Test.print_materials part))).

(** [try: d[key] += q  except KeyError: d[key] = q], for every key *)
Definition charge (mats : Dict.t Z) (req : Dict.t Z) : Dict.t Z :=
  fold_left (fun d kv =>
               match Dict.get d (fst kv) with
               | Some old => Dict.set d (fst kv) (old + snd kv)
               | None => Dict.set d (fst kv) (snd kv)
               end)
            (Dict.items req) mats.

(** [Build.add_part] *)
Definition add_part (self : t) (part : Test.t) (ignore_checks : bool)
    : t * result unit :=
  let self :=
    match _batch self with
    | None => set_batch self (Some (Test.batch part))
    | Some _ => self
    end in
  let self :=
    match _machine self with
    | None => set_machine self (Some (Test.machine part))
    | Some _ => self
    end in
  let (self, ignore_checks) :=
    if _first_part self then (set_first_part self false, true)
    else (self, ignore_checks) in
  if negb (option_Z_eqb (_batch self) (Some (Test.batch part)))
     && negb ignore_checks
  then (self, Raise BatchMismatch)
  else if negb (option_Z_eqb (_machine self) (Some (Test.machine part)))
          && negb ignore_checks
  then (self, Raise MachineMismatch)
  else
    let self :=
      match Dict.get (_parts self) (Test.base_name part) with
      | Some _ => self
      | None => set_parts self (Dict.set (_parts self) (Test.base_name part) Dict.empty)
      end in
    if Dict.mem (group self (Test.base_name part)) (Test.cnd part)
       && negb ignore_checks
    then (self, Raise DuplicatePart)
    else if Test.print_max_samples part =? 0
    then (self, Raise ZeroDivisionError)
    else
      let store (self : t) : t :=
        set_parts self
          (Dict.set (_parts self) (Test.base_name part)
             (Dict.set (group self (Test.base_name part)) (Test.cnd part) part)) in
      if Z.of_nat (List.length (group self (Test.base_name part)))
           mod Test.print_max_samples part =? 0
      then
        match exceeded self part ignore_checks with
        | Some key => (self, Raise (MaterialExceeded key))
        | None =>
            let self :=
              set_accounts self
                (_print_time self + Test.print_time part)
                (charge (_print_materials self) (Test.print_materials part)) in
            (store self, Ok tt)
        end
      else (store self, Ok tt).

(** ['{}-{}'.format(part.cnd, SAMPLE_MAP[part.sample])] *)
Definition sample_label (part : Test.t) : result string :=
  label <- tuple_getitem SAMPLE_MAP (Test.sample part) ;;
  Ok (String.append (Test.cnd part) (String.append "-" label)).

(** one line of [__repr__]: ['{}x {} ({})'.format(num_parts, base_name, cnds)] *)
Definition repr_line (kv : string * Dict.t Test.t) : result string :=
  cnds <- traverse sample_label (Dict.values (snd kv)) ;;
  Ok (String.append (str_len (List.length (snd kv)))
        (String.append "x "
           (String.append (fst kv)
              (String.append " ("
                 (String.append (String.concat "," cnds) ")"))))).

(** the [parts] local of [__repr__]: one line per base name of [_parts] *)
Definition listing (self : t) : result (list string) :=
  traverse repr_line (_parts self).

(** [Build.__repr__] *)
Definition __repr__ (self : t) : result string :=
  lines <- listing self ;;
  Ok (String.concat newline lines).

(** [Build.__str__] *)
Definition __str__ (self : t) : string := name self.
End Build.

(** ** Sorting: [sorted(..., reverse=True)] and [list.sort(reverse=True)]

    Both are stable: of two elements with equal keys the one that came first
    stays first, also with [reverse=True].  The insertion sort below is the
    stable descending sort; a stable sort has one possible result. *)

Section Sorting.
Variable A : Type.
Variable key : A -> Z.

Fixpoint insert_desc (x : A) (l : list A) : list A :=
  match l with
  | [] => [x]
  | y :: l' => if key x <? key y then y :: insert_desc x l' else x :: y :: l'
  end.

Fixpoint sort_desc (l : list A) : list A :=
  match l with
  | [] => []
  | x :: l' => insert_desc x (sort_desc l')
  end.
End Sorting.

(** ** The random source: [random.choice]

    The generator is an arbitrary stream of draws; [choice] takes the next
    draw modulo the length of the sequence. *)

Definition Rng := nat -> nat.

Definition choice (rnd : Rng) (l : list nat) : result (nat * Rng) :=
  match l with
  | [] => Raise IndexError
  | _ => Ok (nth (Nat.modulo (rnd O) (List.length l)) l O, fun n => rnd (S n))
  end.

(** [l.remove(x)]: drops the first occurrence, [ValueError] when there is none *)
Fixpoint list_remove (x : nat) (l : list nat) : result (list nat) :=
  match l with
  | [] => Raise ValueError
  | y :: l' =>
      if Nat.eqb y x then Ok l'
      else l'' <- list_remove x l' ;; Ok (y :: l'')
  end.

(** ** class BuildCollection *)

Module BuildCollection.

(** the keyword arguments handed to [Build(...)]; an absent keyword takes the
    default of [Build.__init__] *)
Record kwargs := mk_kwargs {
  kw_batch : option Z;
  kw_machine : option Z;
  kw_max_material : option (Dict.t Z)
}.

Record t := mk {
  builds : list Build.t;
  build_kwargs : kwargs;
  num_builds : Z
}.

(** ['B-{}'.format(i)] *)
Definition build_name (i : Z) : string :=
  String.append "B-" (NilZero.string_of_int (Z.to_int i)).

(** [Build('B-{}'.format(i), **build_kwargs)] *)
Definition new_build (i : Z) (kw : kwargs) : Build.t :=
  Build.init (build_name i) (kw_batch kw) (kw_machine kw)
    (match kw_max_material kw with
     | Some m => m
     | None => Build.default_max_material
     end).

(** [range(n)] *)
Definition range (n : Z) : list Z := map Z.of_nat (seq O (Z.to_nat n)).

(** [BuildCollection.__init__] *)
Definition init (num_builds : Z) (build_kwargs : kwargs) : t :=
  {| builds := map (fun i => new_build i build_kwargs) (range num_builds);
     build_kwargs := build_kwargs;
     num_builds := num_builds |}.

(** the Build a reference stands for *)
Definition build_at (self : t) (i : nat) : option Build.t :=
  nth_error (builds self) i.

(** [[build for build in refs if cond(build)]] *)
Definition keep (self : t) (cond : Build.t -> bool) (refs : list nat) : list nat :=
  filter (fun i => match build_at self i with
                   | Some b => cond b
                   | None => false
                   end) refs.

(** reading a local variable that no assignment has reached *)
Definition local {A} (v : option A) : result A :=
  match v with Some a => Ok a | None => Raise UnboundLocalError end.

(** [BuildCollection.filter_builds]; the local [builds] is bound by the
    [batch] step only *)
Definition filter_builds (self : t) (batch machine : option Z)
    (materials : Dict.t Z) (base_name : option string) : result (list nat) :=
  let builds_var : option (list nat) :=
    match batch with
    | Some b =>
        Some (keep self
                (fun build => option_Z_eqb (Build.batch build) (Some b)
                              || option_Z_eqb (Build.batch build) None)
                (seq O (List.length (builds self))))
    | None => None
    end in
  builds_var <-
    match machine with
    | Some m =>
        bs <- local builds_var ;;
        Ok (Some (keep self
                    (fun build => option_Z_eqb (Build.machine build) (Some m)
                                  || option_Z_eqb (Build.machine build) None)
                    bs))
    | None => Ok builds_var
    end ;;
  builds_var <-
    match base_name with
    | Some bn =>
        bs <- local builds_var ;;
        Ok (Some (keep self
                    (fun build => existsb (String.eqb bn) (Build.base_names build))
                    bs))
    | None =>
        fold_left
          (fun acc kv =>
             builds_var <- acc ;;
             bs <- local builds_var ;;
             Ok (Some (keep self
                         (fun build =>
                            Dict.get0 (Build.max_material build) (fst kv)
                              - Dict.get0 (Build.print_materials build) (fst kv)
                            >=? snd kv)
                         bs)))
          (Dict.items materials) (Ok builds_var)
    end ;;
  local builds_var.

(** [BuildCollection.spawn_build]: the collection and the reference to the
    new Build, [self.builds[-1]] *)
Definition spawn_build (self : t) : t * nat :=
  ({| builds := builds self ++ [new_build (num_builds self) (build_kwargs self)];
      build_kwargs := build_kwargs self;
      num_builds := num_builds self + 1 |},
   List.length (builds self)).

(** the effect of a method call on the Build behind a reference *)
Fixpoint update (l : list Build.t) (i : nat) (b : Build.t) : list Build.t :=
  match l, i with
  | [], _ => []
  | _ :: l', O => b :: l'
  | x :: l', S i' => x :: update l' i' b
  end.

Definition set_build (self : t) (i : nat) (b : Build.t) : t :=
  {| builds := update (builds self) i b;
     build_kwargs := build_kwargs self;
     num_builds := num_builds self |}.

(** the [while not part_assigned] loop of [assign_part]; [fuel] bounds the
    number of iterations, [None] is fuel exhausted.  [attempt] is the second
    [try] of the loop body; a reference always points into the collection,
    so its first branch is there for totality only. *)
Fixpoint assign_loop (fuel : nat) (self : t) (part : Test.t)
    (eligible_builds : list nat) (eligible_builds_lazy : option (list nat))
    (rnd : Rng) : option (t * Rng * result unit) :=
  match fuel with
  | O => None
  | S fuel =>
      let attempt (self : t) (expected_build : nat) (rnd : Rng) :=
        match build_at self expected_build with
        | None => Some (self, rnd, Raise IndexError)
        | Some b =>
            match Build.add_part b part false with
            | (b', Ok _) => Some (set_build self expected_build b', rnd, Ok tt)
            | (b', Raise (RuntimeError _)) =>
                match list_remove expected_build eligible_builds with
                | Ok rest =>
                    assign_loop fuel (set_build self expected_build b') part
                      rest eligible_builds_lazy rnd
                | Raise e => Some (set_build self expected_build b', rnd, Raise e)
                end
            | (b', Raise e) => Some (set_build self expected_build b', rnd, Raise e)
            end
        end in
      match choice rnd eligible_builds with
      | Ok (expected_build, rnd) => attempt self expected_build rnd
      | Raise _ =>
          match eligible_builds_lazy with
          | Some lazy => assign_loop fuel self part lazy None rnd
          | None =>
              let (self, expected_build) := spawn_build self in
              attempt self expected_build rnd
          end
      end
  end.

(** [BuildCollection.assign_part] *)
Definition assign_part (fuel : nat) (self : t) (part : Test.t) (rnd : Rng)
    : option (t * Rng * result unit) :=
  let eligible_builds_lazy :=
    filter_builds self (Some (Test.batch part)) (Some (Test.machine part))
      (Test.print_materials part) None in
  let eligible_builds :=
    filter_builds self (Some (Test.batch part)) (Some (Test.machine part))
      Dict.empty (Some (Test.base_name part)) in
  match eligible_builds_lazy, eligible_builds with
  | Raise e, _ => Some (self, rnd, Raise e)
  | _, Raise e => Some (self, rnd, Raise e)
  | Ok lazy, Ok eligible => assign_loop fuel self part eligible (Some lazy) rnd
  end.

(** [parts.sort(key=lambda x: x.print_materials[key], reverse=True)]: the
    key of every element is computed first, and the first element that
    lacks [key] raises [KeyError] with the list as it was *)
Definition sort_parts (key : string) (parts : list Test.t) : result (list Test.t) :=
  match find (fun x => negb (Dict.mem (Test.print_materials x) key)) parts with
  | Some _ => Raise (KeyError key)
  | None =>
      Ok (sort_desc (fun x => Dict.get0 (Test.print_materials x) key) parts)
  end.

(** the [max_material] local of [assign_parts]: the first Build's
    capacities, largest first *)
Definition ranked_materials (self : t) : result (Dict.t Z) :=
  match builds self with
  | [] => Raise IndexError
  | b0 :: _ =>
      Ok (Dict.of_items (sort_desc snd (Dict.items (Build.max_material b0))))
  end.

(** [for key in max_material: parts.sort(...)]: the list as the passes
    left it, and the outcome *)
Fixpoint sort_passes (keys : list string) (parts : list Test.t)
    : list Test.t * result unit :=
  match keys with
  | [] => (parts, Ok tt)
  | key :: keys' =>
      match sort_parts key parts with
      | Ok sorted => sort_passes keys' sorted
      | Raise e => (parts, Raise e)
      end
  end.

(** [for part in parts: self.assign_part(part)] *)
Fixpoint assign_each (fuel : nat) (self : t) (parts : list Test.t) (rnd : Rng)
    : option (t * Rng * result unit) :=
  match parts with
  | [] => Some (self, rnd, Ok tt)
  | part :: rest =>
      match assign_part fuel self part rnd with
      | None => None
      | Some (self, rnd, Ok _) => assign_each fuel self rest rnd
      | Some (self, rnd, Raise e) => Some (self, rnd, Raise e)
      end
  end.

(** [BuildCollection.assign_parts]: the collection, the caller's list as the
    sort left it, the generator and the outcome *)
Definition assign_parts (fuel : nat) (self : t) (parts : list Test.t) (rnd : Rng)
    : option (t * list Test.t * Rng * result unit) :=
  match ranked_materials self with
  | Raise e => Some (self, parts, rnd, Raise e)
  | Ok max_material =>
      match sort_passes (Dict.keys max_material) parts with
      | (parts, Raise e) => Some (self, parts, rnd, Raise e)
      | (parts, Ok _) =>
          match assign_each fuel self parts rnd with
          | None => None
          | Some (self, rnd, r) => Some (self, parts, rnd, r)
          end
      end
  end.

(** every part held by some Build of the collection *)
Definition all_parts (self : t) : list Test.t :=
  flat_map Build.parts (builds self).

(** the outcomes of the output layer: it can also raise [TypeError] *)
Inductive written (A : Type) :=
| Written (a : A)
| Failed (e : exn)
| FailedTypeError.
Arguments Written {A} a.
Arguments Failed {A} e.
Arguments FailedTypeError {A}.

Definition lift {A} (r : result A) : written A :=
  match r with Ok a => Written a | Raise e => Failed e end.

Definition bind_written {A B} (w : written A) (k : A -> written B) : written B :=
  match w with
  | Written a => k a
  | Failed e => Failed e
  | FailedTypeError => FailedTypeError
  end.

(** [BATCH_MAP[build.batch]]: indexing by [None] raises [TypeError] *)
Definition tuple_getitem_opt (t : list string) (i : option Z) : written string :=
  match i with
  | Some z => lift (tuple_getitem t z)
  | None => FailedTypeError
  end.

(** [(k1, v1) < (k2, v2)] on tuples of a string and an integer *)
Definition item_ltb (a b : string * Z) : bool :=
  match String.compare (fst a) (fst b) with
  | Lt => true
  | Eq => snd a <? snd b
  | Gt => false
  end.

(** [sorted(items)]: ascending and stable *)
Fixpoint insert_item (x : string * Z) (l : list (string * Z)) : list (string * Z) :=
  match l with
  | [] => [x]
  | y :: l' => if item_ltb y x then y :: insert_item x l' else x :: y :: l'
  end.

Fixpoint sorted_items (l : list (string * Z)) : list (string * Z) :=
  match l with
  | [] => []
  | x :: l' => insert_item x (sorted_items l')
  end.

(** one row of [to_csv]: the fields are computed from left to right *)
Definition csv_row (build : Build.t) : written string :=
  bind_written (lift (Build.__repr__ build)) (fun listing =>
  bind_written (tuple_getitem_opt BATCH_MAP (Build.batch build)) (fun batch =>
  bind_written (tuple_getitem_opt MACHINE_MAP (Build.machine build)) (fun machine =>
  Written
    (String.concat ","
       ([quoted (Build.__str__ build); quoted listing; batch; machine;
         quoted (str_int (Build.print_time build))]
        ++ map (fun mat => quoted (str_int mat))
             (Dict.values
                (Dict.of_items
                   (sorted_items (Dict.items (Build.print_materials build)))))))))).

Fixpoint csv_rows (builds : list Build.t) : written (list string) :=
  match builds with
  | [] => Written []
  | build :: rest =>
      bind_written (csv_row build) (fun row =>
      bind_written (csv_rows rest) (fun rows => Written (row :: rows)))
  end.

(** [BuildCollection.to_csv]: the text written to the file; the file is
    opened once every row is there, so a call that raises writes nothing *)
Definition to_csv (self : t) : written string :=
  bind_written (csv_rows (builds self)) (fun part_list =>
  Written (String.concat newline part_list)).
End BuildCollection.

(** ** Vocabulary of the properties *)

(** The stages [add_part] runs through, named so that its case analysis can
    be stated ([add_part_stages] below relates them to [Build.add_part]). *)
Module Stage.
(** the one-time writes at the top of [add_part] *)
Definition adopt (self : Build.t) (part : Test.t) : Build.t :=
  let self :=
    match Build._batch self with
    | None => Build.set_batch self (Some (Test.batch part))
    | Some _ => self
    end in
  let self :=
    match Build._machine self with
    | None => Build.set_machine self (Some (Test.machine part))
    | Some _ => self
    end in
  if Build._first_part self then Build.set_first_part self false else self.

(** the value of [ignore_checks] once the first-part rule has applied *)
Definition forced (self : Build.t) (ignore_checks : bool) : bool :=
  if Build._first_part self then true else ignore_checks.

(** "Seed the internal part list" *)
Definition seed (self : Build.t) (part : Test.t) : Build.t :=
  match Dict.get (Build._parts self) (Test.base_name part) with
  | Some _ => self
  | None =>
      Build.set_parts self
        (Dict.set (Build._parts self) (Test.base_name part) Dict.empty)
  end.

(** the time and material accounting of a new print group *)
Definition account (self : Build.t) (part : Test.t) : Build.t :=
  Build.set_accounts self
    (Build._print_time self + Test.print_time part)
    (Build.charge (Build._print_materials self) (Test.print_materials part)).

(** [self._parts[part.base_name].update({part.cnd: part})] *)
Definition store (self : Build.t) (part : Test.t) : Build.t :=
  Build.set_parts self
    (Dict.set (Build._parts self) (Test.base_name part)
       (Dict.set (Build.group self (Test.base_name part)) (Test.cnd part) part)).

(** [len(self._parts[part.base_name]) % part.print_max_samples == 0] *)
Definition opens_group (self : Build.t) (part : Test.t) : bool :=
  Z.of_nat (List.length (Build.group self (Test.base_name part)))
    mod Test.print_max_samples part =? 0.
End Stage.

(** The Builds the program can construct: [Build(...)] followed by any
    number of [add_part] calls, whatever their outcome. *)
Inductive reachable : Build.t -> Prop :=
| reachable_init name batch machine max_material :
    reachable (Build.init name batch machine max_material)
| reachable_add_part self part ignore_checks :
    reachable self ->
    reachable (fst (Build.add_part self part ignore_checks)).

(** [print_materials[m] <= max_material[m]] for every material, an absent
    key counting for 0 on either side *)
Definition within_capacity (self : Build.t) : Prop :=
  forall m, Dict.get0 (Build.print_materials self) m
            <= Dict.get0 (Build.max_material self) m.

(** the states a Build goes through under a sequence of [add_part] calls
    made with [ignore_checks=False], failed calls included *)
Fixpoint states (self : Build.t) (parts : list Test.t) : list Build.t :=
  match parts with
  | [] => []
  | part :: rest =>
      let self' := fst (Build.add_part self part false) in
      self' :: states self' rest
  end.

(** consecutive [add_part] calls that all return normally; [None] as soon
    as one raises *)
Fixpoint add_all (self : Build.t) (calls : list (Test.t * bool)) : option Build.t :=
  match calls with
  | [] => Some self
  | (part, ignore_checks) :: rest =>
      match Build.add_part self part ignore_checks with
      | (self', Ok _) => add_all self' rest
      | (_, Raise _) => None
      end
  end.

(** Invariants of a Build. [filed]: the stored parts sit under their own
    base name and condition, with no key repeated; [settled]: past the first
    part, batch and machine are set; [untouched]: before the first part,
    nothing is stored. *)
Definition filed (self : Build.t) : Prop :=
  Dict.wf (Build._parts self)
  /\ forall bn g, In (bn, g) (Build._parts self) ->
       Dict.wf g
       /\ forall c q, In (c, q) g -> Test.base_name q = bn /\ Test.cnd q = c.

Definition settled (self : Build.t) : Prop :=
  Build._first_part self = false ->
  Build._batch self <> None /\ Build._machine self <> None.

Definition untouched (self : Build.t) : Prop :=
  Build._first_part self = true -> Build._parts self = [].

(** the observable state: everything but the internal mapping of groups *)
Definition same_accounts (s self : Build.t) : Prop :=
  Build.name s = Build.name self
  /\ Build.max_material s = Build.max_material self
  /\ Build._batch s = Build._batch self
  /\ Build._machine s = Build._machine self
  /\ Build._first_part s = Build._first_part self
  /\ Build._print_time s = Build._print_time self
  /\ Build._print_materials s = Build._print_materials self
  /\ Build.parts s = Build.parts self
  /\ Build.base_names s = Build.base_names self.

(** the calls add parts of one base name [bn] and group size [k] ... *)
Definition same_kind (bn : string) (k : Z) (calls : list (Test.t * bool)) : Prop :=
  Forall (fun c => Test.base_name (fst c) = bn
                   /\ Test.print_max_samples (fst c) = k) calls.

(** ... under conditions that are pairwise distinct and new to the Build *)
Definition fresh_conditions (bn : string) (self : Build.t)
    (calls : list (Test.t * bool)) : Prop :=
  NoDup (map (fun c => Test.cnd (fst c)) calls)
  /\ forall c, In c calls ->
       ~ In (Test.cnd (fst c)) (Dict.keys (Build.group self bn)).

(** what a forced addition does to a stored part filed under the same pair *)
Definition replace_slot (part q : Test.t) : Test.t :=
  if String.eqb (Test.base_name q) (Test.base_name part)
     && String.eqb (Test.cnd q) (Test.cnd part)
  then part else q.

(** the steps of [filter_builds], as conditions on one Build *)
Definition batch_step (batch : Z) (build : Build.t) : bool :=
  option_Z_eqb (Build.batch build) (Some batch)
  || option_Z_eqb (Build.batch build) None.

Definition machine_step (machine : option Z) (build : Build.t) : bool :=
  match machine with
  | Some m => option_Z_eqb (Build.machine build) (Some m)
              || option_Z_eqb (Build.machine build) None
  | None => true
  end.

(** the Build holds at least one part of that base name *)
Definition holds_base_name (bn : string) (build : Build.t) : bool :=
  existsb (fun part => String.eqb (Test.base_name part) bn) (Build.parts build).

(** the quantity a part requires of a material *)
Definition quantity (key : string) (part : Test.t) : Z :=
  Dict.get0 (Test.print_materials part) key.

(** [x] comes before [y] in the order that sorts by the first key, largest
    first, breaks ties by the next key, and so on, and leaves elements that
    agree on every key in the order [tie] *)
Fixpoint lex_desc {A : Type} (keys : list (A -> Z)) (tie : A -> A -> Prop)
    (x y : A) : Prop :=
  match keys with
  | [] => tie x y
  | key :: keys' => key y < key x \/ (key x = key y /\ lex_desc keys' tie x y)
  end.

(** the order a pass by [key] produces from a list ordered by [tie] *)
Definition pass_order {A : Type} (key : A -> Z) (tie : A -> A -> Prop)
    (x y : A) : Prop :=
  key y < key x \/ (key x = key y /\ tie x y).

(** [assign_part] has placed [part]: the collection holds it next to what it
    held, has at most one Build more, and no Build past its first part
    looks new *)
Definition placed (part : Test.t) (self self' : BuildCollection.t) : Prop :=
  Permutation (BuildCollection.all_parts self')
              (part :: BuildCollection.all_parts self)
  /\ Forall untouched (BuildCollection.builds self')
  /\ (List.length (BuildCollection.builds self)
      <= List.length (BuildCollection.builds self')
      <= S (List.length (BuildCollection.builds self)))%nat.

(** the references of a list all point into the collection *)
Definition valid_refs (self : BuildCollection.t) (refs : list nat) : Prop :=
  Forall (fun i => (i < List.length (BuildCollection.builds self))%nat) refs.

(** the iterations the loop of [assign_part] can still make *)
Definition attempts_left (eligible : list nat) (lazy : option (list nat)) : nat :=
  List.length eligible
  + match lazy with Some l => S (List.length l) | None => O end.

(** the pair a stored part is filed under *)
Definition slot (part : Test.t) : string * string :=
  (Test.base_name part, Test.cnd part).

Definition slot_eqb (a b : string * string) : bool :=
  String.eqb (fst a) (fst b) && String.eqb (snd a) (snd b).

(** ** Vocabulary of the collection invariants *)

(** every part stored in the Build has the Build's batch and machine *)
Definition affine (build : Build.t) : Prop :=
  forall part, In part (Build.parts build) ->
    Build.batch build = Some (Test.batch part)
    /\ Build.machine build = Some (Test.machine part).

(** a Build that has its batch and machine from its parts only: none before
    the first part, both after *)
Definition affinity_kept_build (build : Build.t) : Prop :=
  settled build
  /\ (Build._first_part build = true ->
      Build._batch build = None /\ Build._machine build = None
      /\ Build._parts build = [])
  /\ affine build.

(** a collection that creates its Builds without batch or machine, all of
    them as above *)
Definition affinity_kept (self : BuildCollection.t) : Prop :=
  BuildCollection.kw_batch (BuildCollection.build_kwargs self) = None
  /\ BuildCollection.kw_machine (BuildCollection.build_kwargs self) = None
  /\ Forall affinity_kept_build (BuildCollection.builds self).

(** the capacities a collection gives the Builds it creates *)
Definition template (self : BuildCollection.t) : Dict.t Z :=
  match BuildCollection.kw_max_material (BuildCollection.build_kwargs self) with
  | Some m => m
  | None => Build.default_max_material
  end.

(** the part alone fits in a Build of these capacities *)
Definition fits (max_material : Dict.t Z) (part : Test.t) : Prop :=
  Dict.wf (Test.print_materials part)
  /\ forall key q, In (key, q) (Test.print_materials part) ->
       q <= Dict.get0 max_material key.

(** a collection whose Builds all have the template capacities, none of
    them negative, and stay within them *)
Definition capacity_kept (self : BuildCollection.t) : Prop :=
  (forall m, 0 <= Dict.get0 (template self) m)
  /\ Forall (fun build =>
               Build.max_material build = template self
               /\ within_capacity build
               /\ (Build._first_part build = true ->
                   Build._print_materials build = []))
            (BuildCollection.builds self).

(** a collection whose Builds have distinct names, all numbered below the
    next number to give out *)
Definition names_fresh (self : BuildCollection.t) : Prop :=
  NoDup (map Build.name (BuildCollection.builds self))
  /\ Forall (fun build =>
               exists i, Build.name build = BuildCollection.build_name i
                         /\ i < BuildCollection.num_builds self)
            (BuildCollection.builds self).

(** [build'] is [build] after some [add_part] calls, whatever their outcome *)
Inductive evolves (build : Build.t) : Build.t -> Prop :=
| evolves_refl : evolves build build
| evolves_add_part build' part ignore_checks :
    evolves build build' ->
    evolves build (fst (Build.add_part build' part ignore_checks)).

(** [self'] holds the Builds of [self], each in its place and after some
    [add_part] calls, followed by Builds spawned from the template, and has
    counted the Builds it spawned *)
Definition grown_from (self self' : BuildCollection.t) : Prop :=
  BuildCollection.build_kwargs self' = BuildCollection.build_kwargs self
  /\ exists olds news,
       BuildCollection.builds self' = olds ++ news
       /\ Forall2 evolves (BuildCollection.builds self) olds
       /\ Forall (fun build =>
                    exists i,
                      evolves (BuildCollection.new_build i
                                 (BuildCollection.build_kwargs self)) build)
                 news
       /\ BuildCollection.num_builds self'
          = BuildCollection.num_builds self + Z.of_nat (List.length news).

(** the sample index selects one of the five labels of [SAMPLE_MAP] *)
Definition sample_in_range (part : Test.t) : Prop := -5 <= Test.sample part < 5.

(** [to_csv] can write the row of the Build *)
Definition csv_ready (build : Build.t) : Prop :=
  Forall sample_in_range (Build.parts build)
  /\ (exists b, Build.batch build = Some b /\ -3 <= b < 3)
  /\ (exists m, Build.machine build = Some m /\ -2 <= m < 2).

(** the Build behind the reference refuses the part with a [RuntimeError],
    the failure [assign_part] catches *)
Definition refuses (self : BuildCollection.t) (part : Test.t) (i : nat) : Prop :=
  exists build msg,
    BuildCollection.build_at self i = Some build
    /\ snd (Build.add_part build part false) = Raise (RuntimeError msg).

(** ** A worked scenario

    One Build with the default capacities, and parts of two test types. *)
Module Scenario.
Definition part (base_name cnd : string) (batch machine : Z)
    (materials : Dict.t Z) (max_samples : Z) : Test.t :=
  {| Test.name := String.append base_name (String.append "-" cnd);
     Test.base_name := base_name; Test.cnd := cnd;
     Test.batch := batch; Test.machine := machine; Test.sample := 0;
     Test.print_time := 3600; Test.print_materials := materials;
     Test.print_max_samples := max_samples |}.

Definition empty_build : Build.t :=
  Build.init "B-0" None None Build.default_max_material.

(** fits a fresh Build *)
Definition part_A : Test.t := part "D6641" "RTD" 0 0 [("CFA", 10)] 1.
(** same test type, another condition; does not fit next to [part_A] *)
Definition part_C : Test.t := part "D6641" "ETW" 0 0 [("CFA", 45)] 1.
(** another test type; does not fit next to [part_A] either *)
Definition part_D : Test.t := part "D256" "RTD" 0 0 [("CFA", 45)] 1.
(** larger than a whole Build *)
Definition part_XL : Test.t := part "D6641" "RTD" 0 0 [("CFA", 60)] 1.
(** of another batch and machine *)
Definition part_B1 : Test.t := part "D6641" "CTD" 1 1 [("CFA", 5)] 1.
(** uses a material no Build lists *)
Definition part_N : Test.t := part "D695" "RTD" 0 0 [("NYL", 1)] 1.
(** [part_A] again, as another sample with a longer print *)
Definition part_A' : Test.t :=
  {| Test.name := "D6641-RTD-S1"; Test.base_name := "D6641"; Test.cnd := "RTD";
     Test.batch := 0; Test.machine := 0; Test.sample := 1;
     Test.print_time := 7200; Test.print_materials := [("CFA", 12)];
     Test.print_max_samples := 1 |}.
(** parts that quantify both materials *)
Definition part_E : Test.t := part "D3039" "RTD" 0 0 [("CFA", 10); ("OFA", 5)] 1.
Definition part_F : Test.t := part "D3039" "ETW" 0 0 [("CFA", 45); ("OFA", 7)] 1.
(** a part whose group size is zero *)
Definition part_Z : Test.t := part "D3039" "CTD" 0 0 [("CFA", 1); ("OFA", 1)] 0.
(** four conditions that share print groups of two *)
Definition pair_part (cnd : string) (time : Z) : Test.t :=
  {| Test.name := String.append "D790-" cnd; Test.base_name := "D790";
     Test.cnd := cnd; Test.batch := 0; Test.machine := 0; Test.sample := 0;
     Test.print_time := time; Test.print_materials := [("OFA", time)];
     Test.print_max_samples := 2 |}.

Definition pair_calls : list (Test.t * bool) :=
  [(pair_part "RTD" 100, false); (pair_part "ETW" 200, false);
   (pair_part "CTD" 300, false); (pair_part "ETD" 400, false)].

(** the Build once [part_A] is in *)
Definition build_A : Build.t := fst (Build.add_part empty_build part_A false).

(** a Build created with its batch and machine already set *)
Definition preset_build : Build.t :=
  Build.init "B-0" (Some 0) (Some 0) Build.default_max_material.

(** the empty Build once the four [pair_calls] have returned *)
Definition pair_build : Build.t :=
  Eval vm_compute in
    match add_all empty_build pair_calls with
    | Some s => s
    | None => empty_build
    end.

Definition no_kwargs : BuildCollection.kwargs :=
  BuildCollection.mk_kwargs None None None.

Definition collection : BuildCollection.t := BuildCollection.init 1 no_kwargs.
Definition empty_collection : BuildCollection.t := BuildCollection.init 0 no_kwargs.

(** of another batch and machine, quantifying both materials *)
Definition part_G : Test.t := part "D3039" "CTD" 1 1 [("CFA", 5); ("OFA", 3)] 1.
(** [part_N] in another batch *)
Definition part_N1 : Test.t := part "D695" "RTD" 1 0 [("NYL", 1)] 1.
(** a part that gives material back *)
Definition part_credit : Test.t := part "D695" "CTD" 0 0 [("NYL", -5)] 1.
(** [part_A]'s base name and condition, with a group size of zero *)
Definition part_A0 : Test.t := part "D6641" "RTD" 0 0 [("CFA", 1)] 0.

(** the Build once [part_N], respectively [part_credit], is in: the first
    call on a Build checks nothing *)
Definition build_N : Build.t := fst (Build.add_part empty_build part_N false).
Definition build_credit : Build.t :=
  fst (Build.add_part empty_build part_credit false).
End Scenario.

(** * Properties *)

Unset Implicit Arguments.

(** ** Facts about dictionaries *)

Section DictFacts.
Variable V : Type.
Implicit Types (d : Dict.t V) (k : string) (v : V).

Lemma dict_get_set_same d k v : Dict.get (Dict.set d k v) k = Some v.
Proof.
  induction d as [|[k' v'] d IH]; simpl.
  - now rewrite String.eqb_refl.
  - destruct (String.eqb k' k) eqn:E; simpl; rewrite E; auto.
Qed.

Lemma dict_get_set_other d k k' v :
  k <> k' -> Dict.get (Dict.set d k v) k' = Dict.get d k'.
Proof.
  intros Hne. induction d as [|[k0 v0] d IH]; simpl.
  - destruct (String.eqb_spec k k'); congruence.
  - destruct (String.eqb_spec k0 k) as [->|Hk]; simpl.
    + destruct (String.eqb_spec k k'); congruence.
    + now rewrite IH.
Qed.

Lemma dict_get_None d k : Dict.get d k = None <-> ~ In k (Dict.keys d).
Proof.
  induction d as [|[k' v'] d IH]; simpl.
  - tauto.
  - destruct (String.eqb_spec k' k) as [->|Hk].
    + split; [discriminate | tauto].
    + rewrite IH. tauto.
Qed.

Lemma dict_get_In d k v : Dict.get d k = Some v -> In (k, v) d.
Proof.
  induction d as [|[k' v'] d IH]; simpl; [discriminate|].
  destruct (String.eqb_spec k' k) as [->|Hk]; intros H.
  - left. congruence.
  - right. auto.
Qed.

Lemma dict_In_get d k v : Dict.wf d -> In (k, v) d -> Dict.get d k = Some v.
Proof.
  unfold Dict.wf. induction d as [|[k' v'] d IH]; simpl; [tauto|].
  intros Hnd [Heq|Hin]; inversion Hnd as [|? ? Hnotin Hnd']; subst.
  - inversion Heq; subst. now rewrite String.eqb_refl.
  - destruct (String.eqb_spec k' k) as [->|Hk].
    + exfalso. apply Hnotin. change (In (fst (k, v)) (map fst d)).
      now apply in_map.
    + auto.
Qed.

Lemma dict_set_fresh d k v :
  Dict.get d k = None -> Dict.set d k v = d ++ [(k, v)].
Proof.
  induction d as [|[k' v'] d IH]; simpl; [reflexivity|].
  destruct (String.eqb k' k); [discriminate|].
  intros H. now rewrite IH.
Qed.

Lemma dict_set_present d k v0 v :
  Dict.get d k = Some v0 ->
  exists l1 l2, d = l1 ++ (k, v0) :: l2
                /\ Dict.set d k v = l1 ++ (k, v) :: l2
                /\ Dict.get l1 k = None.
Proof.
  induction d as [|[k' v'] d IH]; simpl; [discriminate|].
  destruct (String.eqb_spec k' k) as [->|Hk]; intros H.
  - inversion H; subst. exists [], d. auto.
  - destruct (IH H) as (l1 & l2 & -> & Hs & Hg).
    exists ((k', v') :: l1), l2. simpl. rewrite Hs.
    destruct (String.eqb_spec k' k); [contradiction|]. auto.
Qed.

Lemma dict_keys_set_present d k v0 v :
  Dict.get d k = Some v0 -> Dict.keys (Dict.set d k v) = Dict.keys d.
Proof.
  intros H. destruct (dict_set_present d k v0 v H) as (l1 & l2 & -> & -> & _).
  unfold Dict.keys. now rewrite !map_app.
Qed.

Lemma dict_keys_set d k v :
  forall k', In k' (Dict.keys (Dict.set d k v)) <-> k' = k \/ In k' (Dict.keys d).
Proof.
  intros k'. destruct (Dict.get d k) as [v0|] eqn:E.
  - rewrite (dict_keys_set_present d k v0 v E). split; [tauto|].
    intros [->|H]; auto.
    apply dict_get_In in E. change k with (fst (k, v0)). now apply in_map.
  - rewrite (dict_set_fresh d k v E). unfold Dict.keys.
    rewrite map_app, in_app_iff. simpl. intuition.
Qed.

Lemma dict_wf_set d k v : Dict.wf d -> Dict.wf (Dict.set d k v).
Proof.
  unfold Dict.wf. intros Hwf. destruct (Dict.get d k) as [v0|] eqn:E.
  - now rewrite (dict_keys_set_present d k v0 v E).
  - rewrite (dict_set_fresh d k v E). unfold Dict.keys.
    rewrite map_app. simpl.
    apply NoDup_app_remove_l with (l := []). simpl.
    apply Permutation_NoDup with (l := k :: map fst d).
    + apply Permutation_cons_append.
    + constructor; auto. now apply dict_get_None.
Qed.

Lemma dict_length_set_fresh d k v :
  Dict.get d k = None ->
  List.length (Dict.set d k v) = S (List.length d).
Proof.
  intros H. rewrite (dict_set_fresh d k v H), length_app. simpl. lia.
Qed.

Lemma dict_length_set_present d k v0 v :
  Dict.get d k = Some v0 ->
  List.length (Dict.set d k v) = List.length d.
Proof.
  intros H. destruct (dict_set_present d k v0 v H) as (l1 & l2 & -> & -> & _).
  rewrite !length_app. reflexivity.
Qed.

Lemma dict_mem_true d k : Dict.mem d k = true <-> In k (Dict.keys d).
Proof.
  unfold Dict.mem. destruct (Dict.get d k) eqn:E.
  - split; auto. intros _. apply dict_get_In in E.
    change k with (fst (k, v)). now apply in_map.
  - apply dict_get_None in E. split; [discriminate | contradiction].
Qed.
End DictFacts.

Lemma dict_get0_set_same (d : Dict.t Z) k v : Dict.get0 (Dict.set d k v) k = v.
Proof. unfold Dict.get0. now rewrite dict_get_set_same. Qed.

Lemma dict_get0_set_other (d : Dict.t Z) k k' v :
  k <> k' -> Dict.get0 (Dict.set d k v) k' = Dict.get0 d k'.
Proof. intros H. unfold Dict.get0. now rewrite dict_get_set_other. Qed.

Lemma dict_get0_absent (d : Dict.t Z) k :
  ~ In k (Dict.keys d) -> Dict.get0 d k = 0.
Proof.
  intros H. apply dict_get_None in H. unfold Dict.get0. now rewrite H.
Qed.

(** ** The stages of [add_part] *)

Lemma add_part_stages self part ignore_checks :
  Build.add_part self part ignore_checks =
  let ign := Stage.forced self ignore_checks in
  let s1 := Stage.adopt self part in
  if negb (option_Z_eqb (Build._batch s1) (Some (Test.batch part))) && negb ign
  then (s1, Raise BatchMismatch)
  else if negb (option_Z_eqb (Build._machine s1) (Some (Test.machine part)))
          && negb ign
  then (s1, Raise MachineMismatch)
  else
    let s2 := Stage.seed s1 part in
    if Dict.mem (Build.group s2 (Test.base_name part)) (Test.cnd part) && negb ign
    then (s2, Raise DuplicatePart)
    else if Test.print_max_samples part =? 0
    then (s2, Raise ZeroDivisionError)
    else if Stage.opens_group s2 part
    then match Build.exceeded s2 part ign with
         | Some key => (s2, Raise (MaterialExceeded key))
         | None => (Stage.store (Stage.account s2 part) part, Ok tt)
         end
    else (Stage.store s2 part, Ok tt).
Proof.
  unfold Build.add_part, Stage.forced, Stage.adopt.
  destruct (Build._batch self) eqn:Hb;
    cbn [Build.set_batch Build._machine];
    destruct (Build._machine self) eqn:Hm;
    cbn [Build.set_batch Build.set_machine Build._first_part];
    destruct (Build._first_part self) eqn:Hf; reflexivity.
Qed.

Lemma option_Z_eqb_eq a b : option_Z_eqb a b = true <-> a = b.
Proof.
  destruct a, b; simpl; try (split; congruence).
  rewrite Z.eqb_eq. split; congruence.
Qed.

Lemma exceeded_forced self part : Build.exceeded self part true = None.
Proof.
  unfold Build.exceeded.
  induction (Dict.items (Test.print_materials part)) as [|kv l IH]; simpl; auto.
  now rewrite andb_false_r.
Qed.

(** [add_part], one outcome at a time. *)
Lemma add_part_cases self part ignore_checks (P : Build.t * result unit -> Prop) :
  let ign := Stage.forced self ignore_checks in
  let s1 := Stage.adopt self part in
  let s2 := Stage.seed s1 part in
  let unchecked :=
    ign = false ->
    Build._batch s1 = Some (Test.batch part)
    /\ Build._machine s1 = Some (Test.machine part)
    /\ ~ In (Test.cnd part) (Dict.keys (Build.group s2 (Test.base_name part))) in
  (ign = false -> Build._batch s1 <> Some (Test.batch part) ->
   P (s1, Raise BatchMismatch)) ->
  (ign = false -> Build._batch s1 = Some (Test.batch part) ->
   Build._machine s1 <> Some (Test.machine part) ->
   P (s1, Raise MachineMismatch)) ->
  (ign = false -> Build._batch s1 = Some (Test.batch part) ->
   Build._machine s1 = Some (Test.machine part) ->
   In (Test.cnd part) (Dict.keys (Build.group s2 (Test.base_name part))) ->
   P (s2, Raise DuplicatePart)) ->
  (unchecked -> Test.print_max_samples part = 0 ->
   P (s2, Raise ZeroDivisionError)) ->
  (forall key, ign = false -> unchecked -> Test.print_max_samples part <> 0 ->
   Stage.opens_group s2 part = true ->
   Build.exceeded s2 part false = Some key ->
   P (s2, Raise (MaterialExceeded key))) ->
  (unchecked -> Test.print_max_samples part <> 0 ->
   Stage.opens_group s2 part = true ->
   Build.exceeded s2 part ign = None ->
   P (Stage.store (Stage.account s2 part) part, Ok tt)) ->
  (unchecked -> Test.print_max_samples part <> 0 ->
   Stage.opens_group s2 part = false ->
   P (Stage.store s2 part, Ok tt)) ->
  P (Build.add_part self part ignore_checks).
Proof.
  intros ign s1 s2 unchecked HB HM HD HZ HX HC HS.
  rewrite add_part_stages. fold ign s1. cbv zeta. fold s2.
  destruct ign eqn:Ei.
  - assert (Hu : unchecked) by (intros Hc; discriminate Hc).
    rewrite !andb_false_r.
    destruct (Z.eqb_spec (Test.print_max_samples part) 0) as [Ek|Ek].
    + now apply HZ.
    + destruct (Stage.opens_group s2 part) eqn:Eo; [|now apply HS].
      rewrite exceeded_forced. apply HC; auto. apply exceeded_forced.
  - rewrite !andb_true_r.
    destruct (option_Z_eqb (Build._batch s1) (Some (Test.batch part))) eqn:Eb;
      simpl.
    2:{ apply HB; auto. intros Hc. apply option_Z_eqb_eq in Hc. congruence. }
    apply option_Z_eqb_eq in Eb.
    destruct (option_Z_eqb (Build._machine s1) (Some (Test.machine part))) eqn:Em;
      simpl.
    2:{ apply HM; auto. intros Hc. apply option_Z_eqb_eq in Hc. congruence. }
    apply option_Z_eqb_eq in Em.
    destruct (Dict.mem (Build.group s2 (Test.base_name part)) (Test.cnd part))
      eqn:Ed.
    { apply HD; auto. now apply dict_mem_true. }
    assert (Hu : unchecked).
    { intros _. repeat split; auto. intros Hc. apply dict_mem_true in Hc.
      congruence. }
    destruct (Z.eqb_spec (Test.print_max_samples part) 0) as [Ek|Ek].
    + now apply HZ.
    + destruct (Stage.opens_group s2 part) eqn:Eo; [|now apply HS].
      destruct (Build.exceeded s2 part false) eqn:Ex.
      * now apply HX.
      * now apply HC.
Qed.

(** ** What each stage touches *)

Lemma adopt_fields self part :
  let s := Stage.adopt self part in
  Build.name s = Build.name self
  /\ Build.max_material s = Build.max_material self
  /\ Build._parts s = Build._parts self
  /\ Build._print_time s = Build._print_time self
  /\ Build._print_materials s = Build._print_materials self
  /\ Build._first_part s = false
  /\ Build._batch s = match Build._batch self with
                      | None => Some (Test.batch part)
                      | Some b => Some b
                      end
  /\ Build._machine s = match Build._machine self with
                        | None => Some (Test.machine part)
                        | Some m => Some m
                        end.
Proof.
  unfold Stage.adopt.
  destruct self as [n mm ps pt pm [b|] [m|] [|]]; simpl; repeat split.
Qed.

Lemma adopt_settled self part :
  Build._first_part self = false ->
  Build._batch self <> None -> Build._machine self <> None ->
  Stage.adopt self part = self.
Proof.
  unfold Stage.adopt.
  destruct self as [n mm ps pt pm [b|] [m|] [|]]; simpl; congruence.
Qed.

Lemma seed_fields self part :
  let s := Stage.seed self part in
  Build.name s = Build.name self
  /\ Build.max_material s = Build.max_material self
  /\ Build._print_time s = Build._print_time self
  /\ Build._print_materials s = Build._print_materials self
  /\ Build._first_part s = Build._first_part self
  /\ Build._batch s = Build._batch self
  /\ Build._machine s = Build._machine self.
Proof.
  unfold Stage.seed.
  destruct (Dict.get (Build._parts self) (Test.base_name part)); simpl;
    repeat split.
Qed.

(** Seeding leaves the mapping alone or appends one empty group. *)
Lemma seed_parts self part :
  (Dict.get (Build._parts self) (Test.base_name part) <> None
   /\ Stage.seed self part = self)
  \/ (Dict.get (Build._parts self) (Test.base_name part) = None
      /\ Build._parts (Stage.seed self part)
         = Build._parts self ++ [(Test.base_name part, [])]).
Proof.
  unfold Stage.seed.
  destruct (Dict.get (Build._parts self) (Test.base_name part)) eqn:E.
  - left. split; [discriminate | reflexivity].
  - right. split; auto. simpl. now apply dict_set_fresh.
Qed.

Lemma seed_get self part :
  Dict.get (Build._parts (Stage.seed self part)) (Test.base_name part)
  = Some (Build.group self (Test.base_name part)).
Proof.
  unfold Stage.seed, Build.group.
  destruct (Dict.get (Build._parts self) (Test.base_name part)) eqn:E; auto.
  simpl. apply dict_get_set_same.
Qed.

Lemma seed_group self part bn :
  Build.group (Stage.seed self part) bn = Build.group self bn.
Proof.
  unfold Build.group at 1.
  destruct (String.eqb_spec (Test.base_name part) bn) as [<-|Hne].
  - now rewrite seed_get.
  - unfold Stage.seed, Build.group.
    destruct (Dict.get (Build._parts self) (Test.base_name part)); auto.
    simpl. now rewrite dict_get_set_other.
Qed.

Lemma seed_observed self part :
  Build.parts (Stage.seed self part) = Build.parts self
  /\ Build.base_names (Stage.seed self part) = Build.base_names self.
Proof.
  destruct (seed_parts self part) as [[_ ->]|[_ E]]; auto.
  unfold Build.parts, Build.base_names. rewrite E.
  rewrite flat_map_app, filter_app, map_app. simpl.
  now rewrite !app_nil_r.
Qed.

Lemma account_fields self part :
  let s := Stage.account self part in
  Build.name s = Build.name self
  /\ Build.max_material s = Build.max_material self
  /\ Build._parts s = Build._parts self
  /\ Build._print_time s = Build._print_time self + Test.print_time part
  /\ Build._print_materials s
     = Build.charge (Build._print_materials self) (Test.print_materials part)
  /\ Build._first_part s = Build._first_part self
  /\ Build._batch s = Build._batch self
  /\ Build._machine s = Build._machine self.
Proof. simpl. repeat split. Qed.

Lemma account_group self part bn :
  Build.group (Stage.account self part) bn = Build.group self bn.
Proof. reflexivity. Qed.

Lemma store_fields self part :
  let s := Stage.store self part in
  Build.name s = Build.name self
  /\ Build.max_material s = Build.max_material self
  /\ Build._print_time s = Build._print_time self
  /\ Build._print_materials s = Build._print_materials self
  /\ Build._first_part s = Build._first_part self
  /\ Build._batch s = Build._batch self
  /\ Build._machine s = Build._machine self.
Proof. simpl. repeat split. Qed.

Lemma store_group_same self part :
  Build.group (Stage.store self part) (Test.base_name part)
  = Dict.set (Build.group self (Test.base_name part)) (Test.cnd part) part.
Proof.
  unfold Build.group at 1, Stage.store. simpl.
  now rewrite dict_get_set_same.
Qed.

Lemma store_group_other self part bn :
  Test.base_name part <> bn ->
  Build.group (Stage.store self part) bn = Build.group self bn.
Proof.
  intros Hne. unfold Build.group at 1, Stage.store. simpl.
  now rewrite dict_get_set_other.
Qed.

(** The fields [add_part] never writes, and the flag it always clears. *)
Lemma add_part_constant self part ignore_checks :
  let s := fst (Build.add_part self part ignore_checks) in
  Build.name s = Build.name self
  /\ Build.max_material s = Build.max_material self
  /\ Build._first_part s = false.
Proof.
  pose proof (adopt_fields self part) as (Hn & Hm & _ & _ & _ & Hf & _).
  pose proof (seed_fields (Stage.adopt self part) part)
    as (Hn' & Hm' & _ & _ & Hf' & _).
  cbv zeta in *.
  apply add_part_cases; intros;
    cbn [fst Build.name Build.max_material Build._first_part Stage.store
         Stage.account Build.set_parts Build.set_accounts];
    repeat split; congruence.
Qed.

(** ** Material accounting *)

Lemma charge_get0 req : forall mats m,
  Dict.wf req ->
  Dict.get0 (Build.charge mats req) m = Dict.get0 mats m + Dict.get0 req m.
Proof.
  unfold Build.charge, Dict.items, Dict.wf.
  induction req as [|[k v] req IH]; intros mats m Hwf; simpl.
  - change (Dict.get0 [] m) with 0. lia.
  - inversion Hwf as [|? ? Hnotin Hwf']; subst.
    rewrite IH by assumption.
    assert (Hstep : match Dict.get mats k with
                    | Some old => Dict.set mats k (old + v)
                    | None => Dict.set mats k v
                    end = Dict.set mats k (Dict.get0 mats k + v)).
    { unfold Dict.get0. destruct (Dict.get mats k); auto. }
    rewrite Hstep.
    assert (Hhead : Dict.get0 ((k, v) :: req) m
                    = if String.eqb k m then v else Dict.get0 req m).
    { unfold Dict.get0. simpl. now destruct (String.eqb k m). }
    rewrite Hhead.
    destruct (String.eqb_spec k m) as [->|Hne].
    + rewrite dict_get0_set_same, (dict_get0_absent req m Hnotin). lia.
    + rewrite dict_get0_set_other by assumption. lia.
Qed.

Lemma exceeded_None self part :
  Build.exceeded self part false = None ->
  forall k v, In (k, v) (Test.print_materials part) ->
  Dict.get0 (Build.print_materials self) k + v
  <= Dict.get0 (Build.max_material self) k.
Proof.
  unfold Build.exceeded, Dict.items. intros H k v Hin.
  destruct (find _ _) eqn:E; [discriminate|].
  pose proof (find_none _ _ E _ Hin) as Hk. simpl in Hk.
  rewrite andb_true_r in Hk. lia.
Qed.

Lemma exceeded_Some self part ign key :
  Build.exceeded self part ign = Some key ->
  exists v, In (key, v) (Test.print_materials part)
            /\ Dict.get0 (Build.print_materials self) key + v
               > Dict.get0 (Build.max_material self) key.
Proof.
  unfold Build.exceeded, Dict.items. intros H.
  destruct (find _ _) as [[k v]|] eqn:E; [|discriminate].
  simpl in H. inversion H; subst.
  apply find_some in E. destruct E as [Hin Hk]. simpl in Hk.
  apply andb_prop in Hk. exists v. split; auto. lia.
Qed.

Lemma get0_In (d : Dict.t Z) k :
  Dict.wf d -> In k (Dict.keys d) -> In (k, Dict.get0 d k) d.
Proof.
  intros Hwf Hin. unfold Dict.keys in Hin. apply in_map_iff in Hin.
  destruct Hin as ([k' v] & Hk & Hin). simpl in Hk. subst k'.
  unfold Dict.get0. now rewrite (dict_In_get _ d k v Hwf Hin).
Qed.

(** One call past the first part, not forced, keeps usage within capacity,
    whatever its outcome. *)
Lemma add_part_within_capacity self part :
  Build._first_part self = false ->
  Dict.wf (Test.print_materials part) ->
  within_capacity self ->
  within_capacity (fst (Build.add_part self part false)).
Proof.
  intros Hfirst Hwf Hcap.
  pose proof (adopt_fields self part) as (_ & Hm1 & _ & _ & Hp1 & _).
  pose proof (seed_fields (Stage.adopt self part) part)
    as (_ & Hm2 & _ & Hp2 & _).
  cbv zeta in *.
  assert (Hcap2 : within_capacity (Stage.seed (Stage.adopt self part) part)).
  { intros m. unfold Build.print_materials. rewrite Hp2, Hp1, Hm2, Hm1.
    apply Hcap. }
  assert (Hcap1 : within_capacity (Stage.adopt self part)).
  { intros m. unfold Build.print_materials. rewrite Hp1, Hm1. apply Hcap. }
  apply add_part_cases; cbn [fst]; auto.
  (* failures and additions to a charged group leave the accounts alone;
     what remains is a new print group being charged *)
  intros _ _ _ Hfits.
  unfold Stage.forced in Hfits. rewrite Hfirst in Hfits.
  intros m.
  cbn [Build.print_materials Build._print_materials Build.max_material
       Stage.store Stage.account Build.set_parts Build.set_accounts].
  rewrite charge_get0 by assumption.
  destruct (in_dec string_dec m (Dict.keys (Test.print_materials part)))
    as [Hin|Hnotin].
  - apply (exceeded_None _ _ Hfits m). now apply get0_In.
  - rewrite (dict_get0_absent _ m Hnotin), Z.add_0_r. apply Hcap2.
Qed.

Lemma states_within_capacity parts : forall self,
  Build._first_part self = false ->
  Forall (fun part => Dict.wf (Test.print_materials part)) parts ->
  within_capacity self ->
  Forall within_capacity (states self parts).
Proof.
  induction parts as [|part rest IH]; intros self Hfirst Hwf Hcap; simpl.
  - constructor.
  - inversion Hwf; subst. constructor.
    + now apply add_part_within_capacity.
    + apply IH; auto.
      * apply add_part_constant.
      * now apply add_part_within_capacity.
Qed.

(** ** Invariants of reachable Builds *)

Lemma dict_In_set {V} (d : Dict.t V) k v k' v' :
  In (k', v') (Dict.set d k v) -> (k' = k /\ v' = v) \/ In (k', v') d.
Proof.
  induction d as [|[k0 v0] d IH]; simpl.
  - intros [H|[]]. inversion H. auto.
  - destruct (String.eqb_spec k0 k) as [->|Hne]; simpl.
    + intros [H|H]; [inversion H; auto | auto].
    + intros [H|H]; [auto | destruct (IH H); auto].
Qed.

Lemma add_part_batch_machine self part ignore_checks :
  let s := fst (Build.add_part self part ignore_checks) in
  Build._batch s = Build._batch (Stage.adopt self part)
  /\ Build._machine s = Build._machine (Stage.adopt self part).
Proof.
  pose proof (seed_fields (Stage.adopt self part) part)
    as (_ & _ & _ & _ & _ & Hb & Hm).
  cbv zeta in *.
  apply add_part_cases; intros;
    cbn [fst Build._batch Build._machine Stage.store Stage.account
         Build.set_parts Build.set_accounts];
    auto.
Qed.

Lemma add_part_settled self part ignore_checks :
  settled (fst (Build.add_part self part ignore_checks)).
Proof.
  intros _.
  destruct (add_part_batch_machine self part ignore_checks) as [-> ->].
  pose proof (adopt_fields self part) as (_ & _ & _ & _ & _ & _ & -> & ->).
  destruct (Build._batch self), (Build._machine self); split; discriminate.
Qed.

Lemma group_filed self bn :
  filed self ->
  Dict.wf (Build.group self bn)
  /\ forall c q, In (c, q) (Build.group self bn) ->
       Test.base_name q = bn /\ Test.cnd q = c.
Proof.
  intros [_ Hin]. unfold Build.group.
  destruct (Dict.get (Build._parts self) bn) as [g|] eqn:E.
  - apply Hin. now apply dict_get_In.
  - split; [constructor | intros c q []].
Qed.

Lemma seed_filed self part : filed self -> filed (Stage.seed self part).
Proof.
  intros Hf. destruct (seed_parts self part) as [[_ ->]|[Hnone E]]; auto.
  destruct Hf as [Hwf Hin]. split.
  - unfold Stage.seed. rewrite Hnone. simpl. now apply dict_wf_set.
  - rewrite E. intros bn g Hbg. apply in_app_or in Hbg.
    destruct Hbg as [Hbg|[Hbg|[]]]; [now apply Hin|].
    inversion Hbg; subst. split; [constructor | intros c q []].
Qed.

Lemma store_filed self part : filed self -> filed (Stage.store self part).
Proof.
  intros Hf. pose proof (group_filed self (Test.base_name part) Hf) as [Hg Hgin].
  destruct Hf as [Hwf Hin]. split.
  - simpl. now apply dict_wf_set.
  - simpl. intros bn g Hbg. apply dict_In_set in Hbg.
    destruct Hbg as [[-> ->]|Hbg]; [|now apply Hin].
    split; [now apply dict_wf_set|].
    intros c q Hcq. apply dict_In_set in Hcq.
    destruct Hcq as [[-> ->]|Hcq]; auto.
Qed.

Lemma add_part_filed self part ignore_checks :
  filed self -> filed (fst (Build.add_part self part ignore_checks)).
Proof.
  intros Hf.
  assert (H1 : filed (Stage.adopt self part)).
  { pose proof (adopt_fields self part) as (_ & _ & Hp & _).
    unfold filed. cbv zeta in Hp. now rewrite Hp. }
  pose proof (seed_filed _ part H1) as H2.
  apply add_part_cases; intros; cbn [fst]; auto.
  - apply store_filed. exact H2.
  - now apply store_filed.
Qed.

Lemma reachable_filed self : reachable self -> filed self.
Proof.
  induction 1 as [n b m mm|self part ign _ IH].
  - split; [constructor | intros bn g []].
  - now apply add_part_filed.
Qed.

Lemma reachable_settled self : reachable self -> settled self.
Proof.
  induction 1 as [n b m mm|self part ign _ IH].
  - intros Hc. discriminate Hc.
  - apply add_part_settled.
Qed.

Lemma reachable_untouched self : reachable self -> untouched self.
Proof.
  induction 1 as [n b m mm|self part ign _ IH].
  - intros _. reflexivity.
  - intros Hc. pose proof (add_part_constant self part ign) as (_ & _ & Hf).
    cbv zeta in Hf. congruence.
Qed.

(** ** What a failed call leaves behind *)

Lemma forced_false self ignore_checks :
  Stage.forced self ignore_checks = false ->
  Build._first_part self = false /\ ignore_checks = false.
Proof. unfold Stage.forced. destruct (Build._first_part self); auto. discriminate. Qed.

Lemma same_accounts_refl self : same_accounts self self.
Proof. repeat split. Qed.

Lemma same_accounts_seed self part : same_accounts (Stage.seed self part) self.
Proof.
  pose proof (seed_fields self part) as (? & ? & ? & ? & ? & ? & ?).
  pose proof (seed_observed self part) as [? ?].
  repeat split; assumption.
Qed.

Lemma add_part_failure self part ignore_checks msg :
  settled self ->
  snd (Build.add_part self part ignore_checks) = Raise (RuntimeError msg) ->
  let s := fst (Build.add_part self part ignore_checks) in
  same_accounts s self
  /\ (Build._parts s = Build._parts self
      \/ (Dict.get (Build._parts self) (Test.base_name part) = None
          /\ Build._parts s = Build._parts self ++ [(Test.base_name part, [])]
          /\ exists key, RuntimeError msg = MaterialExceeded key)).
Proof.
  intros Hset. cbv zeta.
  assert (Hself : Stage.forced self ignore_checks = false ->
                  Stage.adopt self part = self).
  { intros Hf. apply forced_false in Hf. destruct Hf as [Hf _].
    destruct (Hset Hf). now apply adopt_settled. }
  apply add_part_cases; cbn [fst snd]; try discriminate.
  - intros Hf _ _. rewrite (Hself Hf). split; [apply same_accounts_refl | auto].
  - intros Hf _ _ _. rewrite (Hself Hf).
    split; [apply same_accounts_refl | auto].
  - intros Hf _ _ Hdup _. rewrite (Hself Hf) in *.
    split; [apply same_accounts_seed|]. left.
    destruct (seed_parts self part) as [[_ ->]|[Hnone _]]; auto.
    rewrite seed_group in Hdup. unfold Build.group in Hdup.
    rewrite Hnone in Hdup. destruct Hdup.
  - intros key Hf _ _ _ _ Heq. rewrite (Hself Hf).
    split; [apply same_accounts_seed|].
    destruct (seed_parts self part) as [[_ ->]|[Hnone E]]; auto.
    right. split; [assumption|]. split; [assumption|].
    exists key. now inversion Heq.
Qed.

(** ** Batch and machine *)

Lemma add_part_keeps_batch self part ignore_checks b :
  Build._batch self = Some b ->
  Build._batch (fst (Build.add_part self part ignore_checks)) = Some b.
Proof.
  intros Hb. destruct (add_part_batch_machine self part ignore_checks) as [-> _].
  pose proof (adopt_fields self part) as (_ & _ & _ & _ & _ & _ & -> & _).
  now rewrite Hb.
Qed.

Lemma add_part_keeps_machine self part ignore_checks m :
  Build._machine self = Some m ->
  Build._machine (fst (Build.add_part self part ignore_checks)) = Some m.
Proof.
  intros Hm. destruct (add_part_batch_machine self part ignore_checks) as [_ ->].
  pose proof (adopt_fields self part) as (_ & _ & _ & _ & _ & _ & _ & ->).
  now rewrite Hm.
Qed.

Lemma add_part_batch_mismatch self part b :
  Build._first_part self = false ->
  Build._batch self = Some b -> b <> Test.batch part ->
  snd (Build.add_part self part false) = Raise BatchMismatch.
Proof.
  intros Hfirst Hb Hne. rewrite add_part_stages. cbv zeta.
  pose proof (adopt_fields self part) as (_ & _ & _ & _ & _ & _ & -> & _).
  unfold Stage.forced. rewrite Hfirst, Hb. simpl.
  destruct (Z.eqb_spec b (Test.batch part)); [contradiction | reflexivity].
Qed.

Lemma add_part_machine_mismatch self part m :
  Build._first_part self = false ->
  Build._batch self = Some (Test.batch part) ->
  Build._machine self = Some m -> m <> Test.machine part ->
  snd (Build.add_part self part false) = Raise MachineMismatch.
Proof.
  intros Hfirst Hb Hm Hne. rewrite add_part_stages. cbv zeta.
  pose proof (adopt_fields self part) as (_ & _ & _ & _ & _ & _ & -> & ->).
  unfold Stage.forced. rewrite Hfirst, Hb, Hm. simpl.
  rewrite Z.eqb_refl. simpl.
  destruct (Z.eqb_spec m (Test.machine part)); [contradiction | reflexivity].
Qed.

(** ** Materials the Build does not list *)

Lemma adopt_group self part bn :
  Build.group (Stage.adopt self part) bn = Build.group self bn.
Proof.
  unfold Build.group.
  pose proof (adopt_fields self part) as (_ & _ & -> & _). reflexivity.
Qed.

Lemma staged_group self part bn :
  Build.group (Stage.seed (Stage.adopt self part) part) bn = Build.group self bn.
Proof. now rewrite seed_group, adopt_group. Qed.

Lemma staged_opens_group self part :
  Stage.opens_group (Stage.seed (Stage.adopt self part) part) part
  = Stage.opens_group self part.
Proof. unfold Stage.opens_group. now rewrite staged_group. Qed.

Lemma exceeded_unlisted self part key q :
  In (key, q) (Test.print_materials part) -> 0 < q ->
  Dict.get (Build.max_material self) key = None ->
  0 <= Dict.get0 (Build.print_materials self) key ->
  exists key', Build.exceeded self part false = Some key'.
Proof.
  intros Hin Hq Hmax Huse. unfold Build.exceeded, Dict.items.
  destruct (find _ _) as [[k v]|] eqn:E.
  - now exists k.
  - exfalso. pose proof (find_none _ _ E _ Hin) as Hk. simpl in Hk.
    rewrite andb_true_r in Hk. unfold Dict.get0 at 2 in Hk.
    rewrite Hmax in Hk. lia.
Qed.

Lemma add_part_unlisted self part key q :
  Build._first_part self = false ->
  Test.print_max_samples part <> 0 ->
  Stage.opens_group self part = true ->
  In (key, q) (Test.print_materials part) -> 0 < q ->
  Dict.get (Build.max_material self) key = None ->
  0 <= Dict.get0 (Build.print_materials self) key ->
  (exists msg, snd (Build.add_part self part false) = Raise (RuntimeError msg))
  /\ (Build._batch self = Some (Test.batch part) ->
      Build._machine self = Some (Test.machine part) ->
      ~ In (Test.cnd part) (Dict.keys (Build.group self (Test.base_name part))) ->
      exists key', snd (Build.add_part self part false)
                   = Raise (MaterialExceeded key')).
Proof.
  intros Hfirst Hk Hopen Hin Hq Hmax Huse.
  pose proof (adopt_fields self part)
    as (_ & Hm1 & _ & _ & Hp1 & _ & Hb1 & Hmc1).
  pose proof (seed_fields (Stage.adopt self part) part)
    as (_ & Hm2 & _ & Hp2 & _).
  cbv zeta in *.
  assert (Hex : exists key', Build.exceeded
                  (Stage.seed (Stage.adopt self part) part) part false
                = Some key').
  { apply exceeded_unlisted with (key := key) (q := q); auto.
    - now rewrite Hm2, Hm1.
    - unfold Build.print_materials. now rewrite Hp2, Hp1. }
  destruct Hex as [key' Hex].
  assert (Hforced : Stage.forced self false = false).
  { unfold Stage.forced. now rewrite Hfirst. }
  apply add_part_cases; cbn [snd]; rewrite ?staged_group, ?staged_opens_group.
  - intros _ Hne. split; [now eexists|].
    intros Hb _ _. rewrite Hb1, Hb in Hne. congruence.
  - intros _ _ Hne. split; [now eexists|].
    intros _ Hm _. rewrite Hmc1, Hm in Hne. congruence.
  - intros _ _ _ Hdup. split; [now eexists|]. intros _ _ Hc. contradiction.
  - intros _ Hz. contradiction.
  - intros key0 _ _ _ _ _. split; [now eexists | intros; now eexists].
  - intros _ _ _ Hnone. rewrite Hforced in Hnone. congruence.
  - intros _ _ Hno. congruence.
Qed.

(** ** A call that returns *)

Lemma add_part_ok self part ignore_checks :
  snd (Build.add_part self part ignore_checks) = Ok tt ->
  let s := fst (Build.add_part self part ignore_checks) in
  Test.print_max_samples part <> 0
  /\ Build.group s (Test.base_name part)
     = Dict.set (Build.group self (Test.base_name part)) (Test.cnd part) part
  /\ (forall bn, Test.base_name part <> bn ->
      Build.group s bn = Build.group self bn)
  /\ (if Stage.opens_group self part
      then Build._print_time s = Build._print_time self + Test.print_time part
           /\ Build._print_materials s
              = Build.charge (Build._print_materials self)
                  (Test.print_materials part)
      else Build._print_time s = Build._print_time self
           /\ Build._print_materials s = Build._print_materials self).
Proof.
  pose proof (adopt_fields self part) as (_ & _ & _ & Ht1 & Hp1 & _).
  pose proof (seed_fields (Stage.adopt self part) part)
    as (_ & _ & Ht2 & Hp2 & _).
  cbv zeta in *.
  apply add_part_cases; cbn [fst snd]; try discriminate;
    rewrite ?staged_opens_group.
  - intros _ Hk Hopen _ _. rewrite Hopen. split; [assumption|].
    rewrite store_group_same, account_group, staged_group.
    split; [reflexivity|]. split.
    + intros bn Hne.
      now rewrite store_group_other, account_group, staged_group.
    + cbn [Build._print_time Build._print_materials Stage.store Stage.account
           Build.set_parts Build.set_accounts].
      now rewrite Ht2, Ht1, Hp2, Hp1.
  - intros _ Hk Hopen _. rewrite Hopen. split; [assumption|].
    rewrite store_group_same, staged_group.
    split; [reflexivity|]. split.
    + intros bn Hne. now rewrite store_group_other, staged_group.
    + cbn [Build._print_time Build._print_materials Stage.store
           Build.set_parts].
      now rewrite Ht2, Ht1, Hp2, Hp1.
Qed.

(** An addition into a group already charged: no accounting, and no
    material failure. *)
Lemma add_part_shared_group self part ignore_checks :
  Test.print_max_samples part <> 0 ->
  Stage.opens_group self part = false ->
  let r := Build.add_part self part ignore_checks in
  Build._print_time (fst r) = Build._print_time self
  /\ Build._print_materials (fst r) = Build._print_materials self
  /\ forall key, snd r <> Raise (MaterialExceeded key).
Proof.
  intros Hk Hopen.
  pose proof (adopt_fields self part) as (_ & _ & _ & Ht1 & Hp1 & _).
  pose proof (seed_fields (Stage.adopt self part) part)
    as (_ & _ & Ht2 & Hp2 & _).
  cbv zeta in *.
  apply add_part_cases; cbn [fst snd]; rewrite ?staged_opens_group;
    intros; try congruence;
    cbn [Build._print_time Build._print_materials Stage.store
         Build.set_parts];
    (split; [congruence|]); (split; [congruence|]);
    intros key' Hc; discriminate Hc.
Qed.

(** ** Print groups *)

Lemma add_all_app calls1 : forall calls2 self,
  add_all self (calls1 ++ calls2)
  = match add_all self calls1 with
    | Some s => add_all s calls2
    | None => None
    end.
Proof.
  induction calls1 as [|[part ign] calls1 IH]; intros calls2 self; simpl; auto.
  destruct (Build.add_part self part ign) as [s [[]|e]]; auto.
Qed.

Section PrintGroup.
Variable bn : string.
Variable k : Z.
Hypothesis Hk : 1 <= k.

Lemma add_one self part ignore_checks s later :
  Test.base_name part = bn ->
  fresh_conditions bn self ((part, ignore_checks) :: later) ->
  Build.add_part self part ignore_checks = (s, Ok tt) ->
  List.length (Build.group s bn) = S (List.length (Build.group self bn))
  /\ fresh_conditions bn s later
  /\ (if Stage.opens_group self part
      then Build._print_time s = Build._print_time self + Test.print_time part
           /\ Build._print_materials s
              = Build.charge (Build._print_materials self)
                  (Test.print_materials part)
      else Build._print_time s = Build._print_time self
           /\ Build._print_materials s = Build._print_materials self).
Proof.
  intros Hbn [Hnd Hnew] Hadd.
  pose proof (add_part_ok self part ignore_checks) as Hok.
  rewrite Hadd in Hok. cbn [fst snd] in Hok.
  destruct (Hok eq_refl) as (_ & Hgrp & _ & Hacc). clear Hok.
  rewrite Hbn in Hgrp.
  assert (Hfresh : Dict.get (Build.group self bn) (Test.cnd part) = None).
  { apply dict_get_None. apply (Hnew (part, ignore_checks)). now left. }
  split; [|split]; auto.
  - rewrite Hgrp. now apply dict_length_set_fresh.
  - simpl in Hnd. inversion Hnd as [|? ? Hnotin Hnd']; subst.
    split; auto. intros c Hc. rewrite Hgrp, dict_keys_set.
    intros [Heq|Hin].
    + apply Hnotin. rewrite <- Heq.
      now apply (in_map (fun c => Test.cnd (fst c))).
    + apply (Hnew c); [now right | assumption].
Qed.

Lemma opens_group_iff self part n :
  Test.base_name part = bn -> Test.print_max_samples part = k ->
  Z.of_nat (List.length (Build.group self bn)) = n ->
  Stage.opens_group self part = (n mod k =? 0).
Proof. intros Hb Hp Hn. unfold Stage.opens_group. now rewrite Hb, Hp, Hn. Qed.

(** Additions that stay inside a print group already opened. *)
Lemma add_all_shared calls : forall later self s q r,
  same_kind bn k calls ->
  fresh_conditions bn self (calls ++ later) ->
  Z.of_nat (List.length (Build.group self bn)) = q * k + r ->
  0 < r -> r + Z.of_nat (List.length calls) <= k ->
  add_all self calls = Some s ->
  Build._print_time s = Build._print_time self
  /\ Build._print_materials s = Build._print_materials self
  /\ Z.of_nat (List.length (Build.group s bn))
     = q * k + r + Z.of_nat (List.length calls)
  /\ fresh_conditions bn s later.
Proof.
  induction calls as [|[part ign] calls IH];
    intros later self s q r Hkind Hfresh Hn Hr Hroom Hrun.
  - simpl in *. inversion Hrun; subst.
    split; [reflexivity|]. split; [reflexivity|]. split; [lia | assumption].
  - simpl in Hrun.
    destruct (Build.add_part self part ign) as [s1 [[]|e]] eqn:Hadd;
      [|discriminate].
    apply Forall_cons_iff in Hkind. destruct Hkind as [[Hbn Hpk] Hkind'].
    simpl in Hbn, Hpk.
    destruct (add_one self part ign s1 (calls ++ later) Hbn Hfresh Hadd)
      as (Hlen & Hfresh1 & Hacc).
    cbn [List.length] in Hroom. rewrite Nat2Z.inj_succ in Hroom.
    rewrite (opens_group_iff self part (q * k + r) Hbn Hpk Hn) in Hacc.
    assert (Hmod : (q * k + r) mod k = r).
    { symmetry. apply Z.mod_unique with (q := q); lia. }
    rewrite Hmod in Hacc.
    destruct (Z.eqb_spec r 0) as [Hr0|_]; [lia|].
    destruct Hacc as [Ht Hp].
    assert (Hn1 : Z.of_nat (List.length (Build.group s1 bn)) = q * k + (r + 1)).
    { rewrite Hlen, Nat2Z.inj_succ. lia. }
    destruct (IH later s1 s q (r + 1) Hkind' Hfresh1 Hn1) as (? & ? & ? & ?);
      try lia; auto.
    cbn [List.length]. rewrite Nat2Z.inj_succ.
    split; [congruence|]. split; [congruence|]. split; [lia | assumption].
Qed.

(** A whole print group: the call that opens it is the one charged. *)
Lemma add_all_group part ign calls later self s q :
  same_kind bn k ((part, ign) :: calls) ->
  fresh_conditions bn self ((part, ign) :: calls ++ later) ->
  Z.of_nat (List.length (Build.group self bn)) = q * k ->
  Z.of_nat (List.length calls) = k - 1 ->
  add_all self ((part, ign) :: calls) = Some s ->
  Build._print_time s = Build._print_time self + Test.print_time part
  /\ Build._print_materials s
     = Build.charge (Build._print_materials self) (Test.print_materials part)
  /\ Z.of_nat (List.length (Build.group s bn)) = (q + 1) * k
  /\ fresh_conditions bn s later.
Proof.
  intros Hkind Hfresh Hn Hlen Hrun. simpl in Hrun.
  destruct (Build.add_part self part ign) as [s1 [[]|e]] eqn:Hadd;
    [|discriminate].
  apply Forall_cons_iff in Hkind. destruct Hkind as [[Hbn Hpk] Hkind'].
  simpl in Hbn, Hpk.
  destruct (add_one self part ign s1 (calls ++ later) Hbn Hfresh Hadd)
    as (Hlen1 & Hfresh1 & Hacc).
  rewrite (opens_group_iff self part (q * k) Hbn Hpk Hn) in Hacc.
  rewrite Z.mod_mul in Hacc by lia. simpl in Hacc. destruct Hacc as [Ht Hp].
  assert (Hn1 : Z.of_nat (List.length (Build.group s1 bn)) = q * k + 1).
  { rewrite Hlen1, Nat2Z.inj_succ. lia. }
  destruct (add_all_shared calls later s1 s q 1 Hkind' Hfresh1 Hn1)
    as (Ht' & Hp' & Hn' & Hfresh'); try lia; auto.
  split; [congruence|]. split; [congruence|]. split; [lia | assumption].
Qed.

(** Two print groups in a row. *)
Lemma add_all_two_groups first rest1 next rest2 self s :
  let calls := first :: rest1 ++ next :: rest2 in
  same_kind bn k calls ->
  fresh_conditions bn self calls ->
  Build.group self bn = [] ->
  Z.of_nat (List.length rest1) = k - 1 ->
  Z.of_nat (List.length rest2) = k - 1 ->
  add_all self calls = Some s ->
  Build._print_time s
  = Build._print_time self + Test.print_time (fst first)
    + Test.print_time (fst next)
  /\ Build._print_materials s
     = Build.charge
         (Build.charge (Build._print_materials self)
            (Test.print_materials (fst first)))
         (Test.print_materials (fst next))
  /\ Z.of_nat (List.length (Build.group s bn)) = 2 * k.
Proof.
  intros calls Hkind Hfresh Hempty Hl1 Hl2 Hrun. subst calls.
  destruct first as [p1 i1], next as [p2 i2]. cbn [fst].
  change ((p1, i1) :: rest1 ++ (p2, i2) :: rest2)
    with (((p1, i1) :: rest1) ++ ((p2, i2) :: rest2)) in Hrun, Hkind.
  rewrite add_all_app in Hrun.
  destruct (add_all self ((p1, i1) :: rest1)) as [s1|] eqn:Hrun1;
    [|discriminate].
  apply Forall_app in Hkind. destruct Hkind as [Hkind1 Hkind2].
  destruct (add_all_group p1 i1 rest1 ((p2, i2) :: rest2) self s1 0)
    as (Ht1 & Hp1 & Hn1 & Hfresh1); auto.
  { now rewrite Hempty. }
  destruct (add_all_group p2 i2 rest2 [] s1 s 1)
    as (Ht2 & Hp2 & Hn2 & _); auto.
  { now rewrite app_nil_r. }
  split; [congruence|]. split; [congruence|]. lia.
Qed.
End PrintGroup.

(** ** One stored part per (base name, condition) *)

Lemma group_slots (bn : string) (g : Dict.t Test.t) :
  (forall c q, In (c, q) g -> Test.base_name q = bn /\ Test.cnd q = c) ->
  map slot (Dict.values g) = map (fun c : string => (bn, c)) (Dict.keys g).
Proof.
  unfold Dict.values, Dict.keys.
  induction g as [|[c q] g IH]; intros H; simpl; auto.
  destruct (H c q (or_introl eq_refl)) as [Hb Hc].
  unfold slot at 1. rewrite Hb, Hc. f_equal. apply IH.
  intros c' q' Hin. apply H. now right.
Qed.

Lemma NoDup_pair (bn : string) (l : list string) :
  NoDup l -> NoDup (map (fun c : string => (bn, c)) l).
Proof.
  induction 1 as [|c l Hnotin _ IH]; simpl; constructor; auto.
  intros Hin. apply in_map_iff in Hin. destruct Hin as (c' & Heq & Hin).
  inversion Heq; subst. contradiction.
Qed.

Lemma in_parts (l : Dict.t (Dict.t Test.t)) q :
  In q (flat_map (fun kv => Dict.values (snd kv)) l) ->
  exists bn g c, In (bn, g) l /\ In (c, q) g.
Proof.
  intros H. apply in_flat_map in H. destruct H as ([bn g] & Hl & Hq).
  simpl in Hq. unfold Dict.values in Hq. apply in_map_iff in Hq.
  destruct Hq as ([c q'] & Heq & Hg). simpl in Heq. subst q'.
  now exists bn, g, c.
Qed.

Lemma parts_slots_nodup (l : Dict.t (Dict.t Test.t)) :
  Dict.wf l ->
  (forall bn g, In (bn, g) l ->
     Dict.wf g
     /\ forall c q, In (c, q) g -> Test.base_name q = bn /\ Test.cnd q = c) ->
  NoDup (map slot (flat_map (fun kv => Dict.values (snd kv)) l)).
Proof.
  unfold Dict.wf at 1, Dict.keys.
  induction l as [|[bn g] l IH]; intros Hwf Hin; simpl.
  - constructor.
  - inversion Hwf as [|? ? Hnotin Hwf']; subst.
    destruct (Hin bn g (or_introl eq_refl)) as [Hg Hgin].
    rewrite map_app. apply NoDup_app.
    + rewrite (group_slots bn g Hgin). now apply NoDup_pair.
    + apply IH; auto. intros bn' g' H'. apply Hin. now right.
    + intros sl Hsl Hsl'. rewrite (group_slots bn g Hgin) in Hsl.
      apply in_map_iff in Hsl. destruct Hsl as (c & <- & _).
      apply in_map_iff in Hsl'. destruct Hsl' as (q & Hslot & Hq).
      apply in_parts in Hq. destruct Hq as (bn' & g' & c' & Hl & Hcq).
      destruct (Hin bn' g' (or_intror Hl)) as [_ Hg'].
      destruct (Hg' c' q Hcq) as [Hb _].
      unfold slot in Hslot. inversion Hslot; subst.
      apply Hnotin. change (Test.base_name q) with (fst (Test.base_name q, g')).
      now apply in_map.
Qed.

Lemma filed_parts_nodup self : filed self -> NoDup (map slot (Build.parts self)).
Proof. intros [Hwf Hin]. now apply parts_slots_nodup. Qed.

Lemma forced_true self : Stage.forced self true = true.
Proof. unfold Stage.forced. now destruct (Build._first_part self). Qed.

Lemma staged_parts self part :
  Build._parts (Stage.seed (Stage.adopt self part) part)
  = Build._parts (Stage.seed self part).
Proof.
  pose proof (adopt_fields self part) as (_ & _ & Hp & _). cbv zeta in Hp.
  unfold Stage.seed. rewrite Hp.
  destruct (Dict.get (Build._parts self) (Test.base_name part)); simpl;
    now rewrite ?Hp.
Qed.

Lemma add_part_ok_parts self part ignore_checks :
  snd (Build.add_part self part ignore_checks) = Ok tt ->
  Build._parts (fst (Build.add_part self part ignore_checks))
  = Dict.set (Build._parts (Stage.seed self part)) (Test.base_name part)
      (Dict.set (Build.group self (Test.base_name part)) (Test.cnd part) part).
Proof.
  apply add_part_cases; cbn [fst snd]; try discriminate; intros;
    cbn [Build._parts Stage.store Stage.account Build.set_parts
         Build.set_accounts];
    fold (Build.group (Stage.seed (Stage.adopt self part) part)
            (Test.base_name part));
    now rewrite staged_parts, ?account_group, staged_group.
Qed.

Lemma add_part_forced_ok self part :
  Test.print_max_samples part <> 0 ->
  snd (Build.add_part self part true) = Ok tt.
Proof.
  intros Hk. apply add_part_cases; cbn [snd]; rewrite ?forced_true;
    intros; try discriminate; try contradiction; reflexivity.
Qed.

Lemma replace_slot_other part qs :
  (forall q, In q qs -> slot q <> slot part) ->
  map (replace_slot part) qs = qs.
Proof.
  intros H. rewrite <- (map_id qs) at 2. apply map_ext_in. intros q Hq.
  unfold replace_slot.
  destruct (String.eqb_spec (Test.base_name q) (Test.base_name part)) as [Hb|];
    auto.
  destruct (String.eqb_spec (Test.cnd q) (Test.cnd part)) as [Hc|]; auto.
  exfalso. apply (H q Hq). unfold slot. congruence.
Qed.

Lemma replace_slot_same part q :
  slot q = slot part -> replace_slot part q = part.
Proof.
  unfold slot, replace_slot. intros H. inversion H as [[Hb Hc]].
  now rewrite Hb, Hc, !String.eqb_refl.
Qed.

Lemma NoDup_keys_middle {V} (l1 l2 : Dict.t V) k v :
  Dict.wf (l1 ++ (k, v) :: l2) ->
  ~ In k (Dict.keys l1) /\ ~ In k (Dict.keys l2).
Proof.
  unfold Dict.wf, Dict.keys. rewrite map_app. simpl. intros H.
  apply NoDup_remove_2 in H. rewrite in_app_iff in H. tauto.
Qed.

(** Overwriting a stored part changes the flattened list at that part only. *)
Lemma parts_replace (l : Dict.t (Dict.t Test.t)) part g old :
  Dict.wf l ->
  (forall bn g, In (bn, g) l ->
     Dict.wf g
     /\ forall c q, In (c, q) g -> Test.base_name q = bn /\ Test.cnd q = c) ->
  Dict.get l (Test.base_name part) = Some g ->
  Dict.get g (Test.cnd part) = Some old ->
  flat_map (fun kv => Dict.values (snd kv))
    (Dict.set l (Test.base_name part) (Dict.set g (Test.cnd part) part))
  = map (replace_slot part) (flat_map (fun kv => Dict.values (snd kv)) l).
Proof.
  intros Hwf Hin Hl Hg.
  destruct (dict_set_present _ l _ g (Dict.set g (Test.cnd part) part) Hl)
    as (l1 & l2 & El & -> & _).
  destruct (dict_set_present _ g _ old part Hg) as (g1 & g2 & Eg & -> & _).
  subst l. destruct (NoDup_keys_middle _ _ _ _ Hwf) as [Hl1 Hl2].
  destruct (Hin _ g (in_elt _ _ _)) as [Hgwf Hgin].
  subst g. destruct (NoDup_keys_middle _ _ _ _ Hgwf) as [Hg1 Hg2].
  assert (Hout : forall l', (forall x, In x l' -> In x (l1 ++ l2)) ->
            map (replace_slot part)
              (flat_map (fun kv => Dict.values (snd kv)) l')
            = flat_map (fun kv => Dict.values (snd kv)) l').
  { intros l' Hsub. apply replace_slot_other. intros q Hq Hslot.
    apply in_parts in Hq. destruct Hq as (bn' & g' & c' & Hl' & Hcq).
    assert (Hmem : In (bn', g') (l1 ++ (Test.base_name part,
                                        g1 ++ (Test.cnd part, old) :: g2) :: l2)).
    { apply in_or_app. apply Hsub in Hl'. apply in_app_or in Hl'.
      destruct Hl'; [now left | right; now right]. }
    destruct (Hin _ _ Hmem) as [_ Hg']. destruct (Hg' _ _ Hcq) as [Hb _].
    unfold slot in Hslot. inversion Hslot as [[Hb' Hc']].
    apply Hsub in Hl'. apply in_app_or in Hl'.
    assert (Hkey : In bn' (Dict.keys l1) \/ In bn' (Dict.keys l2)).
    { destruct Hl' as [H|H]; [left|right];
        change bn' with (fst (bn', g')); now apply in_map. }
    rewrite <- Hb, Hb' in Hkey. tauto. }
  assert (Hgrp : forall g', (forall x, In x g' -> In x (g1 ++ g2)) ->
            map (replace_slot part) (Dict.values g') = Dict.values g').
  { intros g' Hsub. apply replace_slot_other. intros q Hq Hslot.
    unfold Dict.values in Hq. apply in_map_iff in Hq.
    destruct Hq as ([c q'] & Heq & Hq). simpl in Heq. subst q'.
    assert (Hmem : In (c, q) (g1 ++ (Test.cnd part, old) :: g2)).
    { apply in_or_app. apply Hsub in Hq. apply in_app_or in Hq.
      destruct Hq; [now left | right; now right]. }
    destruct (Hgin _ _ Hmem) as [_ Hc].
    unfold slot in Hslot. inversion Hslot as [[Hb' Hc']].
    apply Hsub in Hq. apply in_app_or in Hq.
    assert (Hkey : In c (Dict.keys g1) \/ In c (Dict.keys g2)).
    { destruct Hq as [H|H]; [left|right];
        change c with (fst (c, q)); now apply in_map. }
    rewrite <- Hc, Hc' in Hkey. tauto. }
  destruct (Hgin _ old (in_elt _ _ _)) as [Hob Hoc].
  assert (Hval : forall x, Dict.values (g1 ++ (Test.cnd part, x) :: g2)
                           = Dict.values g1 ++ x :: Dict.values g2).
  { intros x. unfold Dict.values. now rewrite map_app. }
  rewrite !flat_map_app. cbn [flat_map snd]. rewrite !Hval, !map_app.
  cbn [map]. rewrite ?map_app.
  rewrite (Hout l1) by (intros; apply in_or_app; now left).
  rewrite (Hout l2) by (intros; apply in_or_app; now right).
  rewrite (Hgrp g1) by (intros; apply in_or_app; now left).
  rewrite (Hgrp g2) by (intros; apply in_or_app; now right).
  rewrite (replace_slot_same part old) by (unfold slot; congruence).
  reflexivity.
Qed.

Lemma add_part_forced_replaces self part old :
  filed self ->
  Test.print_max_samples part <> 0 ->
  Dict.get (Build.group self (Test.base_name part)) (Test.cnd part) = Some old ->
  let r := Build.add_part self part true in
  snd r = Ok tt
  /\ Dict.get (Build.group (fst r) (Test.base_name part)) (Test.cnd part)
     = Some part
  /\ Build.parts (fst r) = map (replace_slot part) (Build.parts self).
Proof.
  intros [Hwf Hin] Hk Hold. cbv zeta.
  pose proof (add_part_forced_ok self part Hk) as Hok.
  split; [assumption|].
  destruct (add_part_ok self part true Hok) as (_ & Hgrp & _).
  split; [rewrite Hgrp; apply dict_get_set_same|].
  unfold Build.parts. rewrite (add_part_ok_parts self part true Hok).
  unfold Build.group in Hold |- *. unfold Stage.seed.
  destruct (Dict.get (Build._parts self) (Test.base_name part)) as [g|] eqn:Eg;
    [|discriminate].
  now apply parts_replace with (old := old).
Qed.

(** ** [filter_builds] *)

Lemma filter_twice {A} (f g : A -> bool) l :
  filter g (filter f l) = filter (fun x => f x && g x) l.
Proof.
  induction l as [|x l IH]; simpl; auto.
  destruct (f x) eqn:Ef; simpl; [destruct (g x) eqn:Eg|]; simpl;
    rewrite ?Eg, IH; auto.
Qed.

Lemma keep_keep self f g refs :
  BuildCollection.keep self g (BuildCollection.keep self f refs)
  = BuildCollection.keep self (fun b => f b && g b) refs.
Proof.
  unfold BuildCollection.keep. rewrite filter_twice.
  apply filter_ext. intros i.
  now destruct (BuildCollection.build_at self i).
Qed.

Lemma material_steps_unbound self materials :
  forall acc,
    (acc = Raise UnboundLocalError \/ acc = Ok None) ->
    (res <- fold_left
         (fun acc kv =>
            builds_var <- acc ;;
            bs <- BuildCollection.local builds_var ;;
            Ok (Some (BuildCollection.keep self
                        (fun build =>
                           Dict.get0 (Build.max_material build) (fst kv)
                             - Dict.get0 (Build.print_materials build) (fst kv)
                           >=? snd kv)
                        bs)))
         materials acc ;;
     BuildCollection.local (A := list nat) res)
    = Raise UnboundLocalError.
Proof.
  induction materials as [|kv materials IH]; intros acc [->| ->]; simpl; auto.
Qed.

(** Without [batch] the local [builds] is read before any assignment. *)
Lemma filter_builds_unbound self machine materials base_name :
  BuildCollection.filter_builds self None machine materials base_name
  = Raise UnboundLocalError.
Proof.
  unfold BuildCollection.filter_builds.
  destruct machine as [m|]; simpl; auto.
  destruct base_name as [bn|]; simpl; auto.
  apply material_steps_unbound. now right.
Qed.

Lemma group_holds bn bn' (g : Dict.t Test.t) :
  (forall c q, In (c, q) g -> Test.base_name q = bn' /\ Test.cnd q = c) ->
  existsb (fun part => String.eqb (Test.base_name part) bn) (Dict.values g)
  = negb (Nat.eqb (List.length g) 0) && String.eqb bn bn'.
Proof.
  unfold Dict.values. induction g as [|[c q] g IH]; intros H; simpl; auto.
  destruct (H c q (or_introl eq_refl)) as [Hb _]. rewrite Hb.
  rewrite (String.eqb_sym bn' bn).
  destruct (String.eqb bn bn') eqn:E; simpl; auto.
  rewrite IH by (intros c' q' Hin; apply H; now right).
  apply andb_false_r.
Qed.

(** [base_name in build.base_names] says that a part of that base name is
    stored. *)
Lemma base_names_holds bn build :
  filed build ->
  existsb (String.eqb bn) (Build.base_names build) = holds_base_name bn build.
Proof.
  intros [_ Hin]. unfold holds_base_name, Build.base_names, Build.parts.
  induction (Build._parts build) as [|[bn' g] l IH]; simpl; auto.
  rewrite existsb_app.
  rewrite (group_holds bn bn' g)
    by (intros c q Hcq; apply (Hin bn' g); [now left | assumption]).
  rewrite <- IH by (intros b0 g0 H0; apply Hin; now right).
  destruct (Nat.eqb (List.length g) 0); simpl; auto.
Qed.

Lemma keep_ext self f g refs :
  (forall i build, BuildCollection.build_at self i = Some build ->
                   f build = g build) ->
  BuildCollection.keep self f refs = BuildCollection.keep self g refs.
Proof.
  intros H. unfold BuildCollection.keep. apply filter_ext. intros i.
  destruct (BuildCollection.build_at self i) as [build|] eqn:E; auto.
  now apply (H i).
Qed.

Lemma filter_builds_base_name self batch machine materials bn :
  Forall filed (BuildCollection.builds self) ->
  BuildCollection.filter_builds self (Some batch) machine materials (Some bn)
  = Ok (BuildCollection.keep self
          (fun build => batch_step batch build && machine_step machine build
                        && holds_base_name bn build)
          (seq O (List.length (BuildCollection.builds self)))).
Proof.
  intros Hfiled. unfold BuildCollection.filter_builds.
  assert (Hbn : forall refs,
            BuildCollection.keep self
              (fun build => existsb (String.eqb bn) (Build.base_names build)) refs
            = BuildCollection.keep self (holds_base_name bn) refs).
  { intros refs. apply keep_ext. intros i build Hi.
    apply base_names_holds. rewrite Forall_forall in Hfiled.
    apply Hfiled. now apply nth_error_In in Hi. }
  destruct machine as [m|]; simpl; rewrite Hbn, !keep_keep; f_equal;
    apply keep_ext; intros i build _; unfold batch_step, machine_step.
  - now rewrite andb_assoc.
  - now rewrite andb_true_r.
Qed.

(** ** The stable descending sort *)

Section SortFacts.
Variable A : Type.
Variable key : A -> Z.

Lemma insert_desc_perm x l : Permutation (insert_desc key x l) (x :: l).
Proof.
  induction l as [|y l IH]; simpl; auto.
  destruct (key x <? key y); auto.
  rewrite IH. apply perm_swap.
Qed.

Lemma sort_desc_perm l : Permutation (sort_desc key l) l.
Proof.
  induction l as [|x l IH]; simpl; auto.
  rewrite insert_desc_perm. now constructor.
Qed.

Lemma insert_desc_sorted tie x l :
  StronglySorted (pass_order key tie) l ->
  Forall (tie x) l ->
  StronglySorted (pass_order key tie) (insert_desc key x l).
Proof.
  induction 1 as [|y l Hl IH Hy]; intros Hx; simpl.
  - repeat constructor.
  - inversion Hx as [|? ? Hxy Hxl]; subst.
    destruct (Z.ltb_spec (key x) (key y)) as [Hlt|Hge].
    + constructor; auto.
      apply (Permutation_Forall (Permutation_sym (insert_desc_perm x l))).
      constructor; auto. now left.
    + constructor; [now constructor|].
      constructor.
      * unfold pass_order. destruct (Z.eq_dec (key x) (key y)); [right|left];
          auto; lia.
      * rewrite Forall_forall in Hy, Hxl |- *. intros z Hz.
        specialize (Hy z Hz). specialize (Hxl z Hz). unfold pass_order in *.
        destruct (Z.eq_dec (key x) (key z)); [right; auto | left; lia].
Qed.

(** A pass sorts by its key and keeps, among equal keys, the order the list
    came in. *)
Lemma sort_desc_sorted tie l :
  StronglySorted tie l -> StronglySorted (pass_order key tie) (sort_desc key l).
Proof.
  induction 1 as [|x l Hl IH Hx]; simpl.
  - constructor.
  - apply insert_desc_sorted; auto.
    apply (Permutation_Forall (Permutation_sym (sort_desc_perm l))). exact Hx.
Qed.
End SortFacts.

Lemma passes_perm {A} (keys : list (A -> Z)) : forall l,
  Permutation (fold_left (fun l key => sort_desc key l) keys l) l.
Proof.
  induction keys as [|key keys IH]; intros l; simpl; auto.
  rewrite IH. apply sort_desc_perm.
Qed.

(** Passes applied one after the other sort by the last key first. *)
Lemma passes_sorted {A} (tie : A -> A -> Prop) (keys : list (A -> Z)) : forall l,
  StronglySorted tie l ->
  StronglySorted (lex_desc (rev keys) tie)
    (fold_left (fun l key => sort_desc key l) keys l).
Proof.
  induction keys as [|key keys IH] using rev_ind; intros l Hl; simpl; auto.
  rewrite fold_left_app, rev_app_distr. simpl.
  apply (sort_desc_sorted A key (lex_desc (rev keys) tie)). now apply IH.
Qed.

(** ** The order [assign_parts] puts the parts in *)

Lemma of_items_wf {V} (l : list (string * V)) : forall acc,
  Dict.wf (acc ++ l) ->
  fold_left (fun d kv => Dict.set d (fst kv) (snd kv)) l acc = acc ++ l.
Proof.
  induction l as [|[k v] l IH]; intros acc Hwf; simpl.
  - now rewrite app_nil_r.
  - destruct (NoDup_keys_middle _ _ _ _ Hwf) as [Hacc _].
    rewrite (dict_set_fresh _ acc k v) by now apply dict_get_None.
    rewrite IH; rewrite <- app_assoc; auto.
Qed.

Lemma sort_parts_ok key parts :
  Forall (fun part => Dict.mem (Test.print_materials part) key = true) parts ->
  BuildCollection.sort_parts key parts = Ok (sort_desc (quantity key) parts).
Proof.
  intros H. unfold BuildCollection.sort_parts.
  destruct (find _ parts) as [x|] eqn:E; auto.
  apply find_some in E. destruct E as [Hin Hx].
  rewrite Forall_forall in H. rewrite (H x Hin) in Hx. discriminate.
Qed.

Lemma sort_passes_ok keys : forall parts,
  Forall (fun part =>
            forall key, In key keys ->
                        Dict.mem (Test.print_materials part) key = true) parts ->
  BuildCollection.sort_passes keys parts
  = (fold_left (fun l key => sort_desc key l) (map quantity keys) parts, Ok tt).
Proof.
  induction keys as [|key keys IH]; intros parts H; simpl; auto.
  rewrite sort_parts_ok.
  - apply IH.
    apply (Permutation_Forall (Permutation_sym (sort_desc_perm _ _ parts))).
    eapply Forall_impl; [|exact H]. intros part Hp k Hk. apply Hp. now right.
  - eapply Forall_impl; [|exact H]. intros part Hp. apply Hp. now left.
Qed.

Lemma ranked_materials_ok self b0 rest :
  BuildCollection.builds self = b0 :: rest ->
  Dict.wf (Build.max_material b0) ->
  BuildCollection.ranked_materials self
  = Ok (sort_desc snd (Build.max_material b0)).
Proof.
  intros Hb Hwf. unfold BuildCollection.ranked_materials. rewrite Hb.
  unfold Dict.of_items, Dict.items, Dict.empty. f_equal.
  apply (of_items_wf _ []). simpl.
  unfold Dict.wf, Dict.keys.
  apply (Permutation_NoDup (l := map fst (Build.max_material b0))); auto.
  apply Permutation_map, Permutation_sym, sort_desc_perm.
Qed.

(** ** What a call does to the stored parts *)

Lemma adopt_parts self part : Build.parts (Stage.adopt self part) = Build.parts self.
Proof.
  unfold Build.parts.
  pose proof (adopt_fields self part) as (_ & _ & -> & _). reflexivity.
Qed.

Lemma staged_parts_list self part :
  Build.parts (Stage.seed (Stage.adopt self part) part) = Build.parts self.
Proof. now rewrite (proj1 (seed_observed _ _)), adopt_parts. Qed.

Lemma add_part_raise_parts self part ignore_checks e :
  snd (Build.add_part self part ignore_checks) = Raise e ->
  Build.parts (fst (Build.add_part self part ignore_checks)) = Build.parts self.
Proof.
  apply add_part_cases; cbn [fst snd]; intros; try discriminate;
    auto using adopt_parts, staged_parts_list.
Qed.

Lemma add_part_outcome self part ignore_checks :
  Test.print_max_samples part <> 0 ->
  snd (Build.add_part self part ignore_checks) = Ok tt
  \/ exists msg, snd (Build.add_part self part ignore_checks)
                 = Raise (RuntimeError msg).
Proof.
  intros Hk. apply add_part_cases; cbn [snd]; intros; try contradiction;
    auto; right; eexists; reflexivity.
Qed.

Lemma add_part_first self part ignore_checks :
  Build._first_part self = true ->
  Test.print_max_samples part <> 0 ->
  snd (Build.add_part self part ignore_checks) = Ok tt.
Proof.
  intros Hfirst Hk.
  assert (Hf : Stage.forced self ignore_checks = true).
  { unfold Stage.forced. now rewrite Hfirst. }
  apply add_part_cases; cbn [snd]; rewrite ?Hf; intros;
    try discriminate; try contradiction; reflexivity.
Qed.

Lemma add_part_ok_new self part :
  untouched self ->
  snd (Build.add_part self part false) = Ok tt ->
  ~ In (Test.cnd part) (Dict.keys (Build.group self (Test.base_name part))).
Proof.
  intros Hun.
  assert (Hnew : (Stage.forced self false = false ->
                  Build._batch (Stage.adopt self part) = Some (Test.batch part)
                  /\ Build._machine (Stage.adopt self part)
                     = Some (Test.machine part)
                  /\ ~ In (Test.cnd part)
                       (Dict.keys (Build.group
                          (Stage.seed (Stage.adopt self part) part)
                          (Test.base_name part)))) ->
                 ~ In (Test.cnd part)
                      (Dict.keys (Build.group self (Test.base_name part)))).
  { intros H. unfold Stage.forced in H.
    destruct (Build._first_part self) eqn:Hfirst.
    - unfold Build.group. rewrite (Hun Hfirst). simpl. tauto.
    - destruct (H eq_refl) as (_ & _ & Hn). now rewrite staged_group in Hn. }
  apply add_part_cases; cbn [snd]; intros; try discriminate; auto.
Qed.

Lemma parts_append (l : Dict.t (Dict.t Test.t)) bn g c part :
  Dict.get l bn = Some g ->
  Permutation
    (flat_map (fun kv => Dict.values (snd kv)) (Dict.set l bn (g ++ [(c, part)])))
    (part :: flat_map (fun kv => Dict.values (snd kv)) l).
Proof.
  intros Hl.
  destruct (dict_set_present _ l bn g (g ++ [(c, part)]) Hl)
    as (l1 & l2 & -> & -> & _).
  rewrite !flat_map_app. cbn [flat_map snd].
  replace (Dict.values (g ++ [(c, part)])) with (Dict.values g ++ [part])
    by (unfold Dict.values; now rewrite map_app).
  rewrite <- app_assoc. cbn [app]. apply Permutation_sym.
  rewrite (app_assoc _ (Dict.values g) (part :: _)).
  apply Permutation_cons_app. now rewrite app_assoc.
Qed.

(** A call that returns stores the part next to the parts already there. *)
Lemma add_part_ok_perm self part :
  untouched self ->
  snd (Build.add_part self part false) = Ok tt ->
  Permutation (Build.parts (fst (Build.add_part self part false)))
              (part :: Build.parts self).
Proof.
  intros Hun Hok.
  pose proof (add_part_ok_new self part Hun Hok) as Hnew.
  unfold Build.parts at 1. rewrite (add_part_ok_parts self part false Hok).
  rewrite (dict_set_fresh _ (Build.group self (Test.base_name part)))
    by now apply dict_get_None.
  rewrite <- (proj1 (seed_observed self part)). unfold Build.parts.
  apply parts_append, seed_get.
Qed.

(** ** The collection under [assign_part] *)

Lemma update_length l i b :
  List.length (BuildCollection.update l i b) = List.length l.
Proof.
  revert i. induction l as [|x l IH]; intros [|i]; simpl; auto.
Qed.

Lemma update_Forall (P : Build.t -> Prop) l i b :
  Forall P l -> P b -> Forall P (BuildCollection.update l i b).
Proof.
  intros Hl Hb. revert i.
  induction Hl as [|x l Hx Hl IH]; intros [|i]; simpl; auto.
Qed.

Lemma update_parts_same l : forall i b b',
  nth_error l i = Some b -> Build.parts b' = Build.parts b ->
  flat_map Build.parts (BuildCollection.update l i b') = flat_map Build.parts l.
Proof.
  induction l as [|x l IH]; intros [|i] b b' Hi Hp; simpl in *;
    try discriminate.
  - inversion Hi; subst. now rewrite Hp.
  - now rewrite (IH i b b').
Qed.

Lemma update_parts_perm l : forall i b b' part,
  nth_error l i = Some b ->
  Permutation (Build.parts b') (part :: Build.parts b) ->
  Permutation (flat_map Build.parts (BuildCollection.update l i b'))
              (part :: flat_map Build.parts l).
Proof.
  induction l as [|x l IH]; intros [|i] b b' part Hi Hp; simpl in *;
    try discriminate.
  - inversion Hi; subst. rewrite Hp. reflexivity.
  - rewrite (IH i b b' part Hi Hp). apply Permutation_sym, Permutation_middle.
Qed.

Lemma choice_In rnd i0 l :
  exists i rnd', choice rnd (i0 :: l) = Ok (i, rnd') /\ In i (i0 :: l).
Proof.
  unfold choice. eexists. eexists. split; [reflexivity|].
  apply nth_In. apply Nat.mod_upper_bound. discriminate.
Qed.

Lemma list_remove_In x l :
  In x l ->
  exists rest, list_remove x l = Ok rest
               /\ List.length l = S (List.length rest)
               /\ incl rest l.
Proof.
  induction l as [|y l IH]; simpl; [tauto|].
  intros Hin. destruct (Nat.eqb_spec y x) as [->|Hne].
  - exists l. repeat split; auto. apply incl_tl, incl_refl.
  - destruct Hin as [Heq|Hin]; [contradiction|].
    destruct (IH Hin) as (rest & -> & Hlen & Hincl).
    exists (y :: rest). simpl. repeat split; auto.
    intros z [->|Hz]; [now left | right; now apply Hincl].
Qed.

Lemma assign_loop_step fuel self part eligible_builds eligible_builds_lazy rnd :
  BuildCollection.assign_loop (S fuel) self part eligible_builds
    eligible_builds_lazy rnd
  = let attempt (self : BuildCollection.t) (expected_build : nat) (rnd : Rng) :=
      match BuildCollection.build_at self expected_build with
      | None => Some (self, rnd, Raise IndexError)
      | Some b =>
          match Build.add_part b part false with
          | (b', Ok _) =>
              Some (BuildCollection.set_build self expected_build b', rnd, Ok tt)
          | (b', Raise (RuntimeError _)) =>
              match list_remove expected_build eligible_builds with
              | Ok rest =>
                  BuildCollection.assign_loop fuel
                    (BuildCollection.set_build self expected_build b') part
                    rest eligible_builds_lazy rnd
              | Raise e =>
                  Some (BuildCollection.set_build self expected_build b', rnd,
                        Raise e)
              end
          | (b', Raise e) =>
              Some (BuildCollection.set_build self expected_build b', rnd,
                    Raise e)
          end
      end in
    match choice rnd eligible_builds with
    | Ok (expected_build, rnd) => attempt self expected_build rnd
    | Raise _ =>
        match eligible_builds_lazy with
        | Some lazy => BuildCollection.assign_loop fuel self part lazy None rnd
        | None =>
            let (self, expected_build) := BuildCollection.spawn_build self in
            attempt self expected_build rnd
        end
    end.
Proof. reflexivity. Qed.

Lemma placed_refl_step part self i b b' self' :
  BuildCollection.build_at self i = Some b ->
  Build.parts b' = Build.parts b ->
  untouched b' ->
  placed part (BuildCollection.set_build self i b') self' ->
  Forall untouched (BuildCollection.builds self) ->
  placed part self self'.
Proof.
  intros Hi Hp Hb' (Hperm & Hun & Hlen) _. unfold placed.
  unfold BuildCollection.all_parts, BuildCollection.set_build in *.
  simpl in *. rewrite (update_parts_same _ i b b' Hi Hp) in Hperm.
  rewrite update_length in Hlen. auto.
Qed.

Lemma untouched_after self part ignore_checks :
  untouched (fst (Build.add_part self part ignore_checks)).
Proof.
  intros Hc. pose proof (add_part_constant self part ignore_checks)
    as (_ & _ & Hf).
  cbv zeta in Hf. congruence.
Qed.

(** The loop of [assign_part] returns within [attempts_left] iterations
    and one more, whatever the draws, and has then placed the part. *)
Lemma assign_loop_places part :
  Test.print_max_samples part <> 0 ->
  forall fuel self eligible lazy rnd,
    Forall untouched (BuildCollection.builds self) ->
    valid_refs self eligible ->
    (forall l, lazy = Some l -> valid_refs self l) ->
    (attempts_left eligible lazy < fuel)%nat ->
    exists self' rnd',
      BuildCollection.assign_loop fuel self part eligible lazy rnd
      = Some (self', rnd', Ok tt)
      /\ placed part self self'.
Proof.
  intros Hk. induction fuel as [|fuel IH];
    intros self eligible lazy rnd Hun Hel Hlz Hfuel; [lia|].
  rewrite assign_loop_step. cbv zeta.
  destruct eligible as [|i0 eligible].
  - (* nothing left to choose from *)
    cbn [choice]. destruct lazy as [l|].
    + (* fall back on the lazy list *)
      apply IH;
        [assumption | now apply Hlz | discriminate
        | unfold attempts_left in *; simpl in *; lia].
    + (* spawn a Build: its first addition is forced *)
      unfold BuildCollection.spawn_build, BuildCollection.build_at.
      cbn [BuildCollection.builds].
      rewrite nth_error_app2, Nat.sub_diag by lia. cbn [nth_error].
      set (fresh := BuildCollection.new_build _ _).
      pose proof (add_part_first fresh part false eq_refl Hk) as Hok.
      destruct (Build.add_part fresh part false) as [b' r] eqn:Hadd.
      cbn [snd] in Hok. subst r.
      eexists. eexists. split; [reflexivity|].
      assert (Hfresh : untouched fresh) by (intros _; reflexivity).
      pose proof (add_part_ok_perm fresh part Hfresh) as Hperm.
      rewrite Hadd in Hperm. cbn [fst snd] in Hperm.
      specialize (Hperm eq_refl).
      unfold placed, BuildCollection.all_parts, BuildCollection.set_build.
      cbn [BuildCollection.builds]. split; [|split].
      * rewrite (update_parts_perm _ _ fresh b' part); auto.
        -- now rewrite flat_map_app, app_nil_r.
        -- now rewrite nth_error_app2, Nat.sub_diag by lia.
      * apply update_Forall.
        -- apply Forall_app. split; auto.
        -- pose proof (untouched_after fresh part false) as Hu.
           now rewrite Hadd in Hu.
      * rewrite update_length, length_app. simpl. lia.
  - (* a candidate is drawn *)
    destruct (choice_In rnd i0 eligible) as (i & rnd' & -> & Hi).
    assert (Hlt : (i < List.length (BuildCollection.builds self))%nat).
    { unfold valid_refs in Hel. rewrite Forall_forall in Hel. now apply Hel. }
    destruct (BuildCollection.build_at self i) as [b|] eqn:Hb.
    2:{ apply nth_error_None in Hb. lia. }
    pose proof (untouched_after b part false) as Hu'.
    destruct (add_part_outcome b part false Hk) as [Hok|[msg Hraise]].
    + pose proof (add_part_ok_perm b part) as Hperm.
      destruct (Build.add_part b part false) as [b' r] eqn:Hadd.
      cbn [fst snd] in *. subst r.
      eexists. eexists. split; [reflexivity|].
      unfold placed, BuildCollection.all_parts, BuildCollection.set_build.
      cbn [BuildCollection.builds]. split; [|split].
      * apply (update_parts_perm _ _ b b' part); auto.
        apply Hperm; auto. rewrite Forall_forall in Hun. apply Hun.
        now apply nth_error_In in Hb.
      * now apply update_Forall.
      * rewrite update_length. lia.
    + pose proof (add_part_raise_parts b part false _ Hraise) as Hparts.
      destruct (Build.add_part b part false) as [b' r] eqn:Hadd.
      cbn [fst snd] in *. subst r.
      destruct (list_remove_In i (i0 :: eligible) Hi)
        as (rest & -> & Hlen & Hincl).
      set (self1 := BuildCollection.set_build self i b').
      assert (Hlen1 : List.length (BuildCollection.builds self1)
                      = List.length (BuildCollection.builds self)).
      { apply update_length. }
      destruct (IH self1 rest lazy rnd') as (self' & rnd'' & Hrun & Hplaced).
      * now apply update_Forall.
      * unfold valid_refs in *. rewrite Hlen1.
        rewrite Forall_forall in Hel |- *. intros j Hj. apply Hel.
        now apply Hincl.
      * intros l Hl. unfold valid_refs in *. rewrite Hlen1. now apply Hlz.
      * unfold attempts_left in *. lia.
      * exists self', rnd''. split; [assumption|].
        now apply (placed_refl_step part self i b b').
Qed.

Lemma keep_sub self f refs :
  incl (BuildCollection.keep self f refs) refs
  /\ (List.length (BuildCollection.keep self f refs) <= List.length refs)%nat.
Proof.
  unfold BuildCollection.keep. split.
  - apply incl_filter.
  - apply filter_length_le.
Qed.

Lemma material_steps_sub self materials : forall bs,
  exists bs',
    fold_left
      (fun acc kv =>
         builds_var <- acc ;;
         bs <- BuildCollection.local builds_var ;;
         Ok (Some (BuildCollection.keep self
                     (fun build =>
                        Dict.get0 (Build.max_material build) (fst kv)
                          - Dict.get0 (Build.print_materials build) (fst kv)
                        >=? snd kv)
                     bs)))
      materials (Ok (Some bs))
    = Ok (Some bs')
    /\ incl bs' bs /\ (List.length bs' <= List.length bs)%nat.
Proof.
  induction materials as [|kv materials IH]; intros bs; simpl.
  - exists bs. repeat split; auto. apply incl_refl.
  - destruct (IH (BuildCollection.keep self
                    (fun build =>
                       Dict.get0 (Build.max_material build) (fst kv)
                         - Dict.get0 (Build.print_materials build) (fst kv)
                       >=? snd kv) bs)) as (bs' & -> & Hincl & Hlen).
    destruct (keep_sub self
                (fun build =>
                   Dict.get0 (Build.max_material build) (fst kv)
                     - Dict.get0 (Build.print_materials build) (fst kv)
                   >=? snd kv) bs) as [Hi Hl].
    exists bs'. repeat split; auto.
    + eapply incl_tran; eauto.
    + lia.
Qed.

(** With [batch] given, [filter_builds] returns references into the
    collection, at most one per Build. *)
Lemma filter_builds_refs self batch machine materials base_name :
  exists refs,
    BuildCollection.filter_builds self (Some batch) machine materials base_name
    = Ok refs
    /\ valid_refs self refs
    /\ (List.length refs <= List.length (BuildCollection.builds self))%nat.
Proof.
  unfold BuildCollection.filter_builds.
  set (all := seq O (List.length (BuildCollection.builds self))).
  set (s1 := BuildCollection.keep self _ all).
  assert (H1 : incl s1 all /\ (List.length s1 <= List.length all)%nat)
    by apply keep_sub.
  assert (Hall : forall refs, incl refs all ->
                 (List.length refs <= List.length all)%nat ->
                 valid_refs self refs
                 /\ (List.length refs
                     <= List.length (BuildCollection.builds self))%nat).
  { intros refs Hincl Hlen. split.
    - apply Forall_forall. intros i Hi. apply Hincl in Hi.
      apply in_seq in Hi. lia.
    - unfold all in Hlen. now rewrite length_seq in Hlen. }
  assert (Hrest : forall s2, incl s2 all ->
            (List.length s2 <= List.length all)%nat ->
            exists refs,
              (builds_var <-
                 match base_name with
                 | Some bn =>
                     bs <- BuildCollection.local (Some s2) ;;
                     Ok (Some (BuildCollection.keep self
                                 (fun build =>
                                    existsb (String.eqb bn)
                                      (Build.base_names build)) bs))
                 | None =>
                     fold_left
                       (fun acc kv =>
                          builds_var <- acc ;;
                          bs <- BuildCollection.local builds_var ;;
                          Ok (Some (BuildCollection.keep self
                                      (fun build =>
                                         Dict.get0 (Build.max_material build)
                                           (fst kv)
                                         - Dict.get0
                                             (Build.print_materials build)
                                             (fst kv)
                                         >=? snd kv) bs)))
                       (Dict.items materials) (Ok (Some s2))
                 end ;;
               BuildCollection.local builds_var) = Ok refs
              /\ valid_refs self refs
              /\ (List.length refs
                  <= List.length (BuildCollection.builds self))%nat).
  { intros s2 Hincl Hlen. destruct base_name as [bn|].
    - simpl. eexists. split; [reflexivity|].
      destruct (keep_sub self
                  (fun build => existsb (String.eqb bn) (Build.base_names build))
                  s2) as [Hi Hl].
      apply Hall; [eapply incl_tran; eauto | lia].
    - destruct (material_steps_sub self (Dict.items materials) s2)
        as (bs' & -> & Hi & Hl).
      simpl. eexists. split; [reflexivity|].
      apply Hall; [eapply incl_tran; eauto | lia]. }
  destruct H1 as [Hi1 Hl1].
  destruct machine as [m|]; cbn [bind BuildCollection.local].
  - destruct (keep_sub self
                (fun build => option_Z_eqb (Build.machine build) (Some m)
                              || option_Z_eqb (Build.machine build) None) s1)
      as [Hi2 Hl2].
    apply Hrest; [eapply incl_tran; eauto | lia].
  - now apply Hrest.
Qed.

(** [assign_part] returns and has placed the part. *)
Lemma assign_part_places part fuel self rnd :
  Test.print_max_samples part <> 0 ->
  Forall untouched (BuildCollection.builds self) ->
  (2 * List.length (BuildCollection.builds self) + 1 < fuel)%nat ->
  exists self' rnd',
    BuildCollection.assign_part fuel self part rnd = Some (self', rnd', Ok tt)
    /\ placed part self self'.
Proof.
  intros Hk Hun Hfuel. unfold BuildCollection.assign_part.
  destruct (filter_builds_refs self (Test.batch part)
              (Some (Test.machine part)) (Test.print_materials part) None)
    as (lazy & -> & Hlz & Hlzlen).
  destruct (filter_builds_refs self (Test.batch part)
              (Some (Test.machine part)) Dict.empty
              (Some (Test.base_name part)))
    as (eligible & -> & Hel & Hellen).
  apply assign_loop_places; auto.
  - intros l Hl. now inversion Hl; subst.
  - unfold attempts_left. lia.
Qed.

(** [for part in parts: self.assign_part(part)] returns and has placed
    every part. *)
Lemma assign_each_places parts : forall fuel self rnd,
  Forall (fun part => Test.print_max_samples part <> 0) parts ->
  Forall untouched (BuildCollection.builds self) ->
  (2 * (List.length (BuildCollection.builds self) + List.length parts) + 1
   < fuel)%nat ->
  exists self' rnd',
    BuildCollection.assign_each fuel self parts rnd = Some (self', rnd', Ok tt)
    /\ Permutation (BuildCollection.all_parts self')
                   (BuildCollection.all_parts self ++ parts)
    /\ Forall untouched (BuildCollection.builds self').
Proof.
  induction parts as [|part parts IH]; intros fuel self rnd Hk Hun Hfuel;
    simpl.
  - exists self, rnd. rewrite app_nil_r. auto.
  - inversion Hk as [|? ? Hk1 Hks]; subst. simpl in Hfuel.
    destruct (assign_part_places part fuel self rnd Hk1 Hun)
      as (self1 & rnd1 & -> & Hperm1 & Hun1 & Hlen1); [lia|].
    destruct (IH fuel self1 rnd1 Hks Hun1) as (self' & rnd' & -> & Hperm & Hun');
      [lia|].
    exists self', rnd'. repeat split; auto.
    rewrite Hperm, Hperm1. simpl. apply Permutation_middle.
Qed.

Lemma of_items_keys {V} (l : list (string * V)) : forall acc k,
  In k (Dict.keys (fold_left (fun d kv => Dict.set d (fst kv) (snd kv)) l acc)) ->
  In k (Dict.keys acc) \/ In k (Dict.keys l).
Proof.
  induction l as [|[k0 v0] l IH]; intros acc k Hin; simpl in *; auto.
  apply IH in Hin. destruct Hin as [Hin|Hin]; auto.
  apply dict_keys_set in Hin. destruct Hin as [->|Hin]; auto.
Qed.

Lemma ranked_materials_keys self b0 rest :
  BuildCollection.builds self = b0 :: rest ->
  exists ranked,
    BuildCollection.ranked_materials self = Ok ranked
    /\ forall key, In key (Dict.keys ranked) ->
                   In key (Dict.keys (Build.max_material b0)).
Proof.
  intros Hb. unfold BuildCollection.ranked_materials. rewrite Hb.
  eexists. split; [reflexivity|]. intros key Hin.
  unfold Dict.of_items in Hin. apply of_items_keys in Hin.
  destruct Hin as [[]|Hin]. unfold Dict.keys, Dict.items in *.
  eapply Permutation_in; [|exact Hin].
  apply Permutation_map, sort_desc_perm.
Qed.

(** [assign_parts] returns and has placed every part. *)
Lemma assign_parts_places self parts b0 rest rnd fuel :
  BuildCollection.builds self = b0 :: rest ->
  Forall untouched (BuildCollection.builds self) ->
  Forall (fun part =>
            Test.print_max_samples part <> 0
            /\ forall key, In key (Dict.keys (Build.max_material b0)) ->
                           Dict.mem (Test.print_materials part) key = true)
         parts ->
  (2 * (List.length (BuildCollection.builds self) + List.length parts) + 1
   < fuel)%nat ->
  exists self' sorted rnd',
    BuildCollection.assign_parts fuel self parts rnd
    = Some (self', sorted, rnd', Ok tt)
    /\ Permutation sorted parts
    /\ Permutation (BuildCollection.all_parts self')
                   (BuildCollection.all_parts self ++ parts).
Proof.
  intros Hb Hun Hparts Hfuel. unfold BuildCollection.assign_parts.
  destruct (ranked_materials_keys self b0 rest Hb) as (ranked & -> & Hkeys).
  rewrite sort_passes_ok.
  2:{ eapply Forall_impl; [|exact Hparts]. intros part [_ Hp] key Hin.
      apply Hp, Hkeys, Hin. }
  set (sorted := fold_left _ _ parts).
  assert (Hperm : Permutation sorted parts) by apply passes_perm.
  destruct (assign_each_places sorted fuel self rnd)
    as (self' & rnd' & -> & Hall & _); auto.
  - apply (Permutation_Forall (Permutation_sym Hperm)).
    eapply Forall_impl; [|exact Hparts]. now intros part [Hk _].
  - rewrite (Permutation_length Hperm). lia.
  - exists self', sorted, rnd'. repeat split; auto.
    rewrite Hall. now apply Permutation_app_head.
Qed.

(** A decision procedure for [within_capacity], for Builds whose capacities
    are not negative. *)
Lemma within_capacity_check self :
  forallb (fun kv => snd kv <=? Dict.get0 (Build.max_material self) (fst kv))
          (Build.print_materials self) = true ->
  forallb (fun kv => 0 <=? snd kv) (Build.max_material self) = true ->
  within_capacity self.
Proof.
  intros Hused Hmax m. rewrite forallb_forall in Hused, Hmax.
  unfold Dict.get0 at 1.
  destruct (Dict.get (Build.print_materials self) m) as [v|] eqn:Ev.
  - apply dict_get_In in Ev. apply Hused in Ev. simpl in Ev. lia.
  - unfold Dict.get0.
    destruct (Dict.get (Build.max_material self) m) as [c|] eqn:Ec; [|lia].
    apply dict_get_In in Ec. apply Hmax in Ec. simpl in Ec. lia.
Qed.

(** * The claims *)

(** ** C1: capacity *)

(** C1, as stated, fails: the first call on a Build is forced even when
    made with [ignore_checks=False], so a first part larger than the
    capacity is stored and charged. *)
Lemma C1_first_call_exceeds_capacity :
  snd (Build.add_part Scenario.empty_build Scenario.part_XL false) = Ok tt
  /\ Dict.get0 (Build.print_materials
                  (fst (Build.add_part Scenario.empty_build Scenario.part_XL false)))
               "CFA" = 60
  /\ Dict.get0 (Build.max_material
                  (fst (Build.add_part Scenario.empty_build Scenario.part_XL false)))
               "CFA" = 50
  /\ ~ Forall within_capacity (states Scenario.empty_build [Scenario.part_XL]).
Proof.
  repeat split; try reflexivity.
  intros H. inversion H as [|? ? Hcap _]; subst.
  specialize (Hcap "CFA"). vm_compute in Hcap. now apply Hcap.
Qed.

(** C1 (amended): for every Build past its first part whose usage is within
    capacity, and every sequence of [add_part] calls made with
    [ignore_checks=False], the accumulated [print_materials[m]] never exceeds
    [max_material[m]], for every material [m], at any point of the
    sequence. *)
Theorem C1_capacity_respected_past_first_part self parts :
  Build._first_part self = false ->
  Forall (fun part => Dict.wf (Test.print_materials part)) parts ->
  within_capacity self ->
  Forall within_capacity (states self parts).
Proof. apply states_within_capacity. Qed.

Lemma C1_capacity_respected_witness :
  Build._first_part Scenario.build_A = false
  /\ Forall (fun part => Dict.wf (Test.print_materials part))
       [Scenario.part_C; Scenario.part_E; Scenario.part_A]
  /\ within_capacity Scenario.build_A
  /\ Forall within_capacity
       (states Scenario.build_A
          [Scenario.part_C; Scenario.part_E; Scenario.part_A]).
Proof.
  assert (H1 : Build._first_part Scenario.build_A = false) by reflexivity.
  assert (H2 : Forall (fun part => Dict.wf (Test.print_materials part))
                 [Scenario.part_C; Scenario.part_E; Scenario.part_A]).
  { repeat constructor; simpl; intuition discriminate. }
  assert (H3 : within_capacity Scenario.build_A).
  { apply within_capacity_check; reflexivity. }
  split; [exact H1|]. split; [exact H2|]. split; [exact H3|].
  exact (C1_capacity_respected_past_first_part Scenario.build_A _ H1 H2 H3).
Defined.

(** ** C2: a failed call *)

(** C2, as stated, fails: [add_part] seeds the group of the part's base
    name before the duplicate and material checks, so a call that then
    raises leaves the empty group behind. *)
Lemma C2_failed_call_seeds_group :
  snd (Build.add_part Scenario.build_A Scenario.part_D false)
  = Raise (MaterialExceeded "CFA")
  /\ Build._parts (fst (Build.add_part Scenario.build_A Scenario.part_D false))
     = Build._parts Scenario.build_A ++ [("D256", [])]
  /\ fst (Build.add_part Scenario.build_A Scenario.part_D false)
     <> Scenario.build_A.
Proof.
  repeat split; try reflexivity.
  intros H. apply (f_equal (fun b => List.length (Build._parts b))) in H.
  vm_compute in H. discriminate H.
Qed.

(** C2 (amended): whenever [add_part] fails with one of its four failures
    on a Build the program can construct, the name, capacities, batch,
    machine, first-part flag, accumulated [print_time] and
    [print_materials], the flattened list of stored parts and the base
    names are exactly as before the call; the internal mapping of groups is
    as before too, except that a material failure on a base name not yet
    in the mapping leaves an empty group for it. *)
Theorem C2_failed_call_keeps_accounts self part ignore_checks msg :
  reachable self ->
  snd (Build.add_part self part ignore_checks) = Raise (RuntimeError msg) ->
  let s := fst (Build.add_part self part ignore_checks) in
  same_accounts s self
  /\ (Build._parts s = Build._parts self
      \/ (Dict.get (Build._parts self) (Test.base_name part) = None
          /\ Build._parts s = Build._parts self ++ [(Test.base_name part, [])]
          /\ exists key, RuntimeError msg = MaterialExceeded key)).
Proof.
  intros Hreach. apply add_part_failure. now apply reachable_settled.
Qed.

Lemma C2_failed_call_witness :
  reachable Scenario.build_A
  /\ snd (Build.add_part Scenario.build_A Scenario.part_C false)
     = Raise (RuntimeError "Part uses too much CFA")
  /\ same_accounts (fst (Build.add_part Scenario.build_A Scenario.part_C false))
       Scenario.build_A.
Proof.
  assert (H1 : reachable Scenario.build_A) by (repeat constructor).
  assert (H2 : snd (Build.add_part Scenario.build_A Scenario.part_C false)
               = Raise (RuntimeError "Part uses too much CFA"))
    by reflexivity.
  split; [exact H1|]. split; [exact H2|].
  exact (proj1 (C2_failed_call_keeps_accounts Scenario.build_A Scenario.part_C
                  false _ H1 H2)).
Defined.

(** ** C3: termination and coverage of [assign_parts] *)

(** C3, as stated, fails: the sorting passes index every part by every
    material of the first Build, so a part that does not mention one of
    them stops [assign_parts] with [KeyError] before any part is assigned;
    a collection created without Builds stops it with [IndexError]; and a
    part whose group size is 0 stops it with the [ZeroDivisionError] of
    [add_part], which [assign_part] does not catch. *)
Lemma C3_assign_parts_raises :
  (forall fuel rnd,
     BuildCollection.assign_parts fuel Scenario.collection [Scenario.part_A] rnd
     = Some (Scenario.collection, [Scenario.part_A], rnd, Raise (KeyError "OFA")))
  /\ (forall fuel rnd,
        BuildCollection.assign_parts fuel Scenario.empty_collection
          [Scenario.part_E] rnd
        = Some (Scenario.empty_collection, [Scenario.part_E], rnd,
                Raise IndexError))
  /\ (forall rnd,
        exists self' rnd',
          BuildCollection.assign_parts 10 Scenario.collection
            [Scenario.part_Z] rnd
          = Some (self', [Scenario.part_Z], rnd', Raise ZeroDivisionError)
          /\ BuildCollection.all_parts self' = []).
Proof.
  split; [|split]; try reflexivity.
  intros rnd. eexists. eexists. split; reflexivity.
Qed.

(** C3 (amended): for every collection with at least one Build, whose
    Builds are Builds the program can construct, and every finite list of
    parts that each give a quantity for every material of the first Build
    and have a group size other than 0, [assign_parts] returns normally
    whatever the random draws (within an explicit number of loop
    iterations), and the parts held by the Builds afterwards are the parts
    held before together with every part of the list, each once. *)
Theorem C3_assign_parts_places_every_part self parts b0 rest rnd fuel :
  BuildCollection.builds self = b0 :: rest ->
  Forall reachable (BuildCollection.builds self) ->
  Forall (fun part =>
            Test.print_max_samples part <> 0
            /\ forall key, In key (Dict.keys (Build.max_material b0)) ->
                           Dict.mem (Test.print_materials part) key = true)
         parts ->
  (2 * (List.length (BuildCollection.builds self) + List.length parts) + 1
   < fuel)%nat ->
  exists self' sorted rnd',
    BuildCollection.assign_parts fuel self parts rnd
    = Some (self', sorted, rnd', Ok tt)
    /\ Permutation sorted parts
    /\ Permutation (BuildCollection.all_parts self')
                   (BuildCollection.all_parts self ++ parts).
Proof.
  intros Hb Hreach. apply assign_parts_places with (rest := rest); auto.
  eapply Forall_impl; [|exact Hreach]. apply reachable_untouched.
Qed.

Lemma C3_assign_parts_witness :
  BuildCollection.builds Scenario.collection = [Scenario.empty_build]
  /\ Forall reachable (BuildCollection.builds Scenario.collection)
  /\ Forall (fun part =>
               Test.print_max_samples part <> 0
               /\ forall key,
                    In key (Dict.keys (Build.max_material Scenario.empty_build)) ->
                    Dict.mem (Test.print_materials part) key = true)
            [Scenario.part_E; Scenario.part_F]
  /\ exists self' sorted rnd',
       BuildCollection.assign_parts 8 Scenario.collection
         [Scenario.part_E; Scenario.part_F] (fun n => n)
       = Some (self', sorted, rnd', Ok tt)
       /\ Permutation sorted [Scenario.part_E; Scenario.part_F]
       /\ Permutation (BuildCollection.all_parts self')
            (BuildCollection.all_parts Scenario.collection
             ++ [Scenario.part_E; Scenario.part_F]).
Proof.
  assert (H1 : BuildCollection.builds Scenario.collection
               = [Scenario.empty_build]) by reflexivity.
  assert (H2 : Forall reachable (BuildCollection.builds Scenario.collection))
    by (repeat constructor).
  assert (H3 : Forall (fun part =>
                 Test.print_max_samples part <> 0
                 /\ forall key,
                      In key (Dict.keys (Build.max_material Scenario.empty_build)) ->
                      Dict.mem (Test.print_materials part) key = true)
              [Scenario.part_E; Scenario.part_F]).
  { repeat constructor; try discriminate;
      intros key [<-|[<-|[]]]; reflexivity. }
  assert (H4 : (2 * (List.length (BuildCollection.builds Scenario.collection)
                     + List.length [Scenario.part_E; Scenario.part_F]) + 1
                < 8)%nat).
  { apply Nat.ltb_lt. reflexivity. }
  split; [exact H1|]. split; [exact H2|]. split; [exact H3|].
  exact (C3_assign_parts_places_every_part Scenario.collection
           [Scenario.part_E; Scenario.part_F]
           Scenario.empty_build [] (fun n => n) 8%nat H1 H2 H3 H4).
Defined.

(** ** C4: batch and machine *)

(** C4, as stated, fails twice.  A Build created with its batch already set
    is still before its first part, whose addition is forced: a part of
    another batch is accepted by a call made with [ignore_checks=False].
    And the batch is checked before the machine: a part that differs in
    both fails with the batch failure, not the machine failure. *)
Lemma C4_preset_batch_and_check_order :
  (Build._batch Scenario.preset_build = Some 0
   /\ Test.batch Scenario.part_B1 = 1
   /\ snd (Build.add_part Scenario.preset_build Scenario.part_B1 false) = Ok tt
   /\ Build.parts (fst (Build.add_part Scenario.preset_build Scenario.part_B1 false))
      = [Scenario.part_B1])
  /\ (Build._first_part Scenario.build_A = false
      /\ Build._machine Scenario.build_A = Some 0
      /\ Test.machine Scenario.part_B1 = 1
      /\ snd (Build.add_part Scenario.build_A Scenario.part_B1 false)
         = Raise BatchMismatch
      /\ Raise (A := unit) BatchMismatch <> Raise MachineMismatch).
Proof. repeat split; try reflexivity. discriminate. Qed.

(** C4 (amended): for every Build whose batch (respectively machine) is
    non-null, the value never changes under any [add_part] call, forced or
    not.  For every such Build past its first part, every call made with
    [ignore_checks=False] whose part has a different batch fails with the
    batch failure, and one whose part has the Build's batch but a different
    machine fails with the machine failure. *)
Theorem C4_batch_machine_fixed self part :
  (forall ignore_checks b,
     Build._batch self = Some b ->
     Build._batch (fst (Build.add_part self part ignore_checks)) = Some b)
  /\ (forall ignore_checks m,
        Build._machine self = Some m ->
        Build._machine (fst (Build.add_part self part ignore_checks)) = Some m)
  /\ (forall b,
        Build._first_part self = false ->
        Build._batch self = Some b -> b <> Test.batch part ->
        snd (Build.add_part self part false) = Raise BatchMismatch)
  /\ (forall m,
        Build._first_part self = false ->
        Build._batch self = Some (Test.batch part) ->
        Build._machine self = Some m -> m <> Test.machine part ->
        snd (Build.add_part self part false) = Raise MachineMismatch).
Proof.
  split; [|split; [|split]].
  - intros ign b. apply add_part_keeps_batch.
  - intros ign m. apply add_part_keeps_machine.
  - apply add_part_batch_mismatch.
  - apply add_part_machine_mismatch.
Qed.

Lemma C4_batch_machine_witness :
  (Build._first_part Scenario.build_A = false
   /\ Build._batch Scenario.build_A = Some 0
   /\ 0 <> Test.batch Scenario.part_B1)
  /\ Build._batch (fst (Build.add_part Scenario.build_A Scenario.part_B1 true))
     = Some 0
  /\ snd (Build.add_part Scenario.build_A Scenario.part_B1 false)
     = Raise BatchMismatch.
Proof.
  assert (H1 : Build._first_part Scenario.build_A = false) by reflexivity.
  assert (H2 : Build._batch Scenario.build_A = Some 0) by reflexivity.
  assert (H3 : 0 <> Test.batch Scenario.part_B1) by discriminate.
  destruct (C4_batch_machine_fixed Scenario.build_A Scenario.part_B1)
    as (Hkeep & _ & Hbatch & _).
  split; [repeat split; assumption|]. split.
  - exact (Hkeep true 0 H2).
  - exact (Hbatch 0 H1 H2 H3).
Defined.

(** ** C5: print groups *)

(** C5: for parts of one base name with [print_max_samples = k] and
    distinct conditions, added to a Build that holds none of that base name,
    [2k] successful additions charge [print_time] and [print_materials]
    exactly twice, for the first part (stored count 0) and for part [k+1]
    (stored count [k]): the print time is the time before plus the times
    of those two parts, and the usage of every material is the usage before
    plus the quantities those two parts require of it, nothing being added
    for the other [2k - 2] parts; and any addition at a stored count not
    divisible by [print_max_samples] leaves both accounts alone and never
    fails on material. *)
Theorem C5_grouping_accounting bn k first rest1 next rest2 self s :
  let calls := first :: rest1 ++ next :: rest2 in
  1 <= k ->
  same_kind bn k calls ->
  NoDup (map (fun c => Test.cnd (fst c)) calls) ->
  Build.group self bn = [] ->
  Z.of_nat (List.length rest1) = k - 1 ->
  Z.of_nat (List.length rest2) = k - 1 ->
  add_all self calls = Some s ->
  (Build.print_time s
   = Build.print_time self + Test.print_time (fst first)
     + Test.print_time (fst next)
   /\ Build.print_materials s
      = Build.charge
          (Build.charge (Build.print_materials self)
             (Test.print_materials (fst first)))
          (Test.print_materials (fst next))
   /\ (Dict.wf (Test.print_materials (fst first)) ->
       Dict.wf (Test.print_materials (fst next)) ->
       forall key,
         Dict.get0 (Build.print_materials s) key
         = Dict.get0 (Build.print_materials self) key
           + Dict.get0 (Test.print_materials (fst first)) key
           + Dict.get0 (Test.print_materials (fst next)) key)
   /\ Z.of_nat (List.length (Build.group s bn)) = 2 * k)
  /\ forall self' part ignore_checks,
       Test.print_max_samples part <> 0 ->
       Z.of_nat (List.length (Build.group self' (Test.base_name part)))
         mod Test.print_max_samples part <> 0 ->
       let r := Build.add_part self' part ignore_checks in
       Build.print_time (fst r) = Build.print_time self'
       /\ Build.print_materials (fst r) = Build.print_materials self'
       /\ forall key, snd r <> Raise (MaterialExceeded key).
Proof.
  intros calls Hk Hkind Hnd Hempty Hl1 Hl2 Hrun. split.
  - assert (Hfresh : fresh_conditions bn self calls).
    { split; auto. rewrite Hempty. simpl. tauto. }
    destruct (add_all_two_groups bn k Hk first rest1 next rest2 self s
                Hkind Hfresh Hempty Hl1 Hl2 Hrun) as (Htime & Hmats & Hlen).
    split; [exact Htime|]. split; [exact Hmats|]. split; [|exact Hlen].
    intros Hwf1 Hwf2 key. unfold Build.print_materials in Hmats |- *.
    rewrite Hmats. now rewrite !charge_get0 by assumption.
  - intros self' part ign Hk' Hmod. apply add_part_shared_group; auto.
    unfold Stage.opens_group. now apply Z.eqb_neq.
Qed.

Lemma C5_grouping_accounting_witness :
  add_all Scenario.empty_build Scenario.pair_calls = Some Scenario.pair_build
  /\ Build.print_time Scenario.pair_build = 0 + 100 + 300
  /\ Build.print_materials Scenario.pair_build
     = Build.charge (Build.charge [] [("OFA", 100)]) [("OFA", 300)]
  /\ Dict.get0 (Build.print_materials Scenario.pair_build) "OFA"
     = 0 + 100 + 300
  /\ Z.of_nat (List.length (Build.group Scenario.pair_build "D790")) = 2 * 2.
Proof.
  assert (Hrun : add_all Scenario.empty_build Scenario.pair_calls
                 = Some Scenario.pair_build) by (vm_compute; reflexivity).
  split; [exact Hrun|].
  assert (Hwf : forall q : Z, Dict.wf [("OFA", q)]).
  { intros q. repeat constructor. simpl. tauto. }
  cut (Build.print_time Scenario.pair_build = 0 + 100 + 300
       /\ Build.print_materials Scenario.pair_build
          = Build.charge (Build.charge [] [("OFA", 100)]) [("OFA", 300)]
       /\ (Dict.wf [("OFA", 100)] -> Dict.wf [("OFA", 300)] ->
           forall key,
             Dict.get0 (Build.print_materials Scenario.pair_build) key
             = Dict.get0 (Build.print_materials Scenario.empty_build) key
               + Dict.get0 [("OFA", 100)] key + Dict.get0 [("OFA", 300)] key)
       /\ Z.of_nat (List.length (Build.group Scenario.pair_build "D790"))
          = 2 * 2).
  { intros (Ht & Hm & Hkey & Hl). split; [exact Ht|]. split; [exact Hm|].
    split; [|exact Hl]. exact (Hkey (Hwf 100) (Hwf 300) "OFA"). }
  refine (proj1 (C5_grouping_accounting "D790" 2
                   (Scenario.pair_part "RTD" 100, false)
                   [(Scenario.pair_part "ETW" 200, false)]
                   (Scenario.pair_part "CTD" 300, false)
                   [(Scenario.pair_part "ETD" 400, false)]
                   Scenario.empty_build Scenario.pair_build _ _ _ _ _ _ Hrun)).
  - discriminate.
  - repeat constructor.
  - repeat constructor; simpl; intuition discriminate.
  - reflexivity.
  - reflexivity.
  - reflexivity.
Defined.

(** ** C6: the order of assignment *)

(** C6, as stated, fails: a pass sorts by [x.print_materials[key]], so a
    part that gives no quantity for a material of the first Build stops
    the first pass that asks for it with [KeyError].  The list is then left
    in the order it came in, here with the smaller quantity of the scarcest
    material first, and no part is assigned. *)
Lemma C6_missing_quantity_stops_the_sort :
  (forall fuel rnd,
     BuildCollection.assign_parts fuel Scenario.collection
       [Scenario.part_A; Scenario.part_C] rnd
     = Some (Scenario.collection, [Scenario.part_A; Scenario.part_C], rnd,
             Raise (KeyError "OFA")))
  /\ Dict.keys (sort_desc snd (Build.max_material Scenario.empty_build))
     = ["OFA"; "CFA"]
  /\ Dict.mem (Test.print_materials Scenario.part_A) "OFA" = false
  /\ quantity "CFA" Scenario.part_A < quantity "CFA" Scenario.part_C
  /\ ~ StronglySorted
        (lex_desc [quantity "CFA"; quantity "OFA"] (fun _ _ => True))
        [Scenario.part_A; Scenario.part_C].
Proof.
  split; [reflexivity|]. split; [reflexivity|]. split; [reflexivity|].
  split; [reflexivity|].
  intros H. inversion H as [|? ? _ Hall]; subst.
  inversion Hall as [|? ? Hlex _]; subst.
  vm_compute in Hlex. destruct Hlex as [Hlt|[Heq _]];
    [inversion Hlt | discriminate Heq].
Qed.

(** C6 (amended): for a collection with at least one Build and a list whose
    parts each give a quantity for every material of the first Build,
    [assign_parts] ranks the materials of the first Build by capacity,
    largest first (equal capacities in the order of the dictionary), and
    sorts the parts once per material in that order, each pass stable and
    descending in the required quantity; the parts are then assigned in
    the resulting order, which sorts by the material of smallest capacity
    first, breaks ties by the next larger capacity, and so on, and leaves
    parts that agree on every quantity in the order they came in. *)
Theorem C6_scarcest_material_sorts_first self b0 rest parts :
  BuildCollection.builds self = b0 :: rest ->
  Dict.wf (Build.max_material b0) ->
  Forall (fun part =>
            forall key, In key (Dict.keys (Build.max_material b0)) ->
                        Dict.mem (Test.print_materials part) key = true)
         parts ->
  let ranked := sort_desc snd (Dict.items (Build.max_material b0)) in
  let sorted :=
    fold_left (fun l key => sort_desc (quantity key) l) (Dict.keys ranked) parts in
  BuildCollection.ranked_materials self = Ok ranked
  /\ Permutation ranked (Build.max_material b0)
  /\ (forall tie, StronglySorted tie (Build.max_material b0) ->
                  StronglySorted (pass_order snd tie) ranked)
  /\ BuildCollection.sort_passes (Dict.keys ranked) parts = (sorted, Ok tt)
  /\ Permutation sorted parts
  /\ (forall tie, StronglySorted tie parts ->
                  StronglySorted
                    (lex_desc (map quantity (rev (Dict.keys ranked))) tie)
                    sorted)
  /\ forall fuel rnd,
       BuildCollection.assign_parts fuel self parts rnd
       = match BuildCollection.assign_each fuel self sorted rnd with
         | Some (self', rnd', r) => Some (self', sorted, rnd', r)
         | None => None
         end.
Proof.
  intros Hb Hwf Hparts ranked sorted.
  assert (Hranked : BuildCollection.ranked_materials self = Ok ranked)
    by now apply ranked_materials_ok with (rest := rest).
  assert (Hperm : Permutation ranked (Build.max_material b0))
    by apply sort_desc_perm.
  assert (Hfold : fold_left (fun l key => sort_desc key l)
                    (map quantity (Dict.keys ranked)) parts = sorted).
  { unfold sorted. generalize parts.
    induction (Dict.keys ranked) as [|key keys IH]; intros l; simpl; auto. }
  assert (Hpasses : BuildCollection.sort_passes (Dict.keys ranked) parts
                    = (sorted, Ok tt)).
  { rewrite sort_passes_ok; [now rewrite Hfold|].
    eapply Forall_impl; [|exact Hparts]. intros part Hp key Hin. apply Hp.
    unfold Dict.keys in *. eapply Permutation_in; [|exact Hin].
    now apply Permutation_map. }
  split; [assumption|]. split; [assumption|]. split.
  { intros tie. apply sort_desc_sorted. }
  split; [assumption|]. split.
  { rewrite <- Hfold. apply passes_perm. }
  split.
  { intros tie Htie. rewrite <- Hfold, map_rev. now apply passes_sorted. }
  intros fuel rnd. unfold BuildCollection.assign_parts.
  rewrite Hranked, Hpasses.
  destruct (BuildCollection.assign_each fuel self sorted rnd)
    as [[[self' rnd'] r]|]; reflexivity.
Qed.

Lemma C6_scarcest_material_witness :
  Dict.keys (sort_desc snd (Build.max_material Scenario.empty_build))
  = ["OFA"; "CFA"]
  /\ BuildCollection.sort_passes ["OFA"; "CFA"]
       [Scenario.part_E; Scenario.part_F]
     = ([Scenario.part_F; Scenario.part_E], Ok tt)
  /\ StronglySorted
       (lex_desc [quantity "CFA"; quantity "OFA"] (fun _ _ => True))
       [Scenario.part_F; Scenario.part_E].
Proof.
  assert (H1 : BuildCollection.builds Scenario.collection
               = [Scenario.empty_build]) by reflexivity.
  assert (H2 : Dict.wf (Build.max_material Scenario.empty_build)).
  { repeat constructor; simpl; intuition discriminate. }
  assert (H3 : Forall (fun part =>
                 forall key,
                   In key (Dict.keys (Build.max_material Scenario.empty_build)) ->
                   Dict.mem (Test.print_materials part) key = true)
              [Scenario.part_E; Scenario.part_F]).
  { repeat constructor; intros key [<-|[<-|[]]]; reflexivity. }
  destruct (C6_scarcest_material_sorts_first Scenario.collection
              Scenario.empty_build [] [Scenario.part_E; Scenario.part_F]
              H1 H2 H3) as (_ & _ & _ & Hpasses & _ & Hsorted & _).
  split; [reflexivity|]. split; [exact Hpasses|].
  apply (Hsorted (fun _ _ => True)). repeat constructor.
Defined.

(** ** C7: [filter_builds] with a base name *)

(** C7 does not hold of the code for every call in which [base_name] is
    given.  When [batch] is given too, on a collection of Builds the
    program can construct, the result does not depend on [materials]: it is
    the Builds that pass the batch and machine steps and hold at least one
    part of that base name, in the order of the collection, whatever their
    remaining capacity.  When [batch] is left out, the local [builds] is
    unbound when the base name step reads it (the defect of C8) and the
    call raises [UnboundLocalError] instead of returning those Builds. *)
Theorem C7_base_name_skips_materials self batch machine materials bn :
  Forall reachable (BuildCollection.builds self) ->
  BuildCollection.filter_builds self batch machine materials (Some bn)
  = match batch with
    | Some b =>
        Ok (BuildCollection.keep self
              (fun build => batch_step b build && machine_step machine build
                            && holds_base_name bn build)
              (seq O (List.length (BuildCollection.builds self))))
    | None => Raise UnboundLocalError
    end.
Proof.
  intros Hreach. destruct batch as [b|].
  - apply filter_builds_base_name.
    eapply Forall_impl; [|exact Hreach]. apply reachable_filed.
  - apply filter_builds_unbound.
Qed.

Lemma C7_base_name_witness :
  Forall reachable [Scenario.build_A; Scenario.empty_build]
  /\ BuildCollection.filter_builds
       (BuildCollection.mk [Scenario.build_A; Scenario.empty_build]
          Scenario.no_kwargs 2)
       (Some 0) (Some 0) [("CFA", 45)] (Some "D6641")
     = Ok [O]
  /\ BuildCollection.filter_builds
       (BuildCollection.mk [Scenario.build_A; Scenario.empty_build]
          Scenario.no_kwargs 2)
       None (Some 0) Dict.empty (Some "D6641")
     = Raise UnboundLocalError.
Proof.
  assert (H : Forall reachable [Scenario.build_A; Scenario.empty_build])
    by (repeat constructor).
  split; [exact H|]. split.
  - exact (C7_base_name_skips_materials
             (BuildCollection.mk [Scenario.build_A; Scenario.empty_build]
                Scenario.no_kwargs 2)
             (Some 0) (Some 0) [("CFA", 45)] "D6641" H).
  - exact (C7_base_name_skips_materials
             (BuildCollection.mk [Scenario.build_A; Scenario.empty_build]
                Scenario.no_kwargs 2)
             None (Some 0) Dict.empty "D6641" H).
Defined.

(** ** C8: [filter_builds] without a batch *)

(** C8 does not hold of the code: the local [builds] of [filter_builds] is
    bound by the batch step only, so every call that leaves [batch] out
    raises [UnboundLocalError] at the first later read of [builds],
    whatever the other arguments. *)
Theorem C8_filter_builds_needs_batch self machine materials base_name :
  BuildCollection.filter_builds self None machine materials base_name
  = Raise UnboundLocalError.
Proof. apply filter_builds_unbound. Qed.

(** ** C9: materials the Build does not list *)

(** C9, as stated, fails: the batch, machine and duplicate checks come
    before the material check, so a part of another batch, or one whose
    condition is already stored, raises that failure and not the material
    failure; and the check compares usage plus quantity with the capacity,
    so on a Build whose usage of the material is negative (its first part,
    added unchecked, gave some back) the call returns normally. *)
Lemma C9_earlier_checks_and_negative_usage :
  (Build._first_part Scenario.build_A = false
   /\ Z.of_nat (List.length (Build.group Scenario.build_A
                               (Test.base_name Scenario.part_N1)))
        mod Test.print_max_samples Scenario.part_N1 = 0
   /\ In ("NYL", 1) (Test.print_materials Scenario.part_N1)
   /\ Dict.get (Build.max_material Scenario.build_A) "NYL" = None
   /\ snd (Build.add_part Scenario.build_A Scenario.part_N1 false)
      = Raise BatchMismatch)
  /\ (Build._first_part Scenario.build_N = false
      /\ Z.of_nat (List.length (Build.group Scenario.build_N
                                  (Test.base_name Scenario.part_N)))
           mod Test.print_max_samples Scenario.part_N = 0
      /\ In ("NYL", 1) (Test.print_materials Scenario.part_N)
      /\ Dict.get (Build.max_material Scenario.build_N) "NYL" = None
      /\ snd (Build.add_part Scenario.build_N Scenario.part_N false)
         = Raise DuplicatePart)
  /\ (Build._first_part Scenario.build_credit = false
      /\ Z.of_nat (List.length (Build.group Scenario.build_credit
                                  (Test.base_name Scenario.part_N)))
           mod Test.print_max_samples Scenario.part_N = 0
      /\ Dict.get (Build.max_material Scenario.build_credit) "NYL" = None
      /\ Dict.get0 (Build.print_materials Scenario.build_credit) "NYL" = -5
      /\ snd (Build.add_part Scenario.build_credit Scenario.part_N false)
         = Ok tt)
  /\ forall key,
       Raise (A := unit) BatchMismatch <> Raise (MaterialExceeded key)
       /\ Raise (A := unit) DuplicatePart <> Raise (MaterialExceeded key).
Proof.
  split; [repeat split; try reflexivity; now left|].
  split; [repeat split; try reflexivity; now left|].
  split; [repeat split; reflexivity|].
  intros key. split; intros H; inversion H.
Qed.

(** C9 (amended): for every Build past its first part whose usage of a
    material is not negative, a call made with [ignore_checks=False] that
    starts a new print group for a part requiring a positive quantity of
    that material, absent from [max_material], never succeeds: it fails,
    and once past the batch, machine and duplicate checks it fails on
    material, the absent capacity counting for 0. *)
Theorem C9_unlisted_material_has_capacity_zero self part key q :
  Build._first_part self = false ->
  Test.print_max_samples part <> 0 ->
  Z.of_nat (List.length (Build.group self (Test.base_name part)))
    mod Test.print_max_samples part = 0 ->
  In (key, q) (Test.print_materials part) -> 0 < q ->
  Dict.get (Build.max_material self) key = None ->
  0 <= Dict.get0 (Build.print_materials self) key ->
  (exists msg, snd (Build.add_part self part false) = Raise (RuntimeError msg))
  /\ (Build._batch self = Some (Test.batch part) ->
      Build._machine self = Some (Test.machine part) ->
      ~ In (Test.cnd part) (Dict.keys (Build.group self (Test.base_name part))) ->
      exists key', snd (Build.add_part self part false)
                   = Raise (MaterialExceeded key')).
Proof.
  intros Hfirst Hk Hopen. apply add_part_unlisted; auto.
  unfold Stage.opens_group. now apply Z.eqb_eq.
Qed.

Lemma C9_unlisted_material_witness :
  snd (Build.add_part Scenario.build_A Scenario.part_N false)
  = Raise (MaterialExceeded "NYL").
Proof.
  destruct (C9_unlisted_material_has_capacity_zero
              Scenario.build_A Scenario.part_N "NYL" 1) as [_ H].
  - reflexivity.
  - discriminate.
  - reflexivity.
  - now left.
  - reflexivity.
  - reflexivity.
  - discriminate.
  - destruct H as [key' H]; [reflexivity | reflexivity | simpl; tauto |].
    reflexivity.
Defined.

(** ** C10: one stored part per (base name, condition) *)

(** C10, as stated, fails: a forced addition of a part whose
    (base_name, cnd) is taken and whose group size is 0 raises
    [ZeroDivisionError] at the group test, before the store, and the part
    stored before stays. *)
Lemma C10_zero_group_size_replaces_nothing :
  reachable Scenario.build_A
  /\ Dict.get (Build.group Scenario.build_A (Test.base_name Scenario.part_A0))
       (Test.cnd Scenario.part_A0) = Some Scenario.part_A
  /\ Scenario.part_A0 <> Scenario.part_A
  /\ snd (Build.add_part Scenario.build_A Scenario.part_A0 true)
     = Raise ZeroDivisionError
  /\ Dict.get (Build.group (fst (Build.add_part Scenario.build_A
                                   Scenario.part_A0 true))
                 (Test.base_name Scenario.part_A0))
       (Test.cnd Scenario.part_A0) = Some Scenario.part_A
  /\ Build.parts (fst (Build.add_part Scenario.build_A Scenario.part_A0 true))
     = [Scenario.part_A].
Proof.
  split; [repeat constructor|]. split; [reflexivity|].
  split; [discriminate|]. repeat split; reflexivity.
Qed.

(** C10 (amended): in every Build the program can construct, forced additions
    included, no two parts of the flattened list share their
    (base_name, cnd); and a forced addition of a part whose
    (base_name, cnd) is taken (and whose group size is not 0) returns
    normally and puts the part in the place of the one stored. *)
Theorem C10_one_part_per_slot self :
  reachable self ->
  NoDup (map slot (Build.parts self))
  /\ forall part old,
       Test.print_max_samples part <> 0 ->
       Dict.get (Build.group self (Test.base_name part)) (Test.cnd part)
       = Some old ->
       let r := Build.add_part self part true in
       snd r = Ok tt
       /\ Dict.get (Build.group (fst r) (Test.base_name part)) (Test.cnd part)
          = Some part
       /\ Build.parts (fst r) = map (replace_slot part) (Build.parts self)
       /\ NoDup (map slot (Build.parts (fst r))).
Proof.
  intros Hreach. pose proof (reachable_filed self Hreach) as Hfiled. split.
  - now apply filed_parts_nodup.
  - intros part old Hk Hold.
    destruct (add_part_forced_replaces self part old Hfiled Hk Hold)
      as (Hok & Hget & Hparts).
    cbv zeta. repeat split; auto.
    apply filed_parts_nodup. now apply add_part_filed.
Qed.

Lemma C10_one_part_per_slot_witness :
  reachable Scenario.build_A
  /\ NoDup (map slot (Build.parts Scenario.build_A))
  /\ Build.parts (fst (Build.add_part Scenario.build_A Scenario.part_A' true))
     = [Scenario.part_A'].
Proof.
  assert (H : reachable Scenario.build_A) by (repeat constructor).
  destruct (C10_one_part_per_slot Scenario.build_A H) as [Hnd Hrep].
  split; [exact H|]. split; [exact Hnd|].
  destruct (Hrep Scenario.part_A' Scenario.part_A) as (_ & _ & Hparts & _).
  - discriminate.
  - reflexivity.
  - exact Hparts.
Defined.

(** * Further properties of the engine *)

(** ** [Build.add_part]: the first call, the zero group size, duplicates *)



(** X2: a part whose [print_max_samples] is 0 is never added: every call
    raises, a forced call (or the first call on a Build) raises
    [ZeroDivisionError], and the Build's time, materials and stored parts
    are as before. *)
Theorem X2_zero_group_size_raises self part ignore_checks :
  Test.print_max_samples part = 0 ->
  let r := Build.add_part self part ignore_checks in
  (exists e, snd r = Raise e
             /\ (Stage.forced self ignore_checks = true ->
                 e = ZeroDivisionError))
  /\ Build.print_time (fst r) = Build.print_time self
  /\ Build.print_materials (fst r) = Build.print_materials self
  /\ Build.parts (fst r) = Build.parts self.
Proof.
  intros Hk.
  pose proof (adopt_fields self part) as (_ & _ & _ & Ht1 & Hp1 & _).
  pose proof (seed_fields (Stage.adopt self part) part)
    as (_ & _ & Ht2 & Hp2 & _).
  pose proof (staged_parts_list self part) as Hparts2.
  pose proof (adopt_parts self part) as Hparts1.
  cbv zeta in *. unfold Build.print_time, Build.print_materials.
  apply add_part_cases; cbn [fst snd]; intros; try contradiction;
    (split; [eexists; split; [reflexivity | congruence]|]);
    repeat split; congruence.
Qed.

Lemma X2_zero_group_size_witness :
  Test.print_max_samples Scenario.part_Z = 0
  /\ snd (Build.add_part Scenario.empty_build Scenario.part_Z false)
     = Raise ZeroDivisionError.
Proof.
  assert (H : Test.print_max_samples Scenario.part_Z = 0) by reflexivity.
  destruct (X2_zero_group_size_raises Scenario.empty_build Scenario.part_Z
              false H) as ((e & He & Hforced) & _).
  split; [exact H|]. rewrite He. f_equal. apply Hforced. reflexivity.
Defined.

(** X3: past the first part, a call made with [ignore_checks=False] for a
    part of the Build's batch and machine whose condition is already stored
    under its base name raises the duplicate failure and leaves the Build
    exactly as it was, the internal mapping included. *)
Theorem X3_duplicate_rejected self part old :
  Build._first_part self = false ->
  Build._batch self = Some (Test.batch part) ->
  Build._machine self = Some (Test.machine part) ->
  Dict.get (Build.group self (Test.base_name part)) (Test.cnd part) = Some old ->
  Build.add_part self part false = (self, Raise DuplicatePart).
Proof.
  intros Hfirst Hb Hm Hold. rewrite add_part_stages. cbv zeta.
  assert (Hadopt : Stage.adopt self part = self).
  { apply adopt_settled; congruence. }
  assert (Hseed : Stage.seed self part = self).
  { destruct (seed_parts self part) as [[_ H]|[Hnone _]]; auto.
    unfold Build.group in Hold. rewrite Hnone in Hold. discriminate. }
  rewrite Hadopt, Hseed. unfold Stage.forced. rewrite Hfirst, Hb, Hm.
  simpl. rewrite !Z.eqb_refl. simpl.
  unfold Dict.mem. now rewrite Hold.
Qed.

Lemma X3_duplicate_witness :
  Build.add_part Scenario.build_A Scenario.part_A' false
  = (Scenario.build_A, Raise DuplicatePart).
Proof.
  apply (X3_duplicate_rejected Scenario.build_A Scenario.part_A'
           Scenario.part_A); reflexivity.
Defined.

(** ** [Build.add_part]: when a call is accepted, and what it stores *)

(** X4: past the first part, with batch and machine set, a call made with
    [ignore_checks=False] returns normally exactly when the part has the
    Build's batch and machine, its condition is new under its base name,
    its group size is not 0 and, where the part opens a print group, every
    material it requires fits in what is left of the capacity. *)
Theorem X4_accepted_iff self part b m :
  Build._first_part self = false ->
  Build._batch self = Some b ->
  Build._machine self = Some m ->
  snd (Build.add_part self part false) = Ok tt
  <-> (b = Test.batch part
       /\ m = Test.machine part
       /\ ~ In (Test.cnd part) (Dict.keys (Build.group self (Test.base_name part)))
       /\ Test.print_max_samples part <> 0
       /\ (Stage.opens_group self part = true ->
           forall key q, In (key, q) (Test.print_materials part) ->
             Dict.get0 (Build.print_materials self) key + q
             <= Dict.get0 (Build.max_material self) key)).
Proof.
  intros Hfirst Hb Hm.
  assert (Hadopt : Stage.adopt self part = self).
  { apply adopt_settled; congruence. }
  assert (Hforced : Stage.forced self false = false).
  { unfold Stage.forced. now rewrite Hfirst. }
  pose proof (seed_fields self part) as (_ & Hm2 & _ & Hp2 & _).
  cbv zeta in Hm2, Hp2.
  assert (Hfit : forall key q,
            Dict.get0 (Build.print_materials (Stage.seed self part)) key + q
            <= Dict.get0 (Build.max_material (Stage.seed self part)) key
            <-> Dict.get0 (Build.print_materials self) key + q
                <= Dict.get0 (Build.max_material self) key).
  { intros key q. unfold Build.print_materials. now rewrite Hp2, Hm2. }
  apply add_part_cases; cbn [snd]; rewrite ?Hadopt, ?Hforced, ?seed_group;
    fold (Stage.opens_group (Stage.seed self part) part);
    replace (Stage.opens_group (Stage.seed self part) part)
      with (Stage.opens_group self part)
      by (unfold Stage.opens_group; now rewrite seed_group).
  - intros _ Hne. split; [discriminate|]. intros (Heq & _). congruence.
  - intros _ _ Hne. split; [discriminate|]. intros (_ & Heq & _). congruence.
  - intros _ _ _ Hdup. split; [discriminate|]. intros (_ & _ & Hnew & _).
    contradiction.
  - intros _ Hz. split; [discriminate|]. intros (_ & _ & _ & Hk & _).
    contradiction.
  - intros key _ _ _ Hopen Hex. split; [discriminate|].
    intros (_ & _ & _ & _ & Hfits).
    apply exceeded_Some in Hex. destruct Hex as (v & Hin & Hgt).
    specialize (Hfits Hopen key v Hin). apply (proj2 (Hfit key v)) in Hfits.
    lia.
  - intros Hun Hk Hopen Hnone. split; [|reflexivity]. intros _.
    destruct (Hun eq_refl) as (Hb' & Hm' & Hnew).
    repeat split; try congruence. intros _ key q Hin.
    apply Hfit. now apply (exceeded_None _ part Hnone).
  - intros Hun Hk Hopen. split; [|reflexivity]. intros _.
    destruct (Hun eq_refl) as (Hb' & Hm' & Hnew).
    repeat split; try congruence.
Qed.

Lemma X4_accepted_iff_witness :
  snd (Build.add_part Scenario.build_A Scenario.part_C false) <> Ok tt
  /\ ~ (forall key q, In (key, q) (Test.print_materials Scenario.part_C) ->
          Dict.get0 (Build.print_materials Scenario.build_A) key + q
          <= Dict.get0 (Build.max_material Scenario.build_A) key).
Proof.
  destruct (X4_accepted_iff Scenario.build_A Scenario.part_C 0 0
              eq_refl eq_refl eq_refl) as [Hto Hfrom].
  assert (Hno : ~ (forall key q,
                     In (key, q) (Test.print_materials Scenario.part_C) ->
                     Dict.get0 (Build.print_materials Scenario.build_A) key + q
                     <= Dict.get0 (Build.max_material Scenario.build_A) key)).
  { intros H. specialize (H "CFA" 45 (or_introl eq_refl)).
    vm_compute in H. now apply H. }
  split; [|exact Hno].
  intros Hok. apply Hno. destruct (Hto Hok) as (_ & _ & _ & _ & Hfits).
  apply Hfits. reflexivity.
Defined.

Lemma base_names_In self bn g :
  Dict.get (Build._parts self) bn = Some g -> g <> [] ->
  In bn (Build.base_names self).
Proof.
  intros Hget Hne. unfold Build.base_names.
  apply dict_get_In in Hget.
  change bn with (fst (bn, g)). apply in_map. apply filter_In. split; auto.
  simpl. now destruct g.
Qed.

(** X5: a call made with [ignore_checks=False] that returns normally, on a
    Build the program can construct, stores the part next to the parts
    already there: the flattened list gains exactly that part, the part is
    found under its base name and condition, and its base name is listed
    by [base_names]. *)
Theorem X5_accepted_part_is_stored self part :
  reachable self ->
  snd (Build.add_part self part false) = Ok tt ->
  let s := fst (Build.add_part self part false) in
  Permutation (Build.parts s) (part :: Build.parts self)
  /\ List.length (Build.parts s) = S (List.length (Build.parts self))
  /\ Dict.get (Build.group s (Test.base_name part)) (Test.cnd part) = Some part
  /\ In (Test.base_name part) (Build.base_names s).
Proof.
  intros Hreach Hok. cbv zeta.
  pose proof (add_part_ok_perm self part (reachable_untouched self Hreach) Hok)
    as Hperm.
  destruct (add_part_ok self part false Hok) as (_ & Hgrp & _).
  split; [assumption|].
  split; [now rewrite (Permutation_length Hperm)|].
  split; [rewrite Hgrp; apply dict_get_set_same|].
  apply base_names_In
    with (g := Dict.set (Build.group self (Test.base_name part))
                 (Test.cnd part) part).
  - rewrite (add_part_ok_parts self part false Hok). apply dict_get_set_same.
  - destruct (Build.group self (Test.base_name part)) as [|[c q] g]; simpl;
      [discriminate|].
    destruct (String.eqb c (Test.cnd part)); discriminate.
Qed.

Lemma X5_accepted_part_witness :
  reachable Scenario.build_A
  /\ snd (Build.add_part Scenario.build_A Scenario.part_E false) = Ok tt
  /\ List.length (Build.parts (fst (Build.add_part Scenario.build_A
                                      Scenario.part_E false))) = 2%nat.
Proof.
  assert (H1 : reachable Scenario.build_A) by (repeat constructor).
  assert (H2 : snd (Build.add_part Scenario.build_A Scenario.part_E false)
               = Ok tt) by reflexivity.
  destruct (X5_accepted_part_is_stored Scenario.build_A Scenario.part_E H1 H2)
    as (_ & Hlen & _).
  split; [exact H1|]. split; [exact H2 | exact Hlen].
Defined.

(** X6: a call that returns normally and opens a print group raises the
    usage of every material by exactly the quantity the part requires of
    it (0 for a material the part does not mention) and the print time by
    the part's. *)
Theorem X6_new_group_is_charged_once self part ignore_checks :
  Dict.wf (Test.print_materials part) ->
  snd (Build.add_part self part ignore_checks) = Ok tt ->
  Stage.opens_group self part = true ->
  let s := fst (Build.add_part self part ignore_checks) in
  Build.print_time s = Build.print_time self + Test.print_time part
  /\ forall m, Dict.get0 (Build.print_materials s) m
               = Dict.get0 (Build.print_materials self) m + quantity m part.
Proof.
  intros Hwf Hok Hopen. cbv zeta.
  destruct (add_part_ok self part ignore_checks Hok) as (_ & _ & _ & Hacc).
  rewrite Hopen in Hacc. destruct Hacc as [Ht Hp].
  split; [assumption|]. intros m.
  unfold Build.print_materials, quantity. rewrite Hp.
  now apply charge_get0.
Qed.

Lemma X6_new_group_witness :
  Dict.get0 (Build.print_materials
               (fst (Build.add_part Scenario.build_A Scenario.part_E false)))
            "CFA"
  = Dict.get0 (Build.print_materials Scenario.build_A) "CFA"
    + quantity "CFA" Scenario.part_E.
Proof.
  assert (H1 : Dict.wf (Test.print_materials Scenario.part_E)).
  { repeat constructor; simpl; intuition discriminate. }
  exact (proj2 (X6_new_group_is_charged_once Scenario.build_A Scenario.part_E
                  false H1 eq_refl eq_refl) "CFA").
Defined.

(** ** The accessors of a Build *)

Lemma NoDup_map_fst_filter {A B} (f : A * B -> bool) (l : list (A * B)) :
  NoDup (map fst l) -> NoDup (map fst (filter f l)).
Proof.
  induction l as [|x l IH]; simpl; intros H; [constructor|].
  inversion H as [|? ? Hnotin Hnd]; subst.
  destruct (f x); simpl; auto. constructor; auto.
  intros Hin. apply Hnotin. apply in_map_iff in Hin.
  destruct Hin as (y & Hy & Hin). apply filter_In in Hin.
  rewrite <- Hy. apply in_map. tauto.
Qed.

(** X7: in every Build the program can construct, [base_names] lists,
    without repetition, exactly the base names of the stored parts; groups
    left empty are not listed. *)
Theorem X7_base_names_of_stored_parts self :
  reachable self ->
  NoDup (Build.base_names self)
  /\ forall bn, In bn (Build.base_names self)
                <-> exists part, In part (Build.parts self)
                                 /\ Test.base_name part = bn.
Proof.
  intros Hreach. pose proof (reachable_filed self Hreach) as Hfiled. split.
  - unfold Build.base_names. apply NoDup_map_fst_filter. apply Hfiled.
  - intros bn. pose proof (base_names_holds bn self Hfiled) as Hholds.
    unfold holds_base_name in Hholds. split.
    + intros Hin.
      assert (Hex : existsb (String.eqb bn) (Build.base_names self) = true).
      { apply existsb_exists. exists bn. split; auto. apply String.eqb_refl. }
      rewrite Hholds in Hex. apply existsb_exists in Hex.
      destruct Hex as (part & Hp & Heq). exists part. split; auto.
      now apply String.eqb_eq.
    + intros (part & Hp & Heq).
      assert (Hex : existsb (fun p => String.eqb (Test.base_name p) bn)
                      (Build.parts self) = true).
      { apply existsb_exists. exists part. split; auto.
        now apply String.eqb_eq. }
      rewrite <- Hholds in Hex. apply existsb_exists in Hex.
      destruct Hex as (bn' & Hin & Heq'). apply String.eqb_eq in Heq'.
      now subst bn'.
Qed.

Lemma X7_base_names_witness :
  reachable (fst (Build.add_part Scenario.build_A Scenario.part_D false))
  /\ Build.base_names (fst (Build.add_part Scenario.build_A Scenario.part_D false))
     = ["D6641"]
  /\ NoDup (Build.base_names
              (fst (Build.add_part Scenario.build_A Scenario.part_D false))).
Proof.
  assert (H : reachable (fst (Build.add_part Scenario.build_A Scenario.part_D
                                false))) by (repeat constructor).
  split; [exact H|]. split; [reflexivity|].
  exact (proj1 (X7_base_names_of_stored_parts _ H)).
Defined.

(** ** [filter_builds] without a base name *)

Lemma keep_In self f refs i :
  In i (BuildCollection.keep self f refs)
  <-> In i refs
      /\ exists build, BuildCollection.build_at self i = Some build
                       /\ f build = true.
Proof.
  unfold BuildCollection.keep. rewrite filter_In.
  destruct (BuildCollection.build_at self i) as [b|]; split.
  - intros [Hin Hf]. split; auto. now exists b.
  - intros [Hin (b' & Hb & Hf)]. inversion Hb; subst. auto.
  - intros [_ Hf]. discriminate.
  - intros [_ (b' & Hb & _)]. discriminate.
Qed.

(** the capacity step of [filter_builds], as a condition on one Build *)
Lemma material_steps_In self materials : forall bs,
  exists bs',
    fold_left
      (fun acc kv =>
         builds_var <- acc ;;
         bs <- BuildCollection.local builds_var ;;
         Ok (Some (BuildCollection.keep self
                     (fun build =>
                        Dict.get0 (Build.max_material build) (fst kv)
                          - Dict.get0 (Build.print_materials build) (fst kv)
                        >=? snd kv)
                     bs)))
      materials (Ok (Some bs))
    = Ok (Some bs')
    /\ forall i, In i bs'
         <-> In i bs
             /\ forall key q, In (key, q) materials ->
                  exists build,
                    BuildCollection.build_at self i = Some build
                    /\ Dict.get0 (Build.max_material build) key
                       - Dict.get0 (Build.print_materials build) key >= q.
Proof.
  induction materials as [|[key q] materials IH]; intros bs; simpl.
  - exists bs. split; auto. intros i. split; [|tauto].
    intros H. split; auto. intros key q [].
  - destruct (IH (BuildCollection.keep self
                    (fun build =>
                       Dict.get0 (Build.max_material build) key
                         - Dict.get0 (Build.print_materials build) key
                       >=? q) bs)) as (bs' & -> & Hin).
    exists bs'. split; auto. intros i. rewrite Hin, keep_In. split.
    + intros [[Hbs (b & Hb & Hc)] Hrest]. split; auto.
      intros key' q' [Heq|Hin']; [|now apply Hrest].
      inversion Heq; subst. exists b. split; auto.
      apply Z.geb_le in Hc. lia.
    + intros [Hbs Hall]. split.
      * split; auto. destruct (Hall key q (or_introl eq_refl)) as (b & Hb & Hc).
        exists b. split; auto. apply Z.geb_le. lia.
      * intros key' q' Hin'. apply Hall. now right.
Qed.

Lemma seq_In_build_at self i :
  In i (seq O (List.length (BuildCollection.builds self)))
  <-> exists build, BuildCollection.build_at self i = Some build.
Proof.
  rewrite in_seq. unfold BuildCollection.build_at. split.
  - intros [_ Hlt]. simpl in Hlt.
    destruct (nth_error (BuildCollection.builds self) i) eqn:E; eauto.
    apply nth_error_None in E. lia.
  - intros (b & Hb). split; [lia|]. simpl. apply nth_error_Some. congruence.
Qed.

Lemma filter_builds_capacity_In self batch machine materials :
  exists refs,
    BuildCollection.filter_builds self (Some batch) machine materials None
    = Ok refs
    /\ forall i, In i refs
         <-> exists build,
               BuildCollection.build_at self i = Some build
               /\ batch_step batch build = true
               /\ machine_step machine build = true
               /\ forall key q, In (key, q) materials ->
                    Dict.get0 (Build.max_material build) key
                    - Dict.get0 (Build.print_materials build) key >= q.
Proof.
  unfold BuildCollection.filter_builds.
  set (all := seq O (List.length (BuildCollection.builds self))).
  set (s1 := BuildCollection.keep self _ all).
  assert (Hs1 : forall i, In i s1
            <-> exists build, BuildCollection.build_at self i = Some build
                              /\ batch_step batch build = true).
  { intros i. unfold s1. rewrite keep_In. unfold all.
    rewrite seq_In_build_at. split; [tauto|].
    intros (b & Hb & Hc). split; eauto. }
  assert (Hfinish : forall s2,
            (forall i, In i s2
               <-> exists build, BuildCollection.build_at self i = Some build
                                 /\ batch_step batch build = true
                                 /\ machine_step machine build = true) ->
            exists refs,
              (builds_var <-
                 fold_left
                   (fun acc kv =>
                      builds_var <- acc ;;
                      bs <- BuildCollection.local builds_var ;;
                      Ok (Some (BuildCollection.keep self
                                  (fun build =>
                                     Dict.get0 (Build.max_material build) (fst kv)
                                     - Dict.get0 (Build.print_materials build)
                                         (fst kv)
                                     >=? snd kv) bs)))
                   (Dict.items materials) (Ok (Some s2)) ;;
               BuildCollection.local builds_var) = Ok refs
              /\ forall i, In i refs
                   <-> exists build,
                         BuildCollection.build_at self i = Some build
                         /\ batch_step batch build = true
                         /\ machine_step machine build = true
                         /\ forall key q, In (key, q) materials ->
                              Dict.get0 (Build.max_material build) key
                              - Dict.get0 (Build.print_materials build) key
                              >= q).
  { intros s2 Hs2.
    destruct (material_steps_In self (Dict.items materials) s2)
      as (bs' & -> & Hin).
    exists bs'. split; [reflexivity|]. intros i. rewrite Hin, Hs2. split.
    - intros [(b & Hb & Hc1 & Hc2) Hall]. exists b. repeat split; auto.
      intros key q Hkq. destruct (Hall key q Hkq) as (b' & Hb' & Hge).
      congruence.
    - intros (b & Hb & Hc1 & Hc2 & Hall). split; [now exists b|].
      intros key q Hkq. exists b. split; auto. }
  destruct machine as [m|]; cbn [bind BuildCollection.local].
  - apply Hfinish. intros i. rewrite keep_In, Hs1. split.
    + intros [(b & Hb & Hc1) (b' & Hb' & Hc2)].
      exists b. repeat split; auto. simpl. congruence.
    + intros (b & Hb & Hc1 & Hc2). split; exists b; auto.
  - apply Hfinish. intros i. rewrite Hs1. split.
    + intros (b & Hb & Hc1). exists b. auto.
    + intros (b & Hb & Hc1 & _). exists b. auto.
Qed.

(** X8: with [batch] given and no base name, [filter_builds] returns
    exactly the Builds that pass the batch step (same batch, or none yet)
    and the machine step (same machine, or none yet, or no machine asked
    for) and whose remaining capacity covers the required quantity of every
    material asked for, an absent capacity or usage counting for 0. *)
Theorem X8_filter_builds_by_capacity self batch machine materials :
  exists refs,
    BuildCollection.filter_builds self (Some batch) machine materials None
    = Ok refs
    /\ forall i, In i refs
         <-> exists build,
               BuildCollection.build_at self i = Some build
               /\ batch_step batch build = true
               /\ machine_step machine build = true
               /\ forall key q, In (key, q) materials ->
                    Dict.get0 (Build.max_material build) key
                    - Dict.get0 (Build.print_materials build) key >= q.
Proof. apply filter_builds_capacity_In. Qed.

Lemma filter_StronglySorted {A} (R : A -> A -> Prop) (f : A -> bool) l :
  StronglySorted R l -> StronglySorted R (filter f l).
Proof.
  induction 1 as [|x l Hl IH Hx]; simpl; [constructor|].
  destruct (f x); auto. constructor; auto.
  apply Forall_forall. intros y Hy. apply filter_In in Hy.
  rewrite Forall_forall in Hx. now apply Hx.
Qed.

Lemma seq_StronglySorted n : forall start, StronglySorted lt (seq start n).
Proof.
  induction n as [|n IH]; intros start; simpl; constructor; auto.
  apply Forall_forall. intros i Hi. apply in_seq in Hi. lia.
Qed.

Lemma material_steps_sorted self materials : forall bs,
  StronglySorted lt bs ->
  exists bs',
    fold_left
      (fun acc kv =>
         builds_var <- acc ;;
         bs <- BuildCollection.local builds_var ;;
         Ok (Some (BuildCollection.keep self
                     (fun build =>
                        Dict.get0 (Build.max_material build) (fst kv)
                          - Dict.get0 (Build.print_materials build) (fst kv)
                        >=? snd kv)
                     bs)))
      materials (Ok (Some bs))
    = Ok (Some bs')
    /\ StronglySorted lt bs'.
Proof.
  induction materials as [|kv materials IH]; intros bs Hbs; simpl.
  - now exists bs.
  - apply IH. now apply filter_StronglySorted.
Qed.

(** X9: with [batch] given, [filter_builds] returns its Builds in the order
    of the collection, none of them twice. *)
Theorem X9_filter_builds_keeps_order self batch machine materials base_name :
  exists refs,
    BuildCollection.filter_builds self (Some batch) machine materials base_name
    = Ok refs
    /\ StronglySorted lt refs
    /\ NoDup refs
    /\ valid_refs self refs.
Proof.
  destruct (filter_builds_refs self batch machine materials base_name)
    as (refs & Heq & Hvalid & _).
  exists refs. split; [assumption|].
  assert (Hsorted : StronglySorted lt refs).
  { revert Heq. unfold BuildCollection.filter_builds.
    set (all := seq O (List.length (BuildCollection.builds self))).
    set (s1 := BuildCollection.keep self _ all).
    assert (H1 : StronglySorted lt s1)
      by (apply filter_StronglySorted, seq_StronglySorted).
    assert (Hrest : forall s2, StronglySorted lt s2 ->
              (builds_var <-
                 match base_name with
                 | Some bn =>
                     bs <- BuildCollection.local (Some s2) ;;
                     Ok (Some (BuildCollection.keep self
                                 (fun build =>
                                    existsb (String.eqb bn)
                                      (Build.base_names build)) bs))
                 | None =>
                     fold_left
                       (fun acc kv =>
                          builds_var <- acc ;;
                          bs <- BuildCollection.local builds_var ;;
                          Ok (Some (BuildCollection.keep self
                                      (fun build =>
                                         Dict.get0 (Build.max_material build)
                                           (fst kv)
                                         - Dict.get0
                                             (Build.print_materials build)
                                             (fst kv)
                                         >=? snd kv) bs)))
                       (Dict.items materials) (Ok (Some s2))
                 end ;;
               BuildCollection.local builds_var) = Ok refs ->
              StronglySorted lt refs).
    { intros s2 Hs2. destruct base_name as [bn|].
      - simpl. intros H. inversion H; subst.
        now apply filter_StronglySorted.
      - destruct (material_steps_sorted self (Dict.items materials) s2 Hs2)
          as (bs' & -> & Hbs'). simpl. intros H. now inversion H; subst. }
    destruct machine as [m|]; cbn [bind BuildCollection.local];
      apply Hrest; auto. now apply filter_StronglySorted. }
  split; [assumption|]. split; [|assumption].
  clear Heq Hvalid. induction Hsorted as [|i refs _ IH Hi]; constructor; auto.
  intros Hin. rewrite Forall_forall in Hi. specialize (Hi i Hin). lia.
Qed.

(** ** The candidates of [filter_builds] and [add_part] *)

Lemma filter_builds_steps_In self batch machine materials base_name refs i :
  BuildCollection.filter_builds self (Some batch) machine materials base_name
  = Ok refs ->
  In i refs ->
  exists build,
    BuildCollection.build_at self i = Some build
    /\ batch_step batch build = true
    /\ machine_step machine build = true.
Proof.
  destruct base_name as [bn|].
  - unfold BuildCollection.filter_builds.
    assert (Hbatch : forall j,
              In j (BuildCollection.keep self
                      (fun build =>
                         option_Z_eqb (Build.batch build) (Some batch)
                         || option_Z_eqb (Build.batch build) None)
                      (seq O (List.length (BuildCollection.builds self)))) ->
              exists build, BuildCollection.build_at self j = Some build
                            /\ batch_step batch build = true).
    { intros j Hj. apply keep_In in Hj. now destruct Hj as [_ Hj]. }
    destruct machine as [m|]; cbn [bind BuildCollection.local];
      intros H Hin; inversion H; subst refs; clear H;
      apply keep_In in Hin; destruct Hin as [Hin _].
    + apply keep_In in Hin. destruct Hin as [Hin (b & Hb & Hm)].
      destruct (Hbatch i Hin) as (b' & Hb' & Hbt).
      rewrite Hb in Hb'. inversion Hb'; subst b'. now exists b.
    + destruct (Hbatch i Hin) as (b & Hb & Hbt). now exists b.
  - intros Hfilter Hin.
    destruct (filter_builds_capacity_In self batch machine materials)
      as (refs' & Heq & Hchar).
    rewrite Hfilter in Heq. inversion Heq; subst refs'.
    apply Hchar in Hin. destruct Hin as (b & Hb & Hbt & Hm & _).
    now exists b.
Qed.

Lemma add_part_of_match part build ignore_checks :
  batch_step (Test.batch part) build = true ->
  machine_step (Some (Test.machine part)) build = true ->
  let r := Build.add_part build part ignore_checks in
  (snd r = Ok tt \/ snd r = Raise DuplicatePart
   \/ snd r = Raise ZeroDivisionError
   \/ exists key, snd r = Raise (MaterialExceeded key))
  /\ Build._batch (fst r) = Some (Test.batch part)
  /\ Build._machine (fst r) = Some (Test.machine part).
Proof.
  intros Hbatch Hmachine r.
  pose proof (adopt_fields build part)
    as (_ & _ & _ & _ & _ & _ & Hb1 & Hmc1).
  cbv zeta in *.
  unfold batch_step, machine_step, Build.batch, Build.machine in *.
  assert (Hb : Build._batch (Stage.adopt build part) = Some (Test.batch part)).
  { rewrite Hb1. destruct (Build._batch build) as [b|]; auto.
    apply orb_prop in Hbatch. destruct Hbatch as [H|H]; [|discriminate].
    apply option_Z_eqb_eq in H. congruence. }
  assert (Hm : Build._machine (Stage.adopt build part)
               = Some (Test.machine part)).
  { rewrite Hmc1. destruct (Build._machine build) as [m|]; auto.
    apply orb_prop in Hmachine. destruct Hmachine as [H|H]; [|discriminate].
    apply option_Z_eqb_eq in H. congruence. }
  pose proof (add_part_batch_machine build part ignore_checks) as [Hb' Hm'].
  cbv zeta in Hb', Hm'. subst r. rewrite Hb', Hm'.
  split; [|split; assumption].
  apply add_part_cases; cbn [snd]; intros; try contradiction; eauto.
Qed.

(** X10: the batch and machine steps of [filter_builds] are the batch and
    machine checks of [add_part]: a Build returned by [filter_builds] for a
    part's batch and machine, whatever the materials and the base name
    asked for, is never refused that part for its batch or its machine,
    forced or not: the call returns normally or fails on a duplicate, on
    material or on a zero group size; and after the call, whatever its
    outcome, the Build's batch and machine are the part's. *)
Theorem X10_candidates_match_batch_and_machine
    self part materials base_name refs i build ignore_checks :
  BuildCollection.filter_builds self (Some (Test.batch part))
    (Some (Test.machine part)) materials base_name = Ok refs ->
  In i refs ->
  BuildCollection.build_at self i = Some build ->
  let r := Build.add_part build part ignore_checks in
  (snd r = Ok tt \/ snd r = Raise DuplicatePart
   \/ snd r = Raise ZeroDivisionError
   \/ exists key, snd r = Raise (MaterialExceeded key))
  /\ Build.batch (fst r) = Some (Test.batch part)
  /\ Build.machine (fst r) = Some (Test.machine part).
Proof.
  intros Hfilter Hin Hbuild.
  destruct (filter_builds_steps_In self (Test.batch part)
              (Some (Test.machine part)) materials base_name refs i
              Hfilter Hin) as (b & Hb & Hbatch & Hmachine).
  rewrite Hbuild in Hb. inversion Hb; subst b.
  now apply add_part_of_match.
Qed.

Lemma X10_candidates_witness :
  BuildCollection.filter_builds
    (BuildCollection.mk [Scenario.build_A; Scenario.empty_build]
       Scenario.no_kwargs 2)
    (Some 0) (Some 0) Dict.empty (Some "D6641") = Ok [O]
  /\ snd (Build.add_part Scenario.build_A Scenario.part_C false)
     = Raise (MaterialExceeded "CFA")
  /\ Build.batch (fst (Build.add_part Scenario.build_A Scenario.part_C false))
     = Some 0.
Proof.
  assert (Hrefs : BuildCollection.filter_builds
                    (BuildCollection.mk [Scenario.build_A; Scenario.empty_build]
                       Scenario.no_kwargs 2)
                    (Some (Test.batch Scenario.part_C))
                    (Some (Test.machine Scenario.part_C)) Dict.empty
                    (Some "D6641") = Ok [O]) by reflexivity.
  destruct (X10_candidates_match_batch_and_machine _ Scenario.part_C _ _ _
              O Scenario.build_A false Hrefs (or_introl eq_refl) eq_refl)
    as (_ & Hb & _).
  split; [exact Hrefs|]. split; [reflexivity | exact Hb].
Defined.

(** ** [assign_parts] checks the parts before it assigns any *)






(** ** Invariants of a collection under [assign_part] and [assign_parts] *)

Section CollectionInvariant.
Variable P : BuildCollection.t -> Prop.

(** every property of the collection that [spawn_build] keeps and that one
    [add_part] on one of its Builds keeps is kept by the loop *)
Lemma assign_loop_preserves part :
  (forall self, P self -> P (fst (BuildCollection.spawn_build self))) ->
  (forall self i build,
     P self -> BuildCollection.build_at self i = Some build ->
     P (BuildCollection.set_build self i (fst (Build.add_part build part false)))) ->
  forall fuel self eligible lazy rnd self' rnd' r,
    P self ->
    BuildCollection.assign_loop fuel self part eligible lazy rnd
    = Some (self', rnd', r) ->
    P self'.
Proof.
  intros Hspawn Hadd.
  assert (Hattempt : forall fuel,
            (forall self eligible lazy rnd self' rnd' r,
               P self ->
               BuildCollection.assign_loop fuel self part eligible lazy rnd
               = Some (self', rnd', r) -> P self') ->
            forall self i rnd eligible lazy self' rnd' r,
              P self ->
              match BuildCollection.build_at self i with
              | None => Some (self, rnd, Raise IndexError)
              | Some b =>
                  match Build.add_part b part false with
                  | (b', Ok _) => Some (BuildCollection.set_build self i b', rnd, Ok tt)
                  | (b', Raise (RuntimeError _)) =>
                      match list_remove i eligible with
                      | Ok rest =>
                          BuildCollection.assign_loop fuel
                            (BuildCollection.set_build self i b') part rest lazy rnd
                      | Raise e =>
                          Some (BuildCollection.set_build self i b', rnd, Raise e)
                      end
                  | (b', Raise e) =>
                      Some (BuildCollection.set_build self i b', rnd, Raise e)
                  end
              end = Some (self', rnd', r) ->
              P self').
  { intros fuel IH self i rnd eligible lazy self' rnd' r HP.
    destruct (BuildCollection.build_at self i) as [b|] eqn:Hb.
    2:{ intros H. inversion H; subst. assumption. }
    pose proof (Hadd self i b HP Hb) as HP'.
    destruct (Build.add_part b part false) as [b' [[]|e]]; cbn [fst] in HP'.
    - intros H. inversion H; subst. assumption.
    - destruct e; try (intros H; inversion H; subst; assumption).
      destruct (list_remove i eligible) as [rest|e].
      + now apply IH.
      + intros H. inversion H; subst. assumption. }
  induction fuel as [|fuel IH]; intros self eligible lazy rnd self' rnd' r HP;
    [discriminate|].
  rewrite assign_loop_step. cbv zeta.
  destruct (choice rnd eligible) as [[i rnd1]|e].
  - now apply (Hattempt fuel IH).
  - destruct lazy as [l|].
    + now apply IH.
    + destruct (BuildCollection.spawn_build self) as [self1 i] eqn:Hs.
      apply (Hattempt fuel IH). replace self1 with (fst (BuildCollection.spawn_build self))
        by now rewrite Hs.
      now apply Hspawn.
Qed.

Lemma assign_part_preserves part :
  (forall self, P self -> P (fst (BuildCollection.spawn_build self))) ->
  (forall self i build,
     P self -> BuildCollection.build_at self i = Some build ->
     P (BuildCollection.set_build self i (fst (Build.add_part build part false)))) ->
  forall fuel self rnd self' rnd' r,
    P self ->
    BuildCollection.assign_part fuel self part rnd = Some (self', rnd', r) ->
    P self'.
Proof.
  intros Hspawn Hadd fuel self rnd self' rnd' r HP.
  unfold BuildCollection.assign_part.
  destruct (BuildCollection.filter_builds self _ _ _ None) as [lazy|e];
    [|intros H; inversion H; subst; assumption].
  destruct (BuildCollection.filter_builds self _ _ _ (Some _)) as [eligible|e];
    [|intros H; inversion H; subst; assumption].
  now apply assign_loop_preserves.
Qed.

Lemma assign_each_preserves parts :
  (forall self, P self -> P (fst (BuildCollection.spawn_build self))) ->
  (forall part self i build,
     In part parts ->
     P self -> BuildCollection.build_at self i = Some build ->
     P (BuildCollection.set_build self i (fst (Build.add_part build part false)))) ->
  forall fuel self rnd self' rnd' r,
    P self ->
    BuildCollection.assign_each fuel self parts rnd = Some (self', rnd', r) ->
    P self'.
Proof.
  intros Hspawn. induction parts as [|part parts IH];
    intros Hadd fuel self rnd self' rnd' r HP; simpl.
  - intros H. inversion H; subst. assumption.
  - destruct (BuildCollection.assign_part fuel self part rnd)
      as [[[self1 rnd1] r1]|] eqn:E; [|discriminate].
    assert (HP1 : P self1).
    { apply (assign_part_preserves part Hspawn) in E; auto.
      intros s i b. apply Hadd. now left. }
    destruct r1 as [[]|e].
    + apply IH; auto. intros p s i b Hp. apply Hadd. now right.
    + intros H. inversion H; subst. assumption.
Qed.

(** ... and by [assign_parts], whatever its outcome *)
Lemma assign_parts_preserves parts :
  (forall self, P self -> P (fst (BuildCollection.spawn_build self))) ->
  (forall part self i build,
     In part parts ->
     P self -> BuildCollection.build_at self i = Some build ->
     P (BuildCollection.set_build self i (fst (Build.add_part build part false)))) ->
  forall fuel self rnd self' sorted rnd' r,
    P self ->
    BuildCollection.assign_parts fuel self parts rnd
    = Some (self', sorted, rnd', r) ->
    P self'.
Proof.
  intros Hspawn Hadd fuel self rnd self' sorted rnd' r HP.
  unfold BuildCollection.assign_parts.
  destruct (BuildCollection.ranked_materials self) as [ranked|e];
    [|intros H; inversion H; subst; assumption].
  destruct (BuildCollection.sort_passes (Dict.keys ranked) parts)
    as [parts' [[]|e]] eqn:Hsort;
    [|intros H; inversion H; subst; assumption].
  assert (Hperm : Permutation parts' parts).
  { clear -Hsort. revert parts parts' Hsort.
    induction (Dict.keys ranked) as [|key keys IH]; intros parts parts'; simpl.
    - intros H. now inversion H.
    - unfold BuildCollection.sort_parts. destruct (find _ parts); [discriminate|].
      intros H. apply IH in H. rewrite H. apply sort_desc_perm. }
  destruct (BuildCollection.assign_each fuel self parts' rnd)
    as [[[self1 rnd1] r1]|] eqn:E; [|discriminate].
  intros H. assert (Hself : self1 = self') by congruence. subst self'. clear H.
  apply (assign_each_preserves parts' Hspawn) in E; auto.
  intros part s i b Hp. apply Hadd.
  eapply Permutation_in; [exact Hperm | exact Hp].
Qed.
End CollectionInvariant.

Lemma update_map_same {B} (f : Build.t -> B) l : forall i b b',
  nth_error l i = Some b -> f b' = f b ->
  map f (BuildCollection.update l i b') = map f l.
Proof.
  induction l as [|x l IH]; intros [|i] b b' Hi Hf; simpl in *;
    try discriminate.
  - inversion Hi; subst. now rewrite Hf.
  - now rewrite (IH i b b').
Qed.

Lemma update_Forall_at (Q : Build.t -> Prop) l : forall i b b',
  nth_error l i = Some b -> Forall Q l -> (Q b -> Q b') ->
  Forall Q (BuildCollection.update l i b').
Proof.
  induction l as [|x l IH]; intros [|i] b b' Hi Hl Hq; simpl in *;
    try discriminate; inversion Hl; subst.
  - inversion Hi; subst. constructor; auto.
  - constructor; auto. now apply (IH i b b').
Qed.

(** ** Batch and machine affinity *)

Lemma add_part_ok_match self part :
  snd (Build.add_part self part false) = Ok tt ->
  Build._first_part self = false ->
  Build._batch (Stage.adopt self part) = Some (Test.batch part)
  /\ Build._machine (Stage.adopt self part) = Some (Test.machine part).
Proof.
  intros Hok Hfirst.
  assert (Hf : Stage.forced self false = false).
  { unfold Stage.forced. now rewrite Hfirst. }
  revert Hok. apply add_part_cases; cbn [snd]; try discriminate;
    intros Hun; intros; destruct (Hun Hf) as (? & ? & _); auto.
Qed.

Lemma add_part_affinity build part :
  affinity_kept_build build ->
  affinity_kept_build (fst (Build.add_part build part false)).
Proof.
  intros (Hset & Hunset & Haff).
  destruct (add_part_batch_machine build part false) as [Hb Hm].
  pose proof (adopt_fields build part) as (_ & _ & _ & _ & _ & _ & Hb1 & Hm1).
  cbv zeta in *.
  split; [apply add_part_settled|]. split.
  { intros Hc. pose proof (add_part_constant build part false) as (_ & _ & Hf).
    cbv zeta in Hf. congruence. }
  assert (Hun : untouched build) by (intros Hc; now apply Hunset).
  intros p Hp. unfold Build.batch, Build.machine. rewrite Hb, Hm.
  destruct (Build._first_part build) eqn:Hfirst.
  - (* the first part: batch and machine are adopted from it *)
    destruct (Hunset eq_refl) as (Hnb & Hnm & Hnp).
    rewrite Hb1, Hm1, Hnb, Hnm.
    destruct (snd (Build.add_part build part false)) as [[]|e] eqn:Hr.
    + pose proof (add_part_ok_perm build part Hun Hr) as Hperm.
      apply (Permutation_in _ Hperm) in Hp. unfold Build.parts in Hp.
      rewrite Hnp in Hp. simpl in Hp. destruct Hp as [->|[]]. auto.
    + rewrite (add_part_raise_parts build part false e Hr) in Hp.
      unfold Build.parts in Hp. rewrite Hnp in Hp. destruct Hp.
  - (* later parts pass the batch and machine checks *)
    destruct (Hset Hfirst) as [Hsb Hsm].
    destruct (snd (Build.add_part build part false)) as [[]|e] eqn:Hr.
    + pose proof (add_part_ok_perm build part Hun Hr) as Hperm.
      apply (Permutation_in _ Hperm) in Hp. destruct Hp as [->|Hp].
      * now apply add_part_ok_match.
      * rewrite Hb1, Hm1. destruct (Haff p Hp) as [Hpb Hpm].
        unfold Build.batch, Build.machine in *.
        rewrite Hpb, Hpm. auto.
    + rewrite (add_part_raise_parts build part false e Hr) in Hp.
      rewrite Hb1, Hm1. destruct (Haff p Hp) as [Hpb Hpm].
      unfold Build.batch, Build.machine in *.
      rewrite Hpb, Hpm. auto.
Qed.

Lemma affinity_kept_init n kw :
  BuildCollection.kw_batch kw = None ->
  BuildCollection.kw_machine kw = None ->
  affinity_kept (BuildCollection.init n kw).
Proof.
  intros Hb Hm. split; [assumption|]. split; [assumption|].
  simpl. apply Forall_forall. intros b Hin. apply in_map_iff in Hin.
  destruct Hin as (i & <- & _). unfold BuildCollection.new_build.
  rewrite Hb, Hm. split; [intros Hc; discriminate Hc|].
  split; [intros _; repeat split|]. intros p [].
Qed.

Lemma affinity_kept_assign_parts parts fuel self rnd self' sorted rnd' r :
  affinity_kept self ->
  BuildCollection.assign_parts fuel self parts rnd
  = Some (self', sorted, rnd', r) ->
  affinity_kept self'.
Proof.
  apply (assign_parts_preserves affinity_kept parts).
  - intros c (Hb & Hm & Hall). split; [assumption|]. split; [assumption|].
    simpl. apply Forall_app. split; auto. constructor; [|constructor].
    unfold BuildCollection.new_build. rewrite Hb, Hm.
    split; [intros Hc; discriminate Hc|].
    split; [intros _; repeat split|]. intros p [].
  - intros part c i b _ (Hb & Hm & Hall) Hi.
    split; [assumption|]. split; [assumption|]. simpl.
    apply (update_Forall_at _ _ i b); auto. intros Hq.
    now apply add_part_affinity.
Qed.

(** X12: a collection that creates its Builds without batch or machine
    keeps every Build homogeneous: whatever [assign_parts] does, and
    whatever its outcome, every part stored in a Build has that Build's
    batch and machine.  The collection is in that state when created, and
    remains in it from one [assign_parts] to the next. *)
Theorem X12_builds_hold_one_batch_and_machine n kw parts :
  BuildCollection.kw_batch kw = None ->
  BuildCollection.kw_machine kw = None ->
  affinity_kept (BuildCollection.init n kw)
  /\ forall fuel self rnd self' sorted rnd' r,
       affinity_kept self ->
       BuildCollection.assign_parts fuel self parts rnd
       = Some (self', sorted, rnd', r) ->
       affinity_kept self'
       /\ Forall affine (BuildCollection.builds self').
Proof.
  intros Hb Hm. split; [now apply affinity_kept_init|].
  intros fuel self rnd self' sorted rnd' r Hinv Hrun.
  pose proof (affinity_kept_assign_parts _ _ _ _ _ _ _ _ Hinv Hrun) as Hinv'.
  split; [assumption|]. destruct Hinv' as (_ & _ & Hall).
  eapply Forall_impl; [|exact Hall]. now intros b (_ & _ & Haff).
Qed.

Lemma X12_one_batch_and_machine_witness :
  BuildCollection.kw_batch Scenario.no_kwargs = None
  /\ BuildCollection.kw_machine Scenario.no_kwargs = None
  /\ BuildCollection.assign_parts 8 Scenario.collection
       [Scenario.part_G; Scenario.part_E] (fun n => n) <> None
  /\ match BuildCollection.assign_parts 8 Scenario.collection
             [Scenario.part_G; Scenario.part_E] (fun n => n) with
     | Some (self', _, _, r) =>
         r = Ok tt
         /\ map Build.parts (BuildCollection.builds self')
            = [[Scenario.part_E]; [Scenario.part_G]]
         /\ map Build.batch (BuildCollection.builds self') = [Some 0; Some 1]
         /\ Forall affine (BuildCollection.builds self')
     | None => True
     end.
Proof.
  destruct (X12_builds_hold_one_batch_and_machine 1 Scenario.no_kwargs
              [Scenario.part_G; Scenario.part_E] eq_refl eq_refl)
    as [Hinit Hstep].
  split; [reflexivity|]. split; [reflexivity|].
  split; [vm_compute; discriminate|].
  destruct (BuildCollection.assign_parts 8 Scenario.collection
              [Scenario.part_G; Scenario.part_E] (fun n => n))
    as [[[[self' sorted] rnd'] r]|] eqn:Hrun; [|exact I].
  assert (Hrun' := Hrun). revert Hrun'. vm_compute. intros Hrun'.
  inversion Hrun'; subst. clear Hrun'.
  split; [reflexivity|]. split; [reflexivity|]. split; [reflexivity|].
  exact (proj2 (Hstep _ _ _ _ _ _ _ Hinit Hrun)).
Defined.

(** ** Capacity, collection-wide *)

Lemma add_part_raise_accounts self part ignore_checks e :
  snd (Build.add_part self part ignore_checks) = Raise e ->
  Build._print_time (fst (Build.add_part self part ignore_checks))
  = Build._print_time self
  /\ Build._print_materials (fst (Build.add_part self part ignore_checks))
     = Build._print_materials self.
Proof.
  pose proof (adopt_fields self part) as (_ & _ & _ & Ht1 & Hp1 & _).
  pose proof (seed_fields (Stage.adopt self part) part)
    as (_ & _ & Ht2 & Hp2 & _).
  cbv zeta in *.
  apply add_part_cases; cbn [fst snd]; intros; try discriminate;
    split; congruence.
Qed.

Lemma add_part_first_within_capacity build part ignore_checks :
  (forall m, 0 <= Dict.get0 (Build.max_material build) m) ->
  fits (Build.max_material build) part ->
  Build._print_materials build = [] ->
  within_capacity (fst (Build.add_part build part ignore_checks)).
Proof.
  intros Hpos [Hwf Hfits] Hempty m.
  pose proof (add_part_constant build part ignore_checks) as (_ & Hmax & _).
  cbv zeta in Hmax. rewrite Hmax. unfold Build.print_materials.
  destruct (snd (Build.add_part build part ignore_checks)) as [[]|e] eqn:Hr.
  - destruct (add_part_ok build part ignore_checks Hr) as (_ & _ & _ & Hacc).
    destruct (Stage.opens_group build part); destruct Hacc as [_ ->].
    + rewrite charge_get0 by assumption. rewrite Hempty.
      change (Dict.get0 [] m) with 0.
      destruct (in_dec string_dec m (Dict.keys (Test.print_materials part)))
        as [Hin|Hnotin].
      * apply (get0_In _ _ Hwf) in Hin. apply Hfits in Hin. lia.
      * rewrite (dict_get0_absent _ m Hnotin). specialize (Hpos m). lia.
    + rewrite Hempty. apply Hpos.
  - destruct (add_part_raise_accounts build part ignore_checks e Hr) as [_ ->].
    rewrite Hempty. apply Hpos.
Qed.

Lemma capacity_kept_init n kw :
  (forall m, 0 <= Dict.get0 (match BuildCollection.kw_max_material kw with
                             | Some mm => mm
                             | None => Build.default_max_material
                             end) m) ->
  capacity_kept (BuildCollection.init n kw).
Proof.
  intros Hpos. split; [exact Hpos|]. simpl.
  apply Forall_forall. intros b Hin. apply in_map_iff in Hin.
  destruct Hin as (i & <- & _). split; [reflexivity|].
  split; [|reflexivity]. intros m. apply Hpos.
Qed.

Lemma capacity_kept_assign_parts parts fuel self rnd self' sorted rnd' r :
  Forall (fits (template self)) parts ->
  capacity_kept self ->
  BuildCollection.assign_parts fuel self parts rnd
  = Some (self', sorted, rnd', r) ->
  capacity_kept self' /\ template self' = template self.
Proof.
  intros Hfits Hinv Hrun.
  apply (assign_parts_preserves
           (fun c => capacity_kept c /\ template c = template self) parts)
    in Hrun; auto.
  - intros c [[Hpos Hall] Ht]. split; [|exact Ht]. split; [exact Hpos|].
    cbn [BuildCollection.builds BuildCollection.spawn_build fst].
    apply Forall_app. split; [exact Hall|]. constructor; [|constructor].
    split; [reflexivity|]. split; [intros m; apply Hpos | reflexivity].
  - intros part c i b Hpart [[Hpos Hall] Ht] Hi. split; [|exact Ht].
    split; [exact Hpos|]. simpl.
    apply (update_Forall_at _ _ i b); auto.
    intros (Hmax & Hcap & Hfresh).
    pose proof (add_part_constant b part false) as (_ & Hmax' & Hfirst').
    cbv zeta in Hmax', Hfirst'.
    split; [rewrite Hmax'; exact Hmax|].
    split; [|intros Hc; congruence].
    rewrite Forall_forall in Hfits. specialize (Hfits part Hpart).
    assert (Hmax0 : Build.max_material b = template self)
      by (rewrite <- Ht; exact Hmax).
    destruct (Build._first_part b) eqn:Hfirst.
    + apply add_part_first_within_capacity; auto.
      * intros m. rewrite Hmax0, <- Ht. apply Hpos.
      * rewrite Hmax0. exact Hfits.
    + apply add_part_within_capacity; auto. apply Hfits.
Qed.

(** X13: in a collection whose template capacities are not negative, if
    every part of the list fits, alone, in an empty Build, then after
    [assign_parts], whatever its outcome, every Build of the collection is
    within capacity for every material, the Builds spawned on the way
    included.  The collection is in that state when created. *)
Theorem X13_every_build_within_capacity n kw parts :
  (forall m, 0 <= Dict.get0 (match BuildCollection.kw_max_material kw with
                             | Some mm => mm
                             | None => Build.default_max_material
                             end) m) ->
  capacity_kept (BuildCollection.init n kw)
  /\ forall fuel self rnd self' sorted rnd' r,
       capacity_kept self ->
       Forall (fits (template self)) parts ->
       BuildCollection.assign_parts fuel self parts rnd
       = Some (self', sorted, rnd', r) ->
       capacity_kept self'
       /\ Forall within_capacity (BuildCollection.builds self').
Proof.
  intros Hpos. split; [now apply capacity_kept_init|].
  intros fuel self rnd self' sorted rnd' r Hinv Hfits Hrun.
  destruct (capacity_kept_assign_parts _ _ _ _ _ _ _ _ Hfits Hinv Hrun)
    as [Hinv' _].
  split; [assumption|]. destruct Hinv' as [_ Hall].
  eapply Forall_impl; [|exact Hall]. now intros b (_ & Hcap & _).
Qed.

Lemma nonnegative_capacities (d : Dict.t Z) :
  forallb (fun kv => 0 <=? snd kv) d = true -> forall m, 0 <= Dict.get0 d m.
Proof.
  intros H m. rewrite forallb_forall in H. unfold Dict.get0.
  destruct (Dict.get d m) as [c|] eqn:E; [|lia].
  apply dict_get_In in E. apply H in E. simpl in E. lia.
Qed.

Lemma X13_within_capacity_witness :
  (forall m, 0 <= Dict.get0 Build.default_max_material m)
  /\ Forall (fits (template Scenario.collection))
       [Scenario.part_E; Scenario.part_F]
  /\ BuildCollection.assign_parts 8 Scenario.collection
       [Scenario.part_E; Scenario.part_F] (fun n => n) <> None
  /\ match BuildCollection.assign_parts 8 Scenario.collection
             [Scenario.part_E; Scenario.part_F] (fun n => n) with
     | Some (self', _, _, _) =>
         Forall within_capacity (BuildCollection.builds self')
     | None => True
     end.
Proof.
  assert (H1 : forall m, 0 <= Dict.get0 Build.default_max_material m).
  { apply nonnegative_capacities. reflexivity. }
  assert (H2 : Forall (fits (template Scenario.collection))
                 [Scenario.part_E; Scenario.part_F]).
  { repeat constructor; simpl; try (intuition discriminate);
      intros key q [Heq|[Heq|[]]]; inversion Heq; subst;
      apply Z.leb_le; reflexivity. }
  destruct (X13_every_build_within_capacity 1 Scenario.no_kwargs
              [Scenario.part_E; Scenario.part_F] H1) as [Hinit Hstep].
  split; [exact H1|]. split; [exact H2|].
  split; [vm_compute; discriminate|].
  destruct (BuildCollection.assign_parts 8 Scenario.collection
              [Scenario.part_E; Scenario.part_F] (fun n => n))
    as [[[[self' sorted] rnd'] r]|] eqn:Hrun; [|exact I].
  exact (proj2 (Hstep _ _ _ _ _ _ _ Hinit H2 Hrun)).
Defined.

(** ** Names of Builds *)

Lemma to_int_proper z :
  Z.to_int z <> Decimal.Pos Decimal.Nil /\ Z.to_int z <> Decimal.Neg Decimal.Nil.
Proof.
  destruct z; simpl; split; try discriminate; intros H; inversion H as [H'];
    now apply Unsigned.to_uint_nonnil in H'.
Qed.

Lemma build_name_inj i j :
  BuildCollection.build_name i = BuildCollection.build_name j -> i = j.
Proof.
  unfold BuildCollection.build_name. intros H. simpl in H. inversion H as [H'].
  apply (f_equal NilZero.int_of_string) in H'.
  destruct (to_int_proper i), (to_int_proper j).
  rewrite !NilZero.isi in H' by assumption.
  inversion H' as [H'']. apply (f_equal Z.of_int) in H''.
  now rewrite !DecimalZ.of_to in H''.
Qed.

Lemma NoDup_map_inj {A B} (f : A -> B) (l : list A) :
  (forall x y, f x = f y -> x = y) -> NoDup l -> NoDup (map f l).
Proof.
  intros Hinj. induction 1 as [|x l Hnotin _ IH]; simpl; constructor; auto.
  intros Hin. apply in_map_iff in Hin. destruct Hin as (y & Hy & Hin).
  apply Hinj in Hy. now subst y.
Qed.

Lemma names_fresh_init n kw : names_fresh (BuildCollection.init n kw).
Proof.
  unfold names_fresh, BuildCollection.init, BuildCollection.range. simpl.
  rewrite !map_map. split.
  - apply NoDup_map_inj; [|apply seq_NoDup].
    intros x y H. simpl in H. apply build_name_inj in H. lia.
  - apply Forall_forall. intros b Hin. apply in_map_iff in Hin.
    destruct Hin as (j & <- & Hj). apply in_seq in Hj.
    exists (Z.of_nat j). split; [reflexivity|]. lia.
Qed.

Lemma names_fresh_spawn self :
  names_fresh self -> names_fresh (fst (BuildCollection.spawn_build self)).
Proof.
  intros [Hnd Hall]. unfold names_fresh. simpl. split.
  - rewrite map_app. simpl. apply NoDup_app; auto.
    + repeat constructor. intros [].
    + intros nm Hin [Heq|[]]. apply in_map_iff in Hin.
      destruct Hin as (b & Hb & Hin). rewrite Forall_forall in Hall.
      destruct (Hall b Hin) as (i & Hi & Hlt). subst nm.
      rewrite Hi in Heq. apply build_name_inj in Heq. lia.
  - apply Forall_app. split.
    + eapply Forall_impl; [|exact Hall]. intros b (i & Hi & Hlt).
      exists i. split; auto. lia.
    + constructor; [|constructor].
      exists (BuildCollection.num_builds self). split; [reflexivity | lia].
Qed.

Lemma names_fresh_add_part self i build part ignore_checks :
  names_fresh self ->
  BuildCollection.build_at self i = Some build ->
  names_fresh (BuildCollection.set_build self i
                 (fst (Build.add_part build part ignore_checks))).
Proof.
  intros [Hnd Hall] Hi.
  pose proof (add_part_constant build part ignore_checks) as (Hname & _).
  cbv zeta in Hname. unfold names_fresh. simpl. split.
  - now rewrite (update_map_same Build.name _ i build).
  - apply (update_Forall_at _ _ i build); auto.
    intros (j & Hj & Hlt). exists j. split; [congruence | assumption].
Qed.

(** X14: no two Builds of a collection ever share a name.  A collection is
    created with distinct names numbered below [num_builds];
    [spawn_build] returns a reference to a Build just created from the
    template and named by a number not yet given out; and
    [assign_parts], whatever it does and whatever its outcome, keeps the
    names distinct. *)
Theorem X14_build_names_stay_distinct n kw parts :
  names_fresh (BuildCollection.init n kw)
  /\ (forall self,
        names_fresh self ->
        names_fresh (fst (BuildCollection.spawn_build self))
        /\ BuildCollection.build_at (fst (BuildCollection.spawn_build self))
             (snd (BuildCollection.spawn_build self))
           = Some (Build.init
                     (BuildCollection.build_name (BuildCollection.num_builds self))
                     (BuildCollection.kw_batch (BuildCollection.build_kwargs self))
                     (BuildCollection.kw_machine (BuildCollection.build_kwargs self))
                     (template self)))
  /\ forall fuel self rnd self' sorted rnd' r,
       names_fresh self ->
       BuildCollection.assign_parts fuel self parts rnd
       = Some (self', sorted, rnd', r) ->
       names_fresh self'
       /\ NoDup (map Build.name (BuildCollection.builds self')).
Proof.
  split; [apply names_fresh_init|]. split.
  - intros self Hinv. split; [now apply names_fresh_spawn|].
    unfold BuildCollection.build_at. simpl.
    now rewrite nth_error_app2, Nat.sub_diag by lia.
  - intros fuel self rnd self' sorted rnd' r Hinv Hrun.
    assert (Hinv' : names_fresh self').
    { apply (assign_parts_preserves names_fresh parts) in Hrun; auto.
      - apply names_fresh_spawn.
      - intros part c i b _ Hc Hi. now apply names_fresh_add_part. }
    split; [assumption | apply Hinv'].
Qed.

Lemma X14_build_names_witness :
  BuildCollection.assign_parts 8 Scenario.collection
    [Scenario.part_E; Scenario.part_F] (fun n => n) <> None
  /\ match BuildCollection.assign_parts 8 Scenario.collection
             [Scenario.part_E; Scenario.part_F] (fun n => n) with
     | Some (self', _, _, _) =>
         NoDup (map Build.name (BuildCollection.builds self'))
     | None => True
     end.
Proof.
  destruct (X14_build_names_stay_distinct 1 Scenario.no_kwargs
              [Scenario.part_E; Scenario.part_F]) as (Hinit & _ & Hstep).
  split; [vm_compute; discriminate|].
  destruct (BuildCollection.assign_parts 8 Scenario.collection
              [Scenario.part_E; Scenario.part_F] (fun n => n))
    as [[[[self' sorted] rnd'] r]|] eqn:Hrun; [|exact I].
  exact (proj2 (Hstep _ _ _ _ _ _ _ Hinit Hrun)).
Defined.

(** ** Builds are only ever added *)

Lemma update_app l1 : forall l2 i b,
  BuildCollection.update (l1 ++ l2) i b
  = if Nat.ltb i (List.length l1)
    then BuildCollection.update l1 i b ++ l2
    else l1 ++ BuildCollection.update l2 (i - List.length l1) b.
Proof.
  induction l1 as [|x l1 IH]; intros l2 i b; simpl.
  - now rewrite Nat.sub_0_r.
  - destruct i as [|i]; simpl; auto.
    rewrite IH. change (Nat.ltb (S i) (S (List.length l1)))
      with (Nat.ltb i (List.length l1)).
    now destruct (Nat.ltb i (List.length l1)).
Qed.

Lemma update_Forall2_evolves l0 olds : forall i b part ignore_checks,
  Forall2 evolves l0 olds ->
  nth_error olds i = Some b ->
  Forall2 evolves l0
    (BuildCollection.update olds i (fst (Build.add_part b part ignore_checks))).
Proof.
  intros i b part ign H. revert i.
  induction H as [|x y l0 olds Hxy Hrest IH]; intros [|i] Hi; simpl in *;
    try discriminate.
  - inversion Hi; subst. constructor; [now constructor | assumption].
  - constructor; auto.
Qed.

Lemma grown_from_refl self : grown_from self self.
Proof.
  split; [reflexivity|]. exists (BuildCollection.builds self), [].
  rewrite app_nil_r. repeat split; auto; [|simpl; lia].
  induction (BuildCollection.builds self); constructor; auto. constructor.
Qed.

Lemma grown_from_spawn self0 self :
  grown_from self0 self ->
  grown_from self0 (fst (BuildCollection.spawn_build self)).
Proof.
  intros (Hkw & olds & news & Hb & Hold & Hnew & Hnum).
  split; [exact Hkw|].
  exists olds, (news ++ [BuildCollection.new_build
                           (BuildCollection.num_builds self)
                           (BuildCollection.build_kwargs self)]).
  simpl. rewrite Hb, app_assoc. split; [reflexivity|]. split; [assumption|].
  split.
  - apply Forall_app. split; auto. constructor; [|constructor].
    exists (BuildCollection.num_builds self). rewrite Hkw. constructor.
  - rewrite length_app, Nat2Z.inj_add. simpl. lia.
Qed.

Lemma grown_from_add_part self0 self i build part ignore_checks :
  grown_from self0 self ->
  BuildCollection.build_at self i = Some build ->
  grown_from self0
    (BuildCollection.set_build self i
       (fst (Build.add_part build part ignore_checks))).
Proof.
  intros (Hkw & olds & news & Hb & Hold & Hnew & Hnum) Hi.
  split; [exact Hkw|]. unfold BuildCollection.build_at in Hi.
  rewrite Hb in Hi. simpl. rewrite Hb, update_app.
  destruct (Nat.ltb_spec i (List.length olds)) as [Hlt|Hge].
  - rewrite nth_error_app1 in Hi by assumption.
    exists (BuildCollection.update olds i
              (fst (Build.add_part build part ignore_checks))), news.
    split; [reflexivity|]. split; [now apply update_Forall2_evolves|].
    split; assumption.
  - rewrite nth_error_app2 in Hi by assumption.
    exists olds, (BuildCollection.update news (i - List.length olds)
                    (fst (Build.add_part build part ignore_checks))).
    split; [reflexivity|]. split; [assumption|]. split.
    + apply (update_Forall_at _ _ _ build); auto.
      intros (j & Hj). exists j. now constructor.
    + now rewrite update_length.
Qed.

(** X15: [assign_parts] never removes, replaces or reorders a Build: the
    collection afterwards, whatever the outcome, holds each earlier Build
    in its place, as [add_part] calls have left it, followed by the Builds
    spawned from the template; and [num_builds] has grown by the number of
    Builds spawned. *)
Theorem X15_builds_are_only_added parts fuel self rnd self' sorted rnd' r :
  BuildCollection.assign_parts fuel self parts rnd
  = Some (self', sorted, rnd', r) ->
  grown_from self self'
  /\ (List.length (BuildCollection.builds self)
      <= List.length (BuildCollection.builds self'))%nat
  /\ forall i build,
       BuildCollection.build_at self i = Some build ->
       exists build',
         BuildCollection.build_at self' i = Some build'
         /\ evolves build build'
         /\ Build.name build' = Build.name build
         /\ Build.max_material build' = Build.max_material build.
Proof.
  intros Hrun.
  assert (Hgrown : grown_from self self').
  { apply (assign_parts_preserves (grown_from self) parts) in Hrun; auto.
    - apply grown_from_spawn.
    - intros part c i b _ Hc Hi. now apply grown_from_add_part.
    - apply grown_from_refl. }
  split; [assumption|].
  destruct Hgrown as (_ & olds & news & Hb & Hold & _).
  pose proof (Forall2_length Hold) as Hlen.
  split; [rewrite Hb, length_app; lia|].
  intros i build Hi. unfold BuildCollection.build_at in *. rewrite Hb.
  assert (Hlt : (i < List.length olds)%nat).
  { rewrite <- Hlen. apply nth_error_Some. congruence. }
  rewrite nth_error_app1 by assumption.
  clear Hb Hlen Hrun. revert i Hi Hlt.
  induction Hold as [|x y l0 olds Hxy _ IH]; intros [|i] Hi Hlt; simpl in *;
    try discriminate; try lia.
  - inversion Hi; subst. exists y. split; [reflexivity|]. split; [assumption|].
    clear -Hxy. induction Hxy as [|b' part ign _ [IHn IHm]]; [now split|].
    pose proof (add_part_constant b' part ign) as (Hn & Hm & _).
    cbv zeta in Hn, Hm. split; congruence.
  - apply IH; auto. lia.
Qed.

Lemma X15_builds_only_added_witness :
  BuildCollection.assign_parts 8 Scenario.collection
    [Scenario.part_E; Scenario.part_F] (fun n => n) <> None
  /\ match BuildCollection.assign_parts 8 Scenario.collection
             [Scenario.part_E; Scenario.part_F] (fun n => n) with
     | Some (self', _, _, _) => grown_from Scenario.collection self'
     | None => True
     end.
Proof.
  split; [vm_compute; discriminate|].
  destruct (BuildCollection.assign_parts 8 Scenario.collection
              [Scenario.part_E; Scenario.part_F] (fun n => n))
    as [[[[self' sorted] rnd'] r]|] eqn:Hrun; [|exact I].
  exact (proj1 (X15_builds_are_only_added _ _ _ _ _ _ _ _ Hrun)).
Defined.

(** * The output layer *)

(** ** Loops whose body may raise *)

Section Traverse.
Variables A B : Type.
Variable f : A -> result B.

Lemma traverse_Ok_iff l :
  (exists ys, traverse f l = Ok ys) <-> Forall (fun x => exists y, f x = Ok y) l.
Proof.
  induction l as [|x l IH]; simpl.
  - split; [constructor | now exists []].
  - split.
    + intros (ys & H). destruct (f x) as [y|e] eqn:Ex; [|discriminate].
      simpl in H. destruct (traverse f l) as [ys'|e] eqn:El; [|discriminate].
      constructor; [now exists y | apply IH; now exists ys'].
    + intros H. inversion H as [|? ? (y & Hy) Hl]; subst.
      apply IH in Hl. destruct Hl as (ys & Hys). rewrite Hy, Hys. simpl.
      now eexists.
Qed.

Lemma traverse_Raise l e :
  traverse f l = Raise e -> exists x, In x l /\ f x = Raise e.
Proof.
  induction l as [|x l IH]; simpl; [discriminate|].
  destruct (f x) as [y|e'] eqn:Ex; simpl.
  - destruct (traverse f l) as [ys|e'']; simpl; [discriminate|].
    intros H. inversion H; subst. destruct (IH eq_refl) as (x' & Hin & Hx').
    exists x'. auto.
  - intros H. inversion H; subst. exists x. auto.
Qed.

Lemma traverse_length l ys : traverse f l = Ok ys -> List.length ys = List.length l.
Proof.
  revert ys. induction l as [|x l IH]; simpl; intros ys H.
  - now inversion H.
  - destruct (f x) as [y|e]; [|discriminate]. simpl in H.
    destruct (traverse f l) as [ys'|e]; [|discriminate]. simpl in H.
    inversion H; subst. simpl. f_equal. now apply IH.
Qed.

Lemma traverse_app l1 l2 :
  traverse f (l1 ++ l2)
  = (ys1 <- traverse f l1 ;; ys2 <- traverse f l2 ;; Ok (ys1 ++ ys2)).
Proof.
  induction l1 as [|x l1 IH]; simpl.
  - now destruct (traverse f l2).
  - destruct (f x) as [y|e]; simpl; auto. rewrite IH.
    destruct (traverse f l1) as [ys1|e]; simpl; auto.
    now destruct (traverse f l2).
Qed.
End Traverse.

(** ** [Build.__repr__] *)

Lemma tuple_getitem_Ok t i :
  (exists s, tuple_getitem t i = Ok s)
  <-> - Z.of_nat (List.length t) <= i < Z.of_nat (List.length t).
Proof.
  unfold tuple_getitem.
  destruct (Z.ltb_spec i 0);
    destruct (Z.leb_spec 0 (i + Z.of_nat (List.length t)));
    destruct (Z.ltb_spec (i + Z.of_nat (List.length t))
                (Z.of_nat (List.length t)));
    destruct (Z.leb_spec 0 i);
    destruct (Z.ltb_spec i (Z.of_nat (List.length t)));
    simpl; split; try lia; try (intros _; now eexists);
    intros (s & Hs); discriminate.
Qed.

Lemma tuple_getitem_Raise t i e : tuple_getitem t i = Raise e -> e = IndexError.
Proof.
  unfold tuple_getitem. destruct (_ && _); intros H; now inversion H.
Qed.

Lemma sample_label_Ok part :
  (exists s, Build.sample_label part = Ok s) <-> sample_in_range part.
Proof.
  unfold Build.sample_label, sample_in_range.
  pose proof (tuple_getitem_Ok SAMPLE_MAP (Test.sample part)) as H.
  change (Z.of_nat (List.length SAMPLE_MAP)) with 5 in H. rewrite <- H.
  destruct (tuple_getitem SAMPLE_MAP (Test.sample part)) as [s|e]; simpl;
    split; intros (s' & Hs); try discriminate; now eexists.
Qed.

Lemma traverse_labels_Ok parts :
  (exists ys, traverse Build.sample_label parts = Ok ys)
  <-> Forall sample_in_range parts.
Proof.
  rewrite traverse_Ok_iff, !Forall_forall. split; intros H x Hx.
  - apply sample_label_Ok. now apply H.
  - apply sample_label_Ok. now apply H.
Qed.

Lemma sample_label_Raise part e :
  Build.sample_label part = Raise e -> e = IndexError.
Proof.
  unfold Build.sample_label.
  destruct (tuple_getitem SAMPLE_MAP (Test.sample part)) as [s|e'] eqn:E;
    simpl; intros H; [discriminate|].
  inversion H; subst. now apply tuple_getitem_Raise in E.
Qed.

Lemma repr_line_Ok kv :
  (exists s, Build.repr_line kv = Ok s)
  <-> Forall sample_in_range (Dict.values (snd kv)).
Proof.
  rewrite <- traverse_labels_Ok. unfold Build.repr_line.
  destruct (traverse Build.sample_label (Dict.values (snd kv))) as [ys|e];
    simpl; split; intros (s & Hs); try discriminate; now eexists.
Qed.

Lemma repr_line_Raise kv e : Build.repr_line kv = Raise e -> e = IndexError.
Proof.
  unfold Build.repr_line.
  destruct (traverse Build.sample_label (Dict.values (snd kv))) as [ys|e']
    eqn:E; simpl; intros H; [discriminate|].
  inversion H; subst. apply traverse_Raise in E.
  destruct E as (x & _ & Hx). now apply sample_label_Raise in Hx.
Qed.

Lemma listing_Ok self :
  (exists lines, Build.listing self = Ok lines)
  <-> Forall sample_in_range (Build.parts self).
Proof.
  unfold Build.listing, Build.parts. rewrite traverse_Ok_iff.
  induction (Build._parts self) as [|kv l IH]; simpl.
  - split; constructor.
  - rewrite Forall_app, <- IH, <- repr_line_Ok. split.
    + intros H. inversion H; subst. auto.
    + intros [H1 H2]. now constructor.
Qed.

Lemma listing_Raise self e : Build.listing self = Raise e -> e = IndexError.
Proof.
  unfold Build.listing. intros H. apply traverse_Raise in H.
  destruct H as (kv & _ & Hkv). now apply repr_line_Raise in Hkv.
Qed.

Lemma repr_Ok self :
  (exists s, Build.__repr__ self = Ok s)
  <-> Forall sample_in_range (Build.parts self).
Proof.
  rewrite <- listing_Ok. unfold Build.__repr__.
  destruct (Build.listing self) as [lines|e]; simpl; split;
    intros (s & Hs); try discriminate; now eexists.
Qed.

(** X16: [__repr__] returns normally exactly when the sample index of every
    stored part selects one of the five sample labels, counting from the
    end when negative ([-5 <= sample < 5]); otherwise it raises
    [IndexError], and it raises nothing else.  When it returns, the listing
    has one line per base name of the internal mapping. *)
Theorem X16_repr_needs_samples_in_range self :
  ((exists s, Build.__repr__ self = Ok s)
   <-> Forall sample_in_range (Build.parts self))
  /\ (forall e, Build.__repr__ self = Raise e -> e = IndexError)
  /\ (forall lines, Build.listing self = Ok lines ->
        List.length lines = List.length (Build._parts self)
        /\ Build.__repr__ self = Ok (String.concat newline lines)).
Proof.
  split; [apply repr_Ok|]. split.
  - intros e. unfold Build.__repr__.
    destruct (Build.listing self) as [lines|e'] eqn:E; simpl; intros H;
      [discriminate|].
    inversion H; subst. now apply listing_Raise in E.
  - intros lines H. split.
    + now apply traverse_length in H.
    + unfold Build.__repr__. now rewrite H.
Qed.

(** X17: a failed call that seeded a group shows in the listing: after a
    material failure for a part whose base name was not in the internal
    mapping, the listing of the Build is the listing before followed by a
    line counting 0 parts of that base name. *)
Theorem X17_failed_call_adds_an_empty_line self part ignore_checks key :
  settled self ->
  snd (Build.add_part self part ignore_checks) = Raise (MaterialExceeded key) ->
  Dict.get (Build._parts self) (Test.base_name part) = None ->
  Build.listing (fst (Build.add_part self part ignore_checks))
  = (lines <- Build.listing self ;;
     Ok (lines ++ [String.append "0x " (String.append (Test.base_name part) " ()")])).
Proof.
  intros Hset Hraise Hnone.
  destruct (add_part_failure self part ignore_checks _ Hset Hraise)
    as (_ & [Hsame|(_ & Hseeded & _)]).
  - exfalso. revert Hraise Hsame.
    assert (Hself : Stage.forced self ignore_checks = false ->
                    Stage.adopt self part = self).
    { intros Hf. apply forced_false in Hf. destruct Hf as [Hf _].
      destruct (Hset Hf). now apply adopt_settled. }
    apply add_part_cases; cbn [fst snd]; try discriminate.
    intros key' Hf _ _ _ _ _. rewrite (Hself Hf).
    destruct (seed_parts self part) as [[Hsome _]|[_ E]]; [contradiction|].
    rewrite E. intros H. apply (f_equal (@List.length _)) in H.
    rewrite length_app in H. simpl in H. lia.
  - unfold Build.listing. rewrite Hseeded, traverse_app.
    destruct (traverse Build.repr_line (Build._parts self)) as [lines|e];
      reflexivity.
Qed.

Lemma X17_failed_call_witness :
  settled Scenario.build_A
  /\ snd (Build.add_part Scenario.build_A Scenario.part_D false)
     = Raise (MaterialExceeded "CFA")
  /\ Build.listing (fst (Build.add_part Scenario.build_A Scenario.part_D false))
     = Ok ["1x D6641 (RTD-1)"; "0x D256 ()"].
Proof.
  assert (H1 : settled Scenario.build_A)
    by (intros _; split; discriminate).
  assert (H2 : snd (Build.add_part Scenario.build_A Scenario.part_D false)
               = Raise (MaterialExceeded "CFA")) by reflexivity.
  split; [exact H1|]. split; [exact H2|].
  exact (X17_failed_call_adds_an_empty_line Scenario.build_A Scenario.part_D
           false "CFA" H1 H2 eq_refl).
Defined.

(** ** [BuildCollection.to_csv] *)

Lemma tuple_getitem_opt_Written t i :
  (exists s, BuildCollection.tuple_getitem_opt t i = BuildCollection.Written s)
  <-> exists z, i = Some z
                /\ - Z.of_nat (List.length t) <= z < Z.of_nat (List.length t).
Proof.
  destruct i as [z|]; simpl.
  - split.
    + intros (s & Hs). exists z. split; auto. apply tuple_getitem_Ok.
      destruct (tuple_getitem t z) as [s'|e]; [now eexists | discriminate].
    + intros (z' & Hz & Hr). inversion Hz; subst z'.
      apply tuple_getitem_Ok in Hr. destruct Hr as (s & ->). now eexists.
  - split; [intros (s & Hs); discriminate | intros (z & Hz & _); discriminate].
Qed.

Lemma csv_row_Written build :
  (exists row, BuildCollection.csv_row build = BuildCollection.Written row)
  <-> csv_ready build.
Proof.
  unfold csv_ready, BuildCollection.csv_row.
  pose proof (repr_Ok build) as Hr.
  pose proof (tuple_getitem_opt_Written BATCH_MAP (Build.batch build)) as Hb.
  pose proof (tuple_getitem_opt_Written MACHINE_MAP (Build.machine build)) as Hm.
  change (Z.of_nat (List.length BATCH_MAP)) with 3 in Hb.
  change (Z.of_nat (List.length MACHINE_MAP)) with 2 in Hm.
  split.
  - intros (row & H).
    destruct (Build.__repr__ build) as [listing|e]; [|discriminate].
    simpl in H.
    destruct (BuildCollection.tuple_getitem_opt BATCH_MAP (Build.batch build))
      as [b|e|]; try discriminate. simpl in H.
    destruct (BuildCollection.tuple_getitem_opt MACHINE_MAP (Build.machine build))
      as [m|e|]; try discriminate.
    split; [apply Hr; now eexists|].
    split; [apply Hb; now eexists | apply Hm; now eexists].
  - intros (H1 & H2 & H3).
    apply Hr in H1. destruct H1 as (listing & ->).
    apply Hb in H2. destruct H2 as (b & ->).
    apply Hm in H3. destruct H3 as (m & ->).
    simpl. now eexists.
Qed.

Lemma csv_rows_Written builds :
  (exists rows, BuildCollection.csv_rows builds = BuildCollection.Written rows)
  <-> Forall csv_ready builds.
Proof.
  induction builds as [|b builds IH]; simpl.
  - split; [constructor | now eexists].
  - split.
    + intros (rows & H).
      destruct (BuildCollection.csv_row b) as [row|e|] eqn:Er;
        try discriminate. simpl in H.
      destruct (BuildCollection.csv_rows builds) as [rows'|e|] eqn:Ers;
        try discriminate.
      constructor; [apply csv_row_Written; exists row; exact Er
                   | apply IH; exists rows'; reflexivity].
    + intros H. inversion H as [|? ? Hb Hbs]; subst.
      apply csv_row_Written in Hb. destruct Hb as (row & ->).
      apply IH in Hbs. destruct Hbs as (rows & ->). simpl. now eexists.
Qed.

Lemma csv_rows_length builds rows :
  BuildCollection.csv_rows builds = BuildCollection.Written rows ->
  List.length rows = List.length builds.
Proof.
  revert rows. induction builds as [|b builds IH]; simpl; intros rows H.
  - now inversion H.
  - destruct (BuildCollection.csv_row b) as [row|e|]; try discriminate.
    simpl in H.
    destruct (BuildCollection.csv_rows builds) as [rows'|e|]; try discriminate.
    simpl in H. inversion H; subst. simpl. f_equal. now apply IH.
Qed.

(** X18: [to_csv] writes its file exactly when every Build of the
    collection has a batch between -3 and 2, a machine between -2 and 1
    (the bounds of the two lookup tables, negative indices counting from
    the end) and only parts whose sample index is between -5 and 4; it
    then writes one row per Build.  In particular a Build that never
    received a part and has no batch makes [to_csv] raise: a collection
    just created with at least one Build and no preset batch raises
    [TypeError]. *)
Theorem X18_to_csv_needs_every_build_ready self :
  ((exists text, BuildCollection.to_csv self = BuildCollection.Written text)
   <-> Forall csv_ready (BuildCollection.builds self))
  /\ (forall rows,
        BuildCollection.csv_rows (BuildCollection.builds self)
        = BuildCollection.Written rows ->
        List.length rows = List.length (BuildCollection.builds self)
        /\ BuildCollection.to_csv self
           = BuildCollection.Written (String.concat newline rows))
  /\ forall n kw,
       0 < n -> BuildCollection.kw_batch kw = None ->
       BuildCollection.to_csv (BuildCollection.init n kw)
       = BuildCollection.FailedTypeError.
Proof.
  split; [|split].
  - rewrite <- csv_rows_Written. unfold BuildCollection.to_csv.
    destruct (BuildCollection.csv_rows (BuildCollection.builds self))
      as [rows|e|]; simpl; split; intros (x & Hx); try discriminate;
      now eexists.
  - intros rows H. split; [now apply csv_rows_length|].
    unfold BuildCollection.to_csv. now rewrite H.
  - intros n kw Hn Hb.
    unfold BuildCollection.to_csv, BuildCollection.init, BuildCollection.range.
    cbn [BuildCollection.builds].
    destruct (Z.to_nat n) as [|k] eqn:Ek; [lia|].
    cbn [seq map BuildCollection.csv_rows].
    unfold BuildCollection.csv_row, BuildCollection.new_build, Build.batch.
    cbn [Build.init Build._batch]. rewrite Hb. reflexivity.
Qed.

Lemma X18_to_csv_witness :
  0 < 3
  /\ BuildCollection.kw_batch Scenario.no_kwargs = None
  /\ BuildCollection.to_csv (BuildCollection.init 3 Scenario.no_kwargs)
     = BuildCollection.FailedTypeError.
Proof.
  assert (H1 : 0 < 3) by reflexivity.
  assert (H2 : BuildCollection.kw_batch Scenario.no_kwargs = None)
    by reflexivity.
  split; [exact H1|]. split; [exact H2|].
  exact (proj2 (proj2 (X18_to_csv_needs_every_build_ready Scenario.collection))
           3 Scenario.no_kwargs H1 H2).
Defined.

(** * Test names *)

Lemma append_assoc_string (a b c : string) :
  String.append (String.append a b) c = String.append a (String.append b c).
Proof. induction a as [|ch a IH]; simpl; [reflexivity | now rewrite IH]. Qed.

Lemma concat_hyphen_head a k rest :
  String.concat "-" (String.append a (String.append "-" k) :: rest)
  = String.concat "-" (a :: k :: rest).
Proof.
  destruct rest as [|k2 rest]; cbn [String.concat]; [reflexivity|].
  now rewrite !append_assoc_string.
Qed.

Lemma name_along_from path : forall name,
  fold_left (fun test_name key => Some (_concat_name test_name (Some key)))
            path (Some name)
  = Some (String.concat "-" (name :: path)).
Proof.
  induction path as [|key path IH]; intros name; [reflexivity|].
  cbn [fold_left]. unfold _concat_name at 2. cbn [app String.concat].
  rewrite IH. now rewrite concat_hyphen_head.
Qed.

(** X19: the test name handed down a branch of the matrix, built by
    [_concat_name] one key at a time from [None], is the keys of the branch
    joined by hyphens; before the first key there is no name. *)
Theorem X19_names_join_the_keys path :
  name_along path
  = match path with
    | [] => None
    | _ :: _ => Some (String.concat "-" path)
    end.
Proof.
  destruct path as [|key path]; [reflexivity|].
  unfold name_along. cbn [fold_left]. unfold _concat_name at 2.
  cbn [app String.concat]. apply name_along_from.
Qed.

(** * When [assign_part] spawns a Build *)

Lemma list_remove_split x l rest :
  list_remove x l = Ok rest -> forall j, In j l -> j = x \/ In j rest.
Proof.
  revert rest. induction l as [|y l IH]; simpl; intros rest H j Hj;
    [discriminate|].
  destruct (Nat.eqb_spec y x) as [->|Hne].
  - inversion H; subst. destruct Hj; auto.
  - destruct (list_remove x l) as [rest'|e]; [|discriminate]. simpl in H.
    inversion H; subst. destruct Hj as [->|Hj]; [right; now left|].
    destruct (IH rest' eq_refl j Hj); auto. right. now right.
Qed.

Lemma choice_picks rnd l i rnd' : choice rnd l = Ok (i, rnd') -> In i l.
Proof.
  destruct l as [|i0 l]; [discriminate|].
  destruct (choice_In rnd i0 l) as (j & rnd1 & Hc & Hin).
  intros H. rewrite Hc in H. now inversion H; subst.
Qed.

Lemma update_nth_error_other l : forall i j b,
  i <> j -> nth_error (BuildCollection.update l i b) j = nth_error l j.
Proof.
  induction l as [|x l IH]; intros [|i] [|j] b Hne; simpl; auto;
    try congruence.
Qed.

Lemma refuses_before self part i build msg j :
  BuildCollection.build_at self i = Some build ->
  snd (Build.add_part build part false) = Raise (RuntimeError msg) ->
  refuses (BuildCollection.set_build self i
             (fst (Build.add_part build part false))) part j ->
  refuses self part j.
Proof.
  intros Hi Hno (b & msg' & Hb & Hr).
  destruct (Nat.eq_dec i j) as [<-|Hne].
  - now exists build, msg.
  - exists b, msg'. split; auto. unfold BuildCollection.build_at in *.
    simpl in Hb. now rewrite update_nth_error_other in Hb.
Qed.

(** the loop passes to a spawned Build only once every candidate has
    refused the part *)
Lemma assign_loop_spawns_last part : forall fuel self eligible lazy rnd self' rnd' r,
  BuildCollection.assign_loop fuel self part eligible lazy rnd
  = Some (self', rnd', r) ->
  List.length (BuildCollection.builds self')
  <> List.length (BuildCollection.builds self) ->
  (forall i, In i eligible -> refuses self part i)
  /\ (forall l, lazy = Some l -> forall i, In i l -> refuses self part i).
Proof.
  induction fuel as [|fuel IH]; intros self eligible lazy rnd self' rnd' r;
    [discriminate|].
  rewrite assign_loop_step. cbv zeta.
  destruct (choice rnd eligible) as [[i rnd1]|e] eqn:Hc.
  - (* a candidate is tried *)
    apply choice_picks in Hc.
    destruct (BuildCollection.build_at self i) as [b|] eqn:Hb.
    2:{ intros H Hlen. inversion H; subst. contradiction. }
    destruct (Build.add_part b part false) as [b' res] eqn:Hadd.
    assert (Hlen1 : List.length (BuildCollection.builds
                                   (BuildCollection.set_build self i b'))
                    = List.length (BuildCollection.builds self))
      by apply update_length.
    destruct res as [[]|e].
    { intros H Hlen. inversion H; subst. contradiction. }
    destruct e as [msg| | | | |];
      try (intros H Hlen; inversion H; subst; contradiction).
    destruct (list_remove i eligible) as [rest|e] eqn:Hrem;
      [|intros H Hlen; inversion H; subst; contradiction].
    intros H Hlen. rewrite <- Hlen1 in Hlen.
    destruct (IH _ _ _ _ _ _ _ H Hlen) as [Hrest Hlazy].
    assert (Hno : snd (Build.add_part b part false) = Raise (RuntimeError msg))
      by now rewrite Hadd.
    assert (Hback : forall j,
              refuses (BuildCollection.set_build self i b') part j ->
              refuses self part j).
    { intros j Hj. apply (refuses_before self part i b msg j Hb Hno).
      now rewrite Hadd. }
    split.
    + intros j Hj. destruct (list_remove_split i eligible rest Hrem j Hj)
        as [->|Hin]; [now exists b, msg | now apply Hback, Hrest].
    + intros l Hl j Hj. now apply Hback, (Hlazy l Hl).
  - (* no candidate left in the current list *)
    assert (Hnil : eligible = []).
    { destruct eligible; [reflexivity | discriminate]. }
    subst eligible. destruct lazy as [l|].
    + intros H Hlen. destruct (IH _ _ _ _ _ _ _ H Hlen) as [Hl _].
      split; [intros i []|]. intros l' Heq. now inversion Heq; subst.
    + intros _ _. split; [intros i [] | discriminate].
Qed.

(** X20: [assign_part] spawns a Build only as a last resort: when the
    collection has another number of Builds afterwards, every Build that
    either call to [filter_builds] returned (those holding the part's base
    name, and those with capacity left for the part's materials) was tried
    on the way and refused the part as the collection had it at the start,
    on a duplicate or on material. *)
Theorem X20_spawn_is_the_last_resort fuel self part rnd self' rnd' r refs i :
  BuildCollection.assign_part fuel self part rnd = Some (self', rnd', r) ->
  List.length (BuildCollection.builds self')
  <> List.length (BuildCollection.builds self) ->
  BuildCollection.filter_builds self (Some (Test.batch part))
    (Some (Test.machine part)) (Test.print_materials part) None = Ok refs
  \/ BuildCollection.filter_builds self (Some (Test.batch part))
       (Some (Test.machine part)) Dict.empty (Some (Test.base_name part))
     = Ok refs ->
  In i refs ->
  exists build,
    BuildCollection.build_at self i = Some build
    /\ (snd (Build.add_part build part false) = Raise DuplicatePart
        \/ exists key, snd (Build.add_part build part false)
                        = Raise (MaterialExceeded key)).
Proof.
  intros Hrun Hlen Hrefs Hin.
  assert (Hmatch : exists build,
            BuildCollection.build_at self i = Some build
            /\ batch_step (Test.batch part) build = true
            /\ machine_step (Some (Test.machine part)) build = true).
  { destruct Hrefs as [H|H];
      exact (filter_builds_steps_In _ _ _ _ _ _ _ H Hin). }
  assert (Hrefuses : refuses self part i).
  { revert Hrun. unfold BuildCollection.assign_part.
    destruct (BuildCollection.filter_builds self (Some (Test.batch part))
                (Some (Test.machine part)) (Test.print_materials part) None)
      as [lazy|e]; [|intros H; inversion H; subst; contradiction].
    destruct (BuildCollection.filter_builds self (Some (Test.batch part))
                (Some (Test.machine part)) Dict.empty
                (Some (Test.base_name part)))
      as [eligible|e]; [|intros H; inversion H; subst; contradiction].
    intros Hrun.
    destruct (assign_loop_spawns_last part _ _ _ _ _ _ _ _ Hrun Hlen)
      as [Hstrict Hlazy].
    destruct Hrefs as [H|H]; inversion H; subst refs.
    - now apply (Hlazy lazy eq_refl).
    - now apply Hstrict. }
  destruct Hmatch as (build & Hb & Hbatch & Hmachine).
  destruct Hrefuses as (b & msg & Hb' & Hmsg).
  rewrite Hb in Hb'. inversion Hb'; subst b. exists build. split; auto.
  destruct (add_part_of_match part build false Hbatch Hmachine)
    as ([Hok|[Hdup|[Hz|Hmat]]] & _); cbv zeta in *; auto;
    rewrite Hmsg in *; discriminate.
Qed.

Lemma X20_spawn_witness :
  BuildCollection.assign_part 8
    (BuildCollection.mk [Scenario.build_A] Scenario.no_kwargs 1)
    Scenario.part_A' (fun n => n) <> None
  /\ match BuildCollection.assign_part 8
             (BuildCollection.mk [Scenario.build_A] Scenario.no_kwargs 1)
             Scenario.part_A' (fun n => n) with
     | Some (self', _, _) =>
         List.length (BuildCollection.builds self') = 2%nat
         /\ exists build,
              BuildCollection.build_at
                (BuildCollection.mk [Scenario.build_A] Scenario.no_kwargs 1) O
              = Some build
              /\ (snd (Build.add_part build Scenario.part_A' false)
                  = Raise DuplicatePart
                  \/ exists key,
                       snd (Build.add_part build Scenario.part_A' false)
                       = Raise (MaterialExceeded key))
     | None => True
     end.
Proof.
  split; [vm_compute; discriminate|].
  destruct (BuildCollection.assign_part 8
              (BuildCollection.mk [Scenario.build_A] Scenario.no_kwargs 1)
              Scenario.part_A' (fun n => n))
    as [[[self' rnd'] r]|] eqn:Hrun; [|exact I].
  assert (Hlen : List.length (BuildCollection.builds self') = 2%nat).
  { revert Hrun. vm_compute. intros H. now inversion H. }
  split; [exact Hlen|].
  refine (X20_spawn_is_the_last_resort _ _ _ _ _ _ _ [O] O Hrun _
            (or_intror eq_refl) (or_introl eq_refl)).
  rewrite Hlen. discriminate.
Defined.
